(** * 20 Newsgroups notebook: data preparation and evaluation

    A shallow embedding of the data-handling cells of
    [notebooks/pytorch-20ng.ipynb]: the GloVe embedding loader (cell 5), the
    corpus loader (cell 7), the Keras tokenizer and padding (cell 11), the
    scikit-learn split (cell 13), the embedding matrix (cell 17), the
    evaluator (cell 22) and the confusion-matrix report (cell 28).

    Python lists are lists, Python dicts that are only looked up are [gmap]s,
    dicts whose iteration order matters are association lists in insertion
    order, exceptions are the [Raise] branch of [result].  Floating-point
    numbers are kept abstract behind the class [FloatOps]. *)

From Stdlib Require Import ZArith QArith Lia Ascii String Permutation.
From stdpp Require Import gmap strings list sorting.

(* ===================================================================== *)
(** * Exceptions *)
(* ===================================================================== *)

(** The Python exceptions the modelled cells can raise. *)
Inductive exn : Type :=
  | IndexError
  | ValueError
  | ZeroDivisionError
  | AttributeError.

Inductive result (A : Type) : Type :=
  | Ok (a : A)
  | Raise (e : exn).
Arguments Ok {A} a.
Arguments Raise {A} e.

Definition rbind {A B : Type} (r : result A) (k : A -> result B) : result B :=
  match r with
  | Ok a => k a
  | Raise e => Raise e
  end.

Notation "'do' x <- r ; k" := (rbind r (fun x => k))
  (at level 10, x pattern, r at level 100, k at level 200).

(** [for x in l: st = body st x], where the body may raise. *)
Fixpoint for_each {A S : Type} (body : S -> A -> result S) (l : list A) (st : S)
  : result S :=
  match l with
  | [] => Ok st
  | x :: l' => do st' <- body st x; for_each body l' st'
  end.

(* ===================================================================== *)
(** * Python [str] operations *)
(* ===================================================================== *)

Module PyStr.

(** Line feed, [chr(10)]. *)
Definition LF : ascii := "010"%char.

(** The blank-line separator [chr(10) + chr(10)] of cell 7. *)
Definition blank_line : string := String LF (String LF EmptyString).

Fixpoint find_from (sub t : string) (i : Z) : Z :=
  if String.prefix sub t then i
  else match t with
       | EmptyString => (-1)%Z
       | String _ t' => find_from sub t' (i + 1)%Z
       end.

(** [t.find(sub)]: the lowest index where [sub] occurs in [t], or [-1]. *)
Definition find (t sub : string) : Z := find_from sub t 0.

Fixpoint drop_chars (n : nat) (t : string) : string :=
  match n, t with
  | O, _ => t
  | S _, EmptyString => EmptyString
  | S n', String _ t' => drop_chars n' t'
  end.

(** [t[i:]]: a negative [i] counts from the end, and the start is clipped
    to the string. *)
Definition slice_from (t : string) (i : Z) : string :=
  let n := Z.of_nat (String.length t) in
  let start := if (i <? 0)%Z then Z.max 0 (n + i) else Z.min i n in
  drop_chars (Z.to_nat start) t.

(** [c.isdigit()] for a code point below 256: the ASCII digits and the
    superscripts two, three and one. *)
Definition is_digit (c : ascii) : bool :=
  let n := nat_of_ascii c in
  ((48 <=? n)%nat && (n <=? 57)%nat)
  || (n =? 178)%nat || (n =? 179)%nat || (n =? 185)%nat.

Fixpoint all_chars (p : ascii -> bool) (t : string) : bool :=
  match t with
  | EmptyString => true
  | String c t' => p c && all_chars p t'
  end.

(** [t.isdigit()]: non-empty and every character a digit. *)
Definition isdigit (t : string) : bool :=
  match t with
  | EmptyString => false
  | _ => all_chars is_digit t
  end.

(** [c.isspace()] for a code point below 256: tab, line feed, vertical
    tab, form feed, carriage return, the four separators 28..31, space,
    next line (133) and no-break space (160). *)
Definition is_space (c : ascii) : bool :=
  let n := nat_of_ascii c in
  ((9 <=? n)%nat && (n <=? 13)%nat) || ((28 <=? n)%nat && (n <=? 32)%nat)
  || (n =? 133)%nat || (n =? 160)%nat.

(** One pass of splitting: [cur] holds the current field reversed. *)
Fixpoint split_on (is_sep : ascii -> bool) (keep_empty : bool)
         (cur : list ascii) (t : string) : list string :=
  let emit (rest : list string) :=
    match cur with
    | [] => if keep_empty then EmptyString :: rest else rest
    | _ => string_of_list_ascii (rev cur) :: rest
    end in
  match t with
  | EmptyString => emit []
  | String c t' =>
      if is_sep c then emit (split_on is_sep keep_empty [] t')
      else split_on is_sep keep_empty (c :: cur) t'
  end.

(** [t.split()]: fields separated by runs of whitespace, no empty field. *)
Definition split (t : string) : list string := split_on is_space false [] t.

(** [t.split(sep)] for a one-character [sep]: empty fields are kept. *)
Definition split_char (sep : ascii) (t : string) : list string :=
  split_on (fun c => Ascii.eqb c sep) true [] t.

(** [c.lower()] for a code point below 256: the letters A..Z and the
    Latin-1 capitals 192..222 (without the multiplication sign 215) move
    up by 32. *)
Definition lower_char (c : ascii) : ascii :=
  let n := nat_of_ascii c in
  if ((65 <=? n)%nat && (n <=? 90)%nat)
     || ((192 <=? n)%nat && (n <=? 222)%nat && negb (n =? 215)%nat)
  then ascii_of_nat (n + 32) else c.

Fixpoint map_chars (f : ascii -> ascii) (t : string) : string :=
  match t with
  | EmptyString => EmptyString
  | String c t' => String (f c) (map_chars f t')
  end.

(** [t.lower()]. *)
Definition lower (t : string) : string := map_chars lower_char t.

Fixpoint insert_sorted (x : string) (l : list string) : list string :=
  match l with
  | [] => [x]
  | y :: l' => if String.leb x y then x :: l else y :: insert_sorted x l'
  end.

(** [sorted(names)] for strings, by code point. *)
Definition sorted (l : list string) : list string :=
  foldr insert_sorted [] l.

End PyStr.

(* ===================================================================== *)
(** * Corpus loader (cell 7) *)
(* ===================================================================== *)

Module Corpus.

(** A directory entry of [TEXT_DATA_DIR]: a plain file, or a directory of
    named files with their (latin-1 decoded) contents. *)
Inductive entry : Type :=
  | File (content : string)
  | Dir (files : list (string * string)).

(** The header skip applied to each file's text:
    [i = t.find(blank_line); if 0 < i: t = t[i:]]. *)
Definition strip_header (t : string) : string :=
  let i := PyStr.find t PyStr.blank_line in
  if (0 <? i)%Z then PyStr.slice_from t i else t.

Record state : Type := {
  texts : list string;
  labels_index : list (string * nat);
  labels : list nat
}.

Definition lookup_file (files : list (string * string)) (fname : string)
  : option string :=
  snd <$> List.find (fun p => String.eqb (fst p) fname) files.

(** The inner loop over [sorted(os.listdir(path))]. *)
Definition load_dir (label_id : nat) (files : list (string * string))
           (st : state) : state :=
  foldl (fun st fname =>
           if PyStr.isdigit fname then
             match lookup_file files fname with
             | Some t =>
                 {| texts := texts st ++ [strip_header t];
                    labels_index := labels_index st;
                    labels := labels st ++ [label_id] |}
             | None => st
             end
           else st)
        st (PyStr.sorted (map fst files)).

(** The outer loop over [sorted(os.listdir(TEXT_DATA_DIR))]. *)
Definition load (root : list (string * entry)) : state :=
  foldl (fun st name =>
           match snd <$> List.find (fun p => String.eqb (fst p) name) root with
           | Some (Dir files) =>
               let label_id := length (labels_index st) in
               load_dir label_id files
                 {| texts := texts st;
                    labels_index := labels_index st ++ [(name, label_id)];
                    labels := labels st |}
           | _ => st
           end)
        {| texts := []; labels_index := []; labels := [] |}
        (PyStr.sorted (map fst root)).

End Corpus.

(* ===================================================================== *)
(** * Floating-point numbers *)
(* ===================================================================== *)

(** The floating-point values and operations the notebook relies on, kept
    abstract: [float] is the Python float (binary64) and the numpy default,
    [float32] the element type of the GloVe vectors and of torch tensors.
    Nothing below depends on how the operations round. *)
Class FloatOps : Type := {
  float : Type;
  float32 : Type;
  (** [float(n)] of a non-negative Python int *)
  of_nat : nat -> float;
  (** [x + y] and [x / y]: IEEE addition and division; where Python
      raises [ZeroDivisionError] for a zero divisor, the caller is modelled
      as raising *)
  fadd : float -> float -> float;
  fdiv : float -> float -> float;
  (** the float32 tensor arithmetic of [100. * correct / n] *)
  of_nat32 : nat -> float32;
  fmul32 : float32 -> float32 -> float32;
  fdiv32 : float32 -> float32 -> float32;
  (** [x < y] on float32 values, as used by the arg-max *)
  flt32 : float32 -> float32 -> bool;
  (** storing a float32 into a float64 array, and converting it back with
      [torch.FloatTensor]; widening is exact, so the round trip is the
      identity *)
  widen : float32 -> float;
  narrow : float -> float32;
  narrow_widen : forall x, narrow (widen x) = x;
  (** numpy's conversion of a text field to float32; [None] when the field
      is not a float literal (numpy raises [ValueError]) *)
  parse_float32 : string -> option float32
}.

(* ===================================================================== *)
(** * Embedding loader (cell 5) *)
(* ===================================================================== *)

Module Embeddings.
Section WithFloats.
Context `{FloatOps}.

(** [np.asarray(fields, dtype='float32')] on a list of text fields: every
    field is converted, whatever their number. *)
Definition asarray_float32 (fields : list string) : result (list float32) :=
  match mapM parse_float32 fields with
  | Some coefs => Ok coefs
  | None => Raise ValueError
  end.

(** The loop body: [values = line.split(); word = values[0];
    coefs = np.asarray(values[1:], dtype='float32');
    embeddings_index[word] = coefs]. *)
Definition load_line (embeddings_index : gmap string (list float32))
           (line : string) : result (gmap string (list float32)) :=
  let values := PyStr.split line in
  match values with
  | [] => Raise IndexError
  | word :: rest =>
      do coefs <- asarray_float32 rest;
      Ok (<[word := coefs]> embeddings_index)
  end.

(** [for line in f: ...] starting from the empty dict. *)
Definition load (lines : list string) : result (gmap string (list float32)) :=
  for_each load_line lines ∅.

End WithFloats.
End Embeddings.

(* ===================================================================== *)
(** * Keras tokenizer and padding (library code called by cell 11) *)
(* ===================================================================== *)

Module Keras.

(** The default [filters] of [text.Tokenizer]: punctuation without the
    apostrophe, then tab and line feed. *)
Definition filters : string :=
  "!" +:+ String "034"%char "#$%&()*+,-./:;<=>?@[\]^_`{|}~"
      +:+ String "009"%char (String "010"%char EmptyString).

Fixpoint mem_char (c : ascii) (t : string) : bool :=
  match t with
  | EmptyString => false
  | String d t' => Ascii.eqb c d || mem_char c t'
  end.

Definition non_empty (t : string) : bool :=
  match t with EmptyString => false | _ => true end.

(** [text_to_word_sequence(text)] with the defaults [lower=True] and
    [split=' ']: lower-case, turn every filtered character into a space,
    split on single spaces, drop the empty fields. *)
Definition text_to_word_sequence (text : string) : list string :=
  let text := PyStr.lower text in
  let text :=
    PyStr.map_chars (fun c => if mem_char c filters then " "%char else c) text in
  List.filter non_empty (PyStr.split_char " "%char text).

(** [Tokenizer]: [num_words] as given to the constructor, [word_counts] an
    ordered dict (insertion order), [word_index] the dict built by
    [fit_on_texts], in the order of its items. *)
Record Tokenizer : Type := {
  num_words : option nat;
  word_counts : list (string * nat);
  word_index : list (string * nat)
}.

Definition new (num_words : option nat) : Tokenizer :=
  {| num_words := num_words; word_counts := []; word_index := [] |}.

(** [d.get(w)] on a dict given by its items. *)
Fixpoint get (d : list (string * nat)) (w : string) : option nat :=
  match d with
  | [] => None
  | (k, v) :: d' => if String.eqb k w then Some v else get d' w
  end.

(** [if w in counts: counts[w] += 1 else: counts[w] = 1]. *)
Fixpoint bump (w : string) (counts : list (string * nat)) : list (string * nat) :=
  match counts with
  | [] => [(w, 1)]
  | (k, c) :: counts' =>
      if String.eqb k w then (k, S c) :: counts' else (k, c) :: bump w counts'
  end.

Fixpoint insert_by_count (x : string * nat) (l : list (string * nat))
  : list (string * nat) :=
  match l with
  | [] => [x]
  | y :: l' => if (snd x <? snd y)%nat then y :: insert_by_count x l' else x :: l
  end.

(** [wcounts.sort(key=lambda x: x[1], reverse=True)]: by decreasing count,
    stable, so words with equal counts keep their first-seen order. *)
Definition sort_by_count (l : list (string * nat)) : list (string * nat) :=
  foldr insert_by_count [] l.

(** [fit_on_texts(texts)]: count the words, rank them by count and number
    them from 1. *)
Definition fit_on_texts (tok : Tokenizer) (texts : list string) : Tokenizer :=
  let counts :=
    foldl (fun counts text => foldl (fun counts w => bump w counts) counts
                                    (text_to_word_sequence text))
          (word_counts tok) texts in
  let sorted_voc := map fst (sort_by_count counts) in
  {| num_words := num_words tok;
     word_counts := counts;
     word_index := zip sorted_voc (seq 1 (length sorted_voc)) |}.

(** The test [num_words and i >= num_words] of the encoding loop. *)
Definition beyond_cap (num_words : option nat) (i : nat) : bool :=
  match num_words with
  | None | Some O => false
  | Some n => (n <=? i)%nat
  end.

(** One text of [texts_to_sequences] (no [oov_token]): words without an
    index and words whose index reaches the cap are left out. *)
Definition text_to_sequence (tok : Tokenizer) (text : string) : list nat :=
  List.flat_map
    (fun w => match get (word_index tok) w with
              | Some i => if beyond_cap (num_words tok) i then [] else [i]
              | None => []
              end)
    (text_to_word_sequence text).

Definition texts_to_sequences (tok : Tokenizer) (texts : list string)
  : list (list nat) :=
  map (text_to_sequence tok) texts.

(** [s[-maxlen:]]: the last [maxlen] items; [-0] is [0], so the whole
    list when [maxlen] is 0. *)
Definition slice_last (maxlen : nat) (s : list nat) : list nat :=
  if (maxlen =? 0)%nat then s else drop (length s - maxlen) s.

(** [row[-len(trunc):] = trunc] on a numpy row, for a non-empty [trunc]:
    the target is the last [min (len row) (len trunc)] cells; a source of
    another length is broadcast when it has one item and refused
    otherwise. *)
Definition assign_tail (row trunc : list nat) : result (list nat) :=
  let target := length row `min` length trunc in
  if (length trunc =? target)%nat then
    Ok (take (length row - target) row ++ trunc)
  else match trunc with
       | [v] => Ok (take (length row - target) row ++ replicate target v)
       | _ => Raise ValueError
       end.

(** One row of [pad_sequences(sequences, maxlen)] with the defaults
    [padding='pre'], [truncating='pre'], [value=0]. *)
Definition pad_row (maxlen : nat) (s : list nat) : result (list nat) :=
  let row := replicate maxlen 0%nat in
  match s with
  | [] => Ok row
  | _ => assign_tail row (slice_last maxlen s)
  end.

Definition pad_sequences (sequences : list (list nat)) (maxlen : nat)
  : result (list (list nat)) :=
  for_each (fun rows s => do row <- pad_row maxlen s; Ok (rows ++ [row]))
           sequences [].

End Keras.

(* ===================================================================== *)
(** * Vectorizing the texts (cell 11) *)
(* ===================================================================== *)

Definition MAX_NUM_WORDS : nat := 10000.
Definition MAX_SEQUENCE_LENGTH : nat := 1000.

(** Cell 11 for a vocabulary cap and a sequence length: the fitted
    tokenizer and the padded [data]. *)
Definition vectorize (max_num_words max_sequence_length : nat)
           (texts : list string) : result (Keras.Tokenizer * list (list nat)) :=
  let tokenizer :=
    Keras.fit_on_texts (Keras.new (Some max_num_words)) texts in
  let sequences := Keras.texts_to_sequences tokenizer texts in
  do data <- Keras.pad_sequences sequences max_sequence_length;
  Ok (tokenizer, data).

(* ===================================================================== *)
(** * scikit-learn (library code called by cells 13 and 28) *)
(* ===================================================================== *)

Module Sklearn.

(** numpy's random generator, as far as the split uses it:
    [RandomState(seed)] and [rng.permutation(n)], a rearrangement of
    [range(n)] determined by the generator's state. *)
Class RandomState : Type := {
  rng_state : Type;
  seeded : nat -> rng_state;
  permutation : rng_state -> nat -> list nat;
  permutation_perm : forall g n, permutation g n ≡ₚ seq 0 n
}.

(** [_validate_shuffle_split] for an integer [test_size] and no
    [train_size]: the test size must be positive and smaller than the
    number of samples. *)
Definition validate_shuffle_split (n_samples test_size : nat)
  : result (nat * nat) :=
  if (n_samples <=? test_size)%nat || (test_size =? 0)%nat then Raise ValueError
  else
    let n_test := test_size in
    let n_train := (n_samples - n_test)%nat in
    if (n_train =? 0)%nat then Raise ValueError else Ok (n_train, n_test).

(** [a[idx]] for a list of positions. *)
Definition safe_indexing {A : Type} (a : list A) (idx : list nat)
  : result (list A) :=
  match mapM (fun i => a !! i) idx with
  | Some r => Ok r
  | None => Raise IndexError
  end.

Section WithRandomState.
Context `{RandomState}.

(** The train and test positions.  Without shuffling they are the head
    and the tail of [range(n_samples)]; with shuffling they are cut
    from one permutation, drawn from a generator seeded with
    [random_state] when it is given and from the ambient generator
    [ambient] otherwise. *)
Definition split_indices (ambient : rng_state) (n_samples test_size : nat)
           (shuffle : bool) (random_state : option nat)
  : result (list nat * list nat) :=
  do (n_train, n_test) <- validate_shuffle_split n_samples test_size;
  if shuffle then
    let rng := match random_state with
               | Some seed => seeded seed
               | None => ambient
               end in
    let perm := permutation rng n_samples in
    Ok (take n_train (drop n_test perm), take n_test perm)
  else Ok (seq 0 n_train, seq n_train n_test).

(** [train_test_split(X, y, test_size=..., shuffle=..., random_state=...)]
    for two arrays, which must have the same length. *)
Definition train_test_split {A B : Type} (ambient : rng_state)
           (X : list A) (y : list B) (test_size : nat) (shuffle : bool)
           (random_state : option nat)
  : result (list A * list A * list B * list B) :=
  if negb (length X =? length y)%nat then Raise ValueError
  else
    do (train, test) <-
       split_indices ambient (length X) test_size shuffle random_state;
    do x_train <- safe_indexing X train;
    do x_test <- safe_indexing X test;
    do y_train <- safe_indexing y train;
    do y_test <- safe_indexing y test;
    Ok (x_train, x_test, y_train, y_test).

End WithRandomState.

Definition count_pair (i j : nat) (pairs : list (nat * nat)) : nat :=
  length (List.filter (fun p => (fst p =? i)%nat && (snd p =? j)%nat) pairs).

(** [confusion_matrix(y_true, y_pred, labels=list(range(n_labels)))]: the
    two vectors must have the same length and some label must occur in
    [y_true]; pairs with a value outside the labels are dropped; entry
    [(i, j)] counts the samples of true label [i] predicted as [j].  (On an
    empty [y_true] recent releases return a zero matrix instead of raising;
    cell 28 never gets there, [evaluate] raises on an empty set.) *)
Definition confusion_matrix (y_true y_pred : list nat) (n_labels : nat)
  : result (list (list nat)) :=
  if negb (length y_true =? length y_pred)%nat then Raise ValueError
  else if forallb (fun l => negb (existsb (Nat.eqb l) y_true)) (seq 0 n_labels)
  then Raise ValueError
  else
    let pairs :=
      List.filter (fun p => (fst p <? n_labels)%nat && (snd p <? n_labels)%nat)
                  (zip y_true y_pred) in
    Ok (map (fun i => map (fun j => count_pair i j pairs) (seq 0 n_labels))
            (seq 0 n_labels)).

End Sklearn.

(* ===================================================================== *)
(** * Splitting the data (cell 13) *)
(* ===================================================================== *)

Definition VALIDATION_SET : nat := 1000.
Definition TEST_SET : nat := 4000.

Record splits (A B : Type) : Type := {
  x_train : list A; y_train : list B;
  x_val : list A; y_val : list B;
  x_test : list A; y_test : list B
}.
Arguments x_train {A B} _.
Arguments y_train {A B} _.
Arguments x_val {A B} _.
Arguments y_val {A B} _.
Arguments x_test {A B} _.
Arguments y_test {A B} _.

(** Cell 13 for a validation size and a test size: the test set is split
    off with [shuffle=True, random_state=42], the validation set is then
    split off the remaining training data with [shuffle=False]. *)
Definition split_dataset `{Sklearn.RandomState} {A B : Type}
           (ambient : Sklearn.rng_state) (validation_set test_set : nat)
           (data : list A) (labels : list B) : result (splits A B) :=
  do (x_train1, x_test, y_train1, y_test) <-
     Sklearn.train_test_split ambient data labels test_set true (Some 42%nat);
  do (x_train, x_val, y_train, y_val) <-
     Sklearn.train_test_split ambient x_train1 y_train1 validation_set false None;
  Ok {| x_train := x_train; y_train := y_train;
        x_val := x_val; y_val := y_val;
        x_test := x_test; y_test := y_test |}.

(* ===================================================================== *)
(** * Embedding matrix (cell 17) *)
(* ===================================================================== *)

Definition EMBEDDING_DIM : nat := 100.

Section EmbeddingMatrix.
Context `{FloatOps}.

(** [matrix[i] = vector] on a two-dimensional numpy array: the row must
    exist, and the vector must have the row's length or a single item,
    which is then copied to every cell of the row. *)
Definition set_row (matrix : list (list float)) (i : nat) (vector : list float)
  : result (list (list float)) :=
  match matrix !! i with
  | None => Raise IndexError
  | Some row =>
      if (length vector =? length row)%nat then Ok (<[i := vector]> matrix)
      else match vector with
           | [v] => Ok (<[i := replicate (length row) v]> matrix)
           | _ => Raise ValueError
           end
  end.

(** The loop body of cell 17 on the pair (matrix, n_not_found). *)
Definition embedding_step (max_num_words : nat)
           (embeddings_index : gmap string (list float32))
           (st : list (list float) * nat) (item : string * nat)
  : result (list (list float) * nat) :=
  let '(embedding_matrix, n_not_found) := st in
  let '(word, i) := item in
  if (max_num_words <=? i)%nat then Ok st
  else match embeddings_index !! word with
       | Some embedding_vector =>
           do embedding_matrix' <-
              set_row embedding_matrix i (map widen embedding_vector);
           Ok (embedding_matrix', n_not_found)
       | None => Ok (embedding_matrix, (n_not_found + 1)%nat)
       end.

(** Cell 17: a zero matrix with [min(max_num_words, len(word_index) + 1)]
    rows, filled from the embedding table by a loop over
    [word_index.items()], then converted with [torch.FloatTensor]. *)
Definition build_embedding_matrix (max_num_words embedding_dim : nat)
           (word_index : list (string * nat))
           (embeddings_index : gmap string (list float32))
  : result (list (list float32) * nat) :=
  let num_words := (max_num_words `min` (length word_index + 1))%nat in
  let zeros := replicate num_words (replicate embedding_dim (of_nat 0)) in
  do (embedding_matrix, n_not_found) <-
     for_each (embedding_step max_num_words embeddings_index)
              word_index (zeros, 0%nat);
  Ok (map (map narrow) embedding_matrix, n_not_found).

End EmbeddingMatrix.

(* ===================================================================== *)
(** * Data loaders, the network and the evaluator (cells 15, 19 and 22) *)
(* ===================================================================== *)

Definition BATCH_SIZE : nat := 128.

(** The number of classes of the network's last layer, [nn.Linear(128, 20)],
    also the number of labels of the confusion matrix. *)
Definition N_CLASSES : nat := 20.

Module Torch.

(** A [DataLoader] without shuffling over a [TensorDataset] of
    (sequence, label) pairs.  The constructor refuses a batch size that is
    not positive. *)
Record DataLoader : Type := {
  dataset : list (list nat * nat);
  batch_size : nat
}.

Fixpoint chunks {A : Type} (fuel size : nat) (l : list A) : list (list A) :=
  match fuel with
  | O => []
  | S fuel' =>
      match l with
      | [] => []
      | _ => take size l :: chunks fuel' size (drop size l)
      end
  end.

(** The batches in iteration order: consecutive slices of [batch_size]
    samples, the last one possibly shorter. *)
Definition batches (loader : DataLoader) : list (list (list nat * nat)) :=
  chunks (length (dataset loader)) (batch_size loader) (dataset loader).

(** [len(loader)]: the number of batches,
    [(len(dataset) + batch_size - 1) // batch_size]. *)
Definition len (loader : DataLoader) : nat :=
  ((length (dataset loader) + batch_size loader - 1) / batch_size loader)%nat.

Definition targets (loader : DataLoader) : list nat := map snd (dataset loader).

End Torch.

Section Evaluator.
Context `{FloatOps}.

(** The trained network and the loss, as the evaluator sees them:
    [forward] gives the scores of one sequence (the network treats the
    samples of a batch independently), one score per class;
    [criterion] is the cross-entropy of a batch followed by
    [.data.item()], which raises on a label outside the classes and is
    defined otherwise. *)
Record Net : Type := {
  forward : list nat -> list float32;
  forward_classes : forall x, length (forward x) = N_CLASSES;
  criterion : list (list float32) -> list nat -> result float;
  criterion_defined :
    forall output target,
      Forall (fun t => (t < N_CLASSES)%nat) target ->
      exists l, criterion output target = Ok l
}.

Fixpoint argmax_from (best_i : nat) (best : float32) (i : nat)
         (row : list float32) : nat :=
  match row with
  | [] => best_i
  | x :: row' =>
      if flt32 best x then argmax_from i x (S i) row'
      else argmax_from best_i best (S i) row'
  end.

(** [row.max()[1]]: the position of a largest score (the first one). *)
Definition argmax (row : list float32) : nat :=
  match row with
  | [] => 0%nat
  | x :: row' => argmax_from 0 x 1 row'
  end.

(** [pred.eq(target).sum()]. *)
Definition count_equal (pred target : list nat) : nat :=
  length (List.filter (fun p => (fst p =? snd p)%nat) (zip pred target)).

(** The loop variables of [evaluate]. *)
Record eval_state : Type := {
  loss : float;
  correct : nat;
  pred_vector : list nat
}.

Definition eval_step (net : Net) (st : eval_state)
           (batch : list (list nat * nat)) : result eval_state :=
  let data := map fst batch in
  let target := map snd batch in
  let output := map (forward net) data in
  do l <- criterion net output target;
  let pred := map argmax output in
  Ok {| loss := fadd (loss st) l;
        correct := (correct st + count_equal pred target)%nat;
        pred_vector := pred_vector st ++ pred |}.

(** What [evaluate] reports and returns: the mean loss and the accuracy it
    prints (and appends to [loss_vector] and [accuracy_vector] when they
    are given), the count of correct predictions it prints, and the vector
    of predictions it returns. *)
Record evaluation : Type := {
  mean_loss : float;
  n_correct : nat;
  accuracy : float32;
  predictions : list nat
}.

(** Cell 22.  [validation_loader] is the global the function reads for
    the divisor of the loss.  The division raises when that loader has no
    batch; [correct] is still the integer 0, which has no [to] method,
    when the evaluated loader has no batch. *)
Definition evaluate (net : Net) (validation_loader loader : Torch.DataLoader)
  : result evaluation :=
  do st <- for_each (eval_step net) (Torch.batches loader)
                    {| loss := of_nat 0; correct := 0; pred_vector := [] |};
  if (Torch.len validation_loader =? 0)%nat then Raise ZeroDivisionError
  else
    let loss := fdiv (loss st) (of_nat (Torch.len validation_loader)) in
    match Torch.batches loader with
    | [] => Raise AttributeError
    | _ =>
        let accuracy :=
          fdiv32 (fmul32 (of_nat32 100) (of_nat32 (correct st)))
                 (of_nat32 (length (Torch.dataset loader))) in
        Ok {| mean_loss := loss; n_correct := correct st;
              accuracy := accuracy; predictions := pred_vector st |}
    end.

Definition diagonal (cm : list (list nat)) : list nat :=
  imap (fun i row => default 0%nat (row !! i)) cm.

(** [cm.diagonal() / cm.sum(axis=1)]: element-wise true division. *)
Definition per_class_accuracy (cm : list (list nat)) : list float :=
  zip_with (fun d r => fdiv (of_nat d) (of_nat r))
           (diagonal cm) (map sum_list cm).

(** Cells 26 and 28: evaluate a loader, then build the confusion matrix of
    its labels against the returned predictions. *)
Definition report (net : Net) (validation_loader loader : Torch.DataLoader)
  : result (evaluation * list (list nat) * list float) :=
  do r <- evaluate net validation_loader loader;
  do cm <- Sklearn.confusion_matrix (Torch.targets loader) (predictions r)
                                    N_CLASSES;
  Ok (r, cm, per_class_accuracy cm).

End Evaluator.

(* ===================================================================== *)
(** * Instances for running the definitions *)
(* ===================================================================== *)

(** Exact stand-ins for the abstract parts, used to evaluate the
    definitions on concrete inputs: rationals for both float types with
    plain decimal literals, and a generator whose permutation reverses
    [range(n)] for an even state. *)
Module Instances.

Fixpoint digits_value (acc : Z) (t : string) : Z :=
  match t with
  | EmptyString => acc
  | String c t' => digits_value (10 * acc + Z.of_nat (nat_of_ascii c - 48)) t'
  end.

(** Literals of the form [-]digits[.digits]. *)
Definition parse_decimal (t : string) : option Q :=
  let '(sign, body) :=
    match t with
    | String "-"%char body => ((-1)%Z, body)
    | _ => (1%Z, t)
    end in
  match PyStr.split_char "."%char body with
  | [ip] =>
      if PyStr.isdigit ip then Some (inject_Z (sign * digits_value 0 ip)) else None
  | [ip; fp] =>
      if PyStr.isdigit ip && PyStr.isdigit fp then
        Some (Qmake (sign * digits_value 0 (ip +:+ fp))
                    (Z.to_pos (10 ^ Z.of_nat (String.length fp))))
      else None
  | _ => None
  end.

Definition Q_floats : FloatOps := {|
  float := Q;
  float32 := Q;
  of_nat := fun n => inject_Z (Z.of_nat n);
  fadd := Qplus;
  fdiv := Qdiv;
  of_nat32 := fun n => inject_Z (Z.of_nat n);
  fmul32 := Qmult;
  fdiv32 := Qdiv;
  flt32 := fun x y => negb (Qle_bool y x);
  widen := fun x => x;
  narrow := fun x => x;
  narrow_widen := fun x => eq_refl;
  parse_float32 := parse_decimal
|}.

Lemma reversing_perm (g n : nat) :
  (if Nat.even g then rev (seq 0 n) else seq 0 n) ≡ₚ seq 0 n.
Proof. destruct (Nat.even g); [symmetry; apply Permutation_rev|done]. Qed.

Definition reversing : Sklearn.RandomState := {|
  Sklearn.rng_state := nat;
  Sklearn.seeded := fun seed => seed;
  Sklearn.permutation := fun g n => if Nat.even g then rev (seq 0 n) else seq 0 n;
  Sklearn.permutation_perm := reversing_perm
|}.

(** A network that scores class [sum(x) mod 20] highest, with a loss of
    one per batch. *)
Definition one_hot (x : list nat) : list Q :=
  map (fun j => if (j =? sum_list x mod N_CLASSES)%nat then 1%Q else 0%Q)
      (seq 0 N_CLASSES).

Lemma one_hot_classes (x : list nat) : length (one_hot x) = N_CLASSES.
Proof. unfold one_hot. by rewrite length_map, length_seq. Qed.

Definition unit_loss (output : list (list Q)) (target : list nat) : result Q :=
  if forallb (fun t => (t <? N_CLASSES)%nat) target then Ok 1%Q
  else Raise IndexError.

Lemma unit_loss_defined (output : list (list Q)) (target : list nat) :
  Forall (fun t => (t < N_CLASSES)%nat) target ->
  exists l, unit_loss output target = Ok l.
Proof.
  intros Hall. exists 1%Q. unfold unit_loss.
  replace (forallb _ target) with true; [done|].
  symmetry. apply forallb_forall. rewrite Forall_forall in Hall.
  intros t Ht. apply Nat.ltb_lt, Hall. by apply list_elem_of_In.
Qed.

Definition sum_net : @Net Q_floats :=
  @Build_Net Q_floats one_hot one_hot_classes unit_loss unit_loss_defined.

(** A validation loader with one batch and a test loader with three. *)
Definition validation_loader : Torch.DataLoader :=
  {| Torch.dataset := [([1; 2], 3); ([4], 4)]%nat; Torch.batch_size := 2 |}.

Definition test_loader : Torch.DataLoader :=
  {| Torch.dataset :=
       [([1; 2], 3); ([4], 4); ([20], 1); ([5; 5], 10); ([7], 8)]%nat;
     Torch.batch_size := 2 |}.

End Instances.

(* ===================================================================== *)
(** * Class names of the report (cell 28) *)
(* ===================================================================== *)

Fixpoint insert_by_id (x : string * nat) (l : list (string * nat))
  : list (string * nat) :=
  match l with
  | [] => [x]
  | y :: l' => if (snd y <? snd x)%nat then y :: insert_by_id x l' else x :: l
  end.

(** [sorted(labels_index.items(), key=lambda x: x[1])]: by increasing id,
    stable. *)
Definition sorted_by_id (items : list (string * nat)) : list (string * nat) :=
  foldr insert_by_id [] items.

(** [labels = [l[0] for l in sorted(labels_index.items(), key=...)]]: the
    class names in the order of their ids, used to label the rows of the
    report. *)
Definition class_names (labels_index : list (string * nat)) : list string :=
  map fst (sorted_by_id labels_index).

(** [t.ljust(width)]: spaces are added on the right up to [width]
    characters; a longer text is returned as it is. *)
Definition ljust (width : nat) (t : string) : string :=
  t +:+ string_of_list_ascii (replicate (width - String.length t) " "%char).

(** The print loop of cell 28,
    [for i, j in enumerate(acc): print(fmt % (labels[i].ljust(26), j))]:
    the lines printed, each as the pair of its two format arguments, and
    how the loop ends; [labels[i]] raises [IndexError] when the list of
    class names has no position [i]. *)
Fixpoint print_accuracies `{FloatOps} (labels : list string) (i : nat)
         (acc : list float) : list (string * float) * result unit :=
  match acc with
  | [] => ([], Ok tt)
  | j :: acc' =>
      match labels !! i with
      | None => ([], Raise IndexError)
      | Some name =>
          let '(printed, r) := print_accuracies labels (S i) acc' in
          ((ljust 26 name, j) :: printed, r)
      end
  end.

(* ===================================================================== *)
(** * Tensor lengths in the convolutional network (cell 19) *)
(* ===================================================================== *)

Module CNN.

(** [nn.Conv1d(_, _, kernel_size)] on an input of the given length (stride
    1, no padding): the output length, [None] when the input is shorter
    than the kernel (torch raises). *)
Definition conv1d (kernel_size length : nat) : option nat :=
  if (length <? kernel_size)%nat then None
  else Some (length - kernel_size + 1)%nat.

(** [nn.MaxPool1d(kernel_size)] (stride equal to the kernel size, no
    padding): the output length, [None] when it would be zero. *)
Definition max_pool1d (kernel_size length : nat) : option nat :=
  if (length <? kernel_size)%nat then None
  else Some ((length - kernel_size) / kernel_size + 1)%nat.

(** The positions left per sample after the three convolutions and
    pools, for an input long enough for every layer. *)
Definition positions (length : nat) : nat :=
  (((((length - 5 + 1 - 5) / 5 + 1 - 5 + 1 - 5) / 5 + 1 - 5 + 1 - 35) / 35) + 1)%nat.

(** The number of rows of [Net.forward]'s result for a batch of [batch]
    sequences of [length] ids: three convolutions of kernel 5 with pools
    of 5, 5 and 35, then [x.view(-1, 128)] on a tensor of shape
    (batch, 128, l), which has [batch * l] rows; the two linear layers keep
    the rows. *)
Definition forward_rows (batch length : nat) : option nat :=
  l ← conv1d 5 length;
  l ← max_pool1d 5 l;
  l ← conv1d 5 l;
  l ← max_pool1d 5 l;
  l ← conv1d 5 l;
  l ← max_pool1d 35 l;
  Some (batch * l)%nat.

End CNN.

(* ===================================================================== *)
(** * Vocabulary of the statements *)
(* ===================================================================== *)

(** The document of the specification's example. *)
Definition example_document : string :=
  "From: x" +:+ String PyStr.LF "Subject: y" +:+ PyStr.blank_line +:+ "Hello world".

(** The row [pad_sequences] builds for one sequence: zeros in front, then
    the last [maxlen] items of the sequence. *)
Definition padded (maxlen : nat) (s : list nat) : list nat :=
  replicate (maxlen - length s) 0%nat ++ drop (length s - maxlen) s.

(** The items of the word index that the loop of cell 17 counts as not
    found: below the cap and without a vector in the embedding table. *)
Definition not_found `{FloatOps} (max_num_words : nat)
           (embeddings_index : gmap string (list float32))
           (item : string * nat) : bool :=
  (snd item <? max_num_words)%nat
  && bool_decide (embeddings_index !! fst item = None).

(** The scores the network gives to the samples of a batch. *)
Definition batch_output `{FloatOps} (net : Net) (batch : list (list nat * nat))
  : list (list float32) :=
  map (forward net) (map fst batch).

(** The predicted classes of a list of samples. *)
Definition predict `{FloatOps} (net : Net) (samples : list (list nat * nat))
  : list nat :=
  map argmax (batch_output net samples).

(** The per-batch losses of a list of batches. *)
Definition batch_losses `{FloatOps} (net : Net)
           (batches : list (list (list nat * nat))) (losses : list float) : Prop :=
  Forall2 (fun batch l =>
             criterion net (batch_output net batch) (map snd batch) = Ok l)
          batches losses.

(** The files of the entry [name] of the corpus root when it is a
    directory, as the outer loop of cell 7 finds them. *)
Definition directory_files (root : list (string * Corpus.entry)) (name : string)
  : option (list (string * string)) :=
  match snd <$> List.find (fun p => String.eqb (fst p) name) root with
  | Some (Corpus.Dir files) => Some files
  | _ => None
  end.

Definition is_directory (root : list (string * Corpus.entry)) (name : string)
  : bool :=
  match directory_files root name with Some _ => true | None => false end.

(** The number of files with a purely numeric name in a class directory. *)
Definition class_size (root : list (string * Corpus.entry)) (name : string) : nat :=
  match directory_files root name with
  | Some files => length (List.filter PyStr.isdigit (map fst files))
  | None => 0
  end.

(** The class directories of the corpus root, in sorted order. *)
Definition class_directories (root : list (string * Corpus.entry)) : list string :=
  List.filter (is_directory root) (PyStr.sorted (map fst root)).

(** The body of the outer loop of cell 7, as in [Corpus.load]. *)
Definition load_step (root : list (string * Corpus.entry)) (st : Corpus.state)
           (name : string) : Corpus.state :=
  match snd <$> List.find (fun p => String.eqb (fst p) name) root with
  | Some (Corpus.Dir files) =>
      let label_id := length (Corpus.labels_index st) in
      Corpus.load_dir label_id files
        {| Corpus.texts := Corpus.texts st;
           Corpus.labels_index := Corpus.labels_index st ++ [(name, label_id)];
           Corpus.labels := Corpus.labels st |}
  | _ => st
  end.

(** The row that [matrix[i] = v] leaves in a matrix whose rows have
    [embedding_dim] cells, when numpy accepts the assignment: [v] itself,
    or the single item of [v] copied to every cell. *)
Definition stored_row {A : Type} (embedding_dim : nat) (v : list A) : list A :=
  match v with
  | [x] => replicate embedding_dim x
  | _ => v
  end.

(** An item of the word index whose vector cannot be stored in a row of the
    embedding matrix: it is below the cap, and its vector has neither the
    embedding dimension nor a single element. *)
Definition unstorable `{FloatOps} (max_num_words embedding_dim : nat)
           (embeddings_index : gmap string (list float32))
           (item : string * nat) : Prop :=
  (snd item < max_num_words)%nat /\
  exists v, embeddings_index !! fst item = Some v /\
            length v <> embedding_dim /\ length v <> 1%nat.

(** The token of a line of the embedding file: its first field, if it has
    one. *)
Definition line_token (line : string) : option string := head (PyStr.split line).

(** The number of times a word occurs in a list of words. *)
Definition occurrences (w : string) (ws : list string) : nat :=
  length (List.filter (String.eqb w) ws).

(** The order of the ranked vocabulary: the later item does not have the
    larger count. *)
Definition by_count_desc (x y : string * nat) : Prop := (snd y <= snd x)%nat.

(** All words of a list of texts, in reading order. *)
Definition corpus_words (texts : list string) : list string :=
  concat (map Keras.text_to_word_sequence texts).

(* ===================================================================== *)
(** * Theorems *)
(* ===================================================================== *)

(** ** Python strings *)

Lemma drop_chars_app (h t : string) :
  PyStr.drop_chars (String.length h) (h +:+ t) = t.
Proof. induction h as [|c h IH]; simpl; [by destruct t|exact IH]. Qed.

Lemma string_length_app (h t : string) :
  String.length (h +:+ t) = (String.length h + String.length t)%nat.
Proof. induction h as [|c h IH]; simpl; [done|by rewrite IH]. Qed.

Lemma prefix_app (sub t : string) :
  String.prefix sub t = true -> exists r, t = sub +:+ r.
Proof.
  revert t. induction sub as [|c sub IH]; intros t.
  - by exists t.
  - destruct t as [|d t]; simpl; [done|].
    destruct (Ascii.ascii_dec c d) as [->|Hne]; [|done].
    intros H. destruct (IH t H) as [r ->]. by exists r.
Qed.

Lemma find_from_nil (sub : string) (i : Z) :
  PyStr.find_from sub EmptyString i
  = if String.prefix sub EmptyString then i else (-1)%Z.
Proof. reflexivity. Qed.

Lemma find_from_cons (sub : string) (c : ascii) (t : string) (i : Z) :
  PyStr.find_from sub (String c t) i
  = if String.prefix sub (String c t) then i
    else PyStr.find_from sub t (i + 1)%Z.
Proof. reflexivity. Qed.

Lemma find_from_range (sub t : string) (i : Z) :
  (i <= PyStr.find_from sub t i)%Z \/ PyStr.find_from sub t i = (-1)%Z.
Proof.
  revert i. induction t as [|c t IH]; intros i.
  - rewrite find_from_nil. destruct (String.prefix _ _); [left; lia|by right].
  - rewrite find_from_cons. destruct (String.prefix _ _); [left; lia|].
    destruct (IH (i + 1)%Z) as [?|?]; [left; lia|by right].
Qed.

(** What a non-negative answer of [find_from] means: the text splits at the
    answer, the pattern starts there, and it starts nowhere before. *)
Lemma find_from_found (sub t : string) (k r : Z) :
  PyStr.find_from sub t k = r -> (0 <= k <= r)%Z ->
  exists h rest,
    t = h +:+ rest /\ Z.of_nat (String.length h) = (r - k)%Z /\
    String.prefix sub rest = true /\
    forall j, (j < String.length h)%nat ->
              String.prefix sub (PyStr.drop_chars j t) = false.
Proof.
  revert k r. induction t as [|c t IH]; intros k r Hf Hk.
  - rewrite find_from_nil in Hf.
    destruct (String.prefix sub EmptyString) eqn:Hp; [|lia].
    exists EmptyString, EmptyString. simpl. repeat split; [lia|done|lia].
  - rewrite find_from_cons in Hf.
    destruct (String.prefix sub (String c t)) eqn:Hp.
    + subst r. exists EmptyString, (String c t). simpl.
      repeat split; [lia|done|lia].
    + assert (Hk' : (k + 1 <= r)%Z).
      { destruct (find_from_range sub t (k + 1)%Z) as [?|?]; lia. }
      destruct (IH _ _ Hf ltac:(lia)) as (h & rest & -> & Hlen & Hpre & Hfirst).
      exists (String c h), rest. simpl. repeat split; [lia|done|].
      intros [|j] Hj; simpl; [done|]. apply Hfirst. lia.
Qed.

(** ** Corpus loader *)

(** C1 (as amended): for a document whose first blank-line separator stands
    after a non-empty header block, header stripping drops exactly the text
    before that separator and keeps the separator itself, so the result
    starts with the blank line; the example document yields the blank-line
    separator followed by "Hello world". *)
Theorem strip_header_drops_header (t : string) (i : Z) :
  PyStr.find t PyStr.blank_line = i -> (0 < i)%Z ->
  (exists header,
      t = header +:+ Corpus.strip_header t /\
      Z.of_nat (String.length header) = i /\
      String.prefix PyStr.blank_line (Corpus.strip_header t) = true /\
      forall j, (j < String.length header)%nat ->
                String.prefix PyStr.blank_line (PyStr.drop_chars j t) = false) /\
  Corpus.strip_header example_document = PyStr.blank_line +:+ "Hello world".
Proof.
  intros Hf Hi. split; [|reflexivity].
  destruct (find_from_found _ _ _ _ Hf ltac:(lia))
    as (h & rest & Ht & Hlen & Hpre & Hfirst).
  assert (Hs : Corpus.strip_header t = rest).
  { unfold Corpus.strip_header. rewrite Hf.
    destruct (Z.ltb_spec 0 i) as [_|]; [|lia].
    unfold PyStr.slice_from. destruct (Z.ltb_spec i 0) as [|_]; [lia|].
    rewrite Ht, string_length_app.
    replace (Z.to_nat _) with (String.length h) by lia.
    apply drop_chars_app. }
  exists h. rewrite Hs. repeat split; [done|lia|done|done].
Qed.

Lemma strip_header_drops_header_witness :
  PyStr.find example_document PyStr.blank_line = 18%Z /\ (0 < 18)%Z /\
  (exists header,
      example_document = header +:+ Corpus.strip_header example_document /\
      Z.of_nat (String.length header) = 18%Z /\
      String.prefix PyStr.blank_line (Corpus.strip_header example_document)
      = true /\
      forall j, (j < String.length header)%nat ->
                String.prefix PyStr.blank_line
                              (PyStr.drop_chars j example_document) = false) /\
  Corpus.strip_header example_document = PyStr.blank_line +:+ "Hello world".
Proof.
  split; [reflexivity|]. split; [reflexivity|].
  apply (strip_header_drops_header example_document 18); reflexivity.
Defined.

(** C1, the claim as written, fails: the example document does not yield
    exactly "Hello world"; the two line feeds of the separator are kept. *)
Lemma strip_header_example_keeps_separator :
  Corpus.strip_header example_document <> "Hello world"%string /\
  Corpus.strip_header example_document =
    String PyStr.LF (String PyStr.LF "Hello world").
Proof. split; [discriminate|reflexivity]. Qed.

(** C10: when the text begins with the blank-line separator (its first
    occurrence is at index 0), no stripping happens and the text is kept
    unchanged. *)
Theorem strip_header_separator_at_start (t : string) :
  PyStr.find t PyStr.blank_line = 0%Z -> Corpus.strip_header t = t.
Proof. intros Hf. unfold Corpus.strip_header. by rewrite Hf. Qed.

Lemma strip_header_separator_at_start_witness :
  PyStr.find (PyStr.blank_line +:+ "Hello world") PyStr.blank_line = 0%Z /\
  Corpus.strip_header (PyStr.blank_line +:+ "Hello world")
  = PyStr.blank_line +:+ "Hello world".
Proof.
  split; [reflexivity|].
  apply (strip_header_separator_at_start (PyStr.blank_line +:+ "Hello world")).
  reflexivity.
Defined.

(** ** Embedding loader *)

Lemma for_each_app {A S : Type} (body : S -> A -> result S) (l1 l2 : list A)
      (st : S) :
  for_each body (l1 ++ l2) st = do st' <- for_each body l1 st; for_each body l2 st'.
Proof.
  revert st. induction l1 as [|x l1 IH]; intros st; simpl; [done|].
  destruct (body st x); simpl; [apply IH|done].
Qed.

(** C3 (as amended): the loader aborts on a line without any field
    ([IndexError]) and on a line with a vector field that is not a float
    ([ValueError]), and such a failure aborts the whole load; the number of
    vector fields is never checked, so any line whose vector fields all
    convert is stored under its token with exactly as many coefficients as
    the line has vector fields. *)
Theorem load_line_outcome `{FloatOps}
        (embeddings_index : gmap string (list float32)) (line : string) :
  (PyStr.split line = [] ->
   Embeddings.load_line embeddings_index line = Raise IndexError) /\
  (forall word fields, PyStr.split line = word :: fields ->
     (Exists (fun f => parse_float32 f = None) fields ->
      Embeddings.load_line embeddings_index line = Raise ValueError) /\
     (forall coefs,
        Forall2 (fun f c => parse_float32 f = Some c) fields coefs ->
        Embeddings.load_line embeddings_index line
        = Ok (<[word := coefs]> embeddings_index) /\
        length coefs = length fields)) /\
  (forall before after st e,
     for_each Embeddings.load_line before ∅ = Ok st ->
     Embeddings.load_line st line = Raise e ->
     Embeddings.load (before ++ line :: after) = Raise e).
Proof.
  split; [|split].
  - unfold Embeddings.load_line. by intros ->.
  - unfold Embeddings.load_line, Embeddings.asarray_float32.
    intros word fields ->. split.
    + intros Hex. destruct (mapM parse_float32 fields) as [coefs|] eqn:Hm; [|done].
      apply mapM_Some in Hm. apply Exists_exists in Hex as (f & Hin & Hf).
      apply list_elem_of_lookup in Hin as [i Hi].
      destruct (Forall2_lookup_l _ _ _ _ _ Hm Hi) as (c & _ & Hc). congruence.
    + intros coefs Hall. split.
      * apply mapM_Some in Hall. by rewrite Hall.
      * symmetry. by eapply Forall2_length.
  - intros before after st e Hst Hline. unfold Embeddings.load.
    rewrite for_each_app, Hst. simpl. by rewrite Hline.
Qed.

(** C3, the claim as written, fails: a line that consists of a token only
    has the wrong field count (1 instead of 1 + 100), yet the load succeeds
    and stores the token with an empty vector. *)
Lemma load_stores_token_only_line :
  length (PyStr.split "cat") = 1%nat /\
  forall F : FloatOps,
    Embeddings.load ["cat"%string] = Ok (<["cat"%string := []]> ∅).
Proof. split; [reflexivity|]. intros F. reflexivity. Qed.

(** The table of the specification's example line, a line with a field that
    is not a float, a blank line, and a line with too few vector fields,
    run on the exact instance. *)
Example load_examples :
  @Embeddings.load Instances.Q_floats ["cat 0.1 0.2 0.3"%string]
  = Ok (<["cat"%string := [1 # 10; 2 # 10; 3 # 10]%Q]> ∅) /\
  @Embeddings.load Instances.Q_floats ["cat 0.1 0.2 0.3"; "dog 0.5 x"]%string
  = Raise ValueError /\
  @Embeddings.load Instances.Q_floats ["cat 0.1 0.2 0.3"; " "]%string
  = Raise IndexError /\
  @Embeddings.load Instances.Q_floats ["cat 0.1 0.2 0.3"; "dog 0.5"]%string
  = Ok (<["dog"%string := [5 # 10]%Q]>
          (<["cat"%string := [1 # 10; 2 # 10; 3 # 10]%Q]> ∅)).
Proof. repeat split; vm_compute; reflexivity. Qed.

(** ** Padding *)

Lemma slice_last_length (maxlen : nat) (s : list nat) :
  (0 < maxlen)%nat ->
  Keras.slice_last maxlen s = drop (length s - maxlen) s /\
  length (Keras.slice_last maxlen s) = length s `min` maxlen.
Proof.
  intros Hpos. unfold Keras.slice_last.
  destruct (Nat.eqb_spec maxlen 0) as [|_]; [lia|].
  split; [done|]. rewrite length_drop. lia.
Qed.

Lemma pad_row_ok (maxlen : nat) (s : list nat) :
  (0 < maxlen)%nat -> Keras.pad_row maxlen s = Ok (padded maxlen s).
Proof.
  intros Hpos. unfold Keras.pad_row, padded.
  destruct s as [|x s]; [by rewrite Nat.sub_0_r, app_nil_r|].
  destruct (slice_last_length maxlen (x :: s) Hpos) as [Hs Hl].
  remember (x :: s) as s' eqn:Es. clear Es.
  unfold Keras.assign_tail. rewrite length_replicate, Hl.
  replace (maxlen `min` (length s' `min` maxlen)) with (length s' `min` maxlen) by lia.
  rewrite Nat.eqb_refl, take_replicate, Hs. do 3 f_equal. lia.
Qed.

Lemma padded_length (maxlen : nat) (s : list nat) :
  length (padded maxlen s) = maxlen.
Proof. unfold padded. rewrite length_app, length_replicate, length_drop. lia. Qed.

Lemma pad_sequences_ok (maxlen : nat) (sequences : list (list nat)) :
  (0 < maxlen)%nat ->
  Keras.pad_sequences sequences maxlen = Ok (map (padded maxlen) sequences).
Proof.
  intros Hpos. unfold Keras.pad_sequences.
  enough (Hgen : forall rows,
             for_each (fun rows s => do row <- Keras.pad_row maxlen s;
                                     Ok (rows ++ [row])) sequences rows
             = Ok (rows ++ map (padded maxlen) sequences)) by apply Hgen.
  induction sequences as [|s sequences IH]; intros rows; simpl.
  - by rewrite app_nil_r.
  - rewrite pad_row_ok by done. simpl. rewrite IH, <- app_assoc. done.
Qed.

(** C4: with a positive [maxlen], [pad_sequences] returns one row per
    sequence, every row has length exactly [maxlen], a sequence at least
    that long is cut to its trailing [maxlen] ids and a shorter one gets
    zeros in front; with [maxlen = 5], [1..7] becomes [3..7] and [1;2]
    becomes [0;0;0;1;2]. *)
Theorem pad_sequences_exact_length (maxlen : nat) (sequences : list (list nat)) :
  (0 < maxlen)%nat ->
  (exists data,
      Keras.pad_sequences sequences maxlen = Ok data /\
      length data = length sequences /\
      Forall (fun row => length row = maxlen) data /\
      forall i s, sequences !! i = Some s ->
        exists row, data !! i = Some row /\
          ((maxlen <= length s)%nat -> row = drop (length s - maxlen) s) /\
          ((length s <= maxlen)%nat ->
           row = replicate (maxlen - length s) 0%nat ++ s)) /\
  Keras.pad_sequences [[1; 2; 3; 4; 5; 6; 7]; [1; 2]] 5
  = Ok [[3; 4; 5; 6; 7]; [0; 0; 0; 1; 2]]%nat.
Proof.
  intros Hpos. split; [|reflexivity].
  exists (map (padded maxlen) sequences). split; [by apply pad_sequences_ok|].
  split; [by rewrite length_map|]. split.
  - apply Forall_forall. intros row Hin.
    apply list_elem_of_fmap in Hin as (s & -> & _).
    apply padded_length.
  - intros i s Hi. exists (padded maxlen s). split.
    + by rewrite list_lookup_fmap, Hi.
    + unfold padded. split; intros Hlen.
      * by replace (maxlen - length s)%nat with 0%nat by lia.
      * replace (length s - maxlen)%nat with 0%nat by lia. by rewrite drop_0.
Qed.

Lemma pad_sequences_exact_length_witness :
  (0 < 5)%nat /\
  Keras.pad_sequences [[1; 2; 3; 4; 5; 6; 7]; [1; 2]] 5
  = Ok [[3; 4; 5; 6; 7]; [0; 0; 0; 1; 2]]%nat.
Proof.
  split; [lia|].
  apply (pad_sequences_exact_length 5 [[1; 2; 3; 4; 5; 6; 7]; [1; 2]]%nat). lia.
Defined.

(** ** Tokenizer *)

Lemma get_zip_seq (voc : list string) (a n : nat) (w : string) (i : nat) :
  Keras.get (zip voc (seq a n)) w = Some i -> (a <= i < a + n)%nat.
Proof.
  revert a n. induction voc as [|k voc IH]; intros a n; simpl; [done|].
  destruct n as [|n]; simpl; [done|].
  destruct (String.eqb k w).
  - intros [= <-]. lia.
  - intros Hg. apply IH in Hg. lia.
Qed.

(** Every index handed out by [fit_on_texts] is at least 1. *)
Lemma fit_on_texts_index_positive (tok : Keras.Tokenizer) (texts : list string)
      (w : string) (i : nat) :
  Keras.get (Keras.word_index (Keras.fit_on_texts tok texts)) w = Some i ->
  (1 <= i)%nat.
Proof. simpl. intros Hg. apply get_zip_seq in Hg. lia. Qed.

Lemma text_to_sequence_range (tok : Keras.Tokenizer) (nw : nat) (text : string) :
  (0 < nw)%nat -> Keras.num_words tok = Some nw ->
  (forall w i, Keras.get (Keras.word_index tok) w = Some i -> (1 <= i)%nat) ->
  Forall (fun id => (1 <= id < nw)%nat) (Keras.text_to_sequence tok text).
Proof.
  intros Hpos Hnw Hidx. unfold Keras.text_to_sequence. rewrite Hnw.
  induction (Keras.text_to_word_sequence text) as [|w ws IH].
  - constructor.
  - cbn [List.flat_map]. apply Forall_app. split; [|exact IH].
    destruct (Keras.get (Keras.word_index tok) w) as [i|] eqn:Hg;
      [|constructor].
    apply Hidx in Hg. unfold Keras.beyond_cap.
    destruct nw as [|nw]; [lia|].
    destruct (Nat.leb_spec (S nw) i); [constructor|].
    constructor; [lia|constructor].
Qed.

Lemma padded_Forall (P : nat -> Prop) (maxlen : nat) (s : list nat) :
  P 0%nat -> Forall P s -> Forall P (padded maxlen s).
Proof.
  intros H0 Hs. unfold padded. apply Forall_app. split.
  - by apply Forall_replicate.
  - by apply Forall_drop.
Qed.

(** C5: with a positive vocabulary cap and a positive sequence length, the
    vectorizer succeeds and every id of every encoded row lies in
    [0, max_vocab): the ids produced by the encoding proper lie in
    [1, max_vocab), words ranked at or beyond the cap being left out, and
    the only other id is the padding value 0. *)
Theorem encoded_ids_below_cap (max_vocab max_length : nat) (texts : list string) :
  (0 < max_vocab)%nat -> (0 < max_length)%nat ->
  exists tokenizer data,
    vectorize max_vocab max_length texts = Ok (tokenizer, data) /\
    Forall (Forall (fun id => (0 <= id < max_vocab)%nat)) data /\
    Forall (Forall (fun id => (1 <= id < max_vocab)%nat))
           (Keras.texts_to_sequences tokenizer texts) /\
    (forall w i text,
        Keras.get (Keras.word_index tokenizer) w = Some i ->
        (max_vocab <= i)%nat -> i ∉ Keras.text_to_sequence tokenizer text) /\
    data = map (padded max_length) (Keras.texts_to_sequences tokenizer texts).
Proof.
  intros Hv Hl. unfold vectorize.
  set (tok := Keras.fit_on_texts _ texts).
  assert (Hseq : forall text,
             Forall (fun id => (1 <= id < max_vocab)%nat)
                    (Keras.text_to_sequence tok text)).
  { intros text. apply text_to_sequence_range; [done|done|].
    intros w i. apply fit_on_texts_index_positive. }
  exists tok, (map (padded max_length) (Keras.texts_to_sequences tok texts)).
  rewrite pad_sequences_ok by done. simpl.
  split; [done|]. split; [|split; [|split; [|done]]].
  - apply Forall_fmap, Forall_fmap, Forall_forall. intros text _. simpl.
    apply padded_Forall; [lia|].
    eapply Forall_impl; [apply Hseq|]. simpl. intros; lia.
  - apply Forall_fmap, Forall_forall. intros text _. apply Hseq.
  - intros w i text _ Hi Hin.
    pose proof (Hseq text) as Hall. rewrite Forall_forall in Hall.
    specialize (Hall _ Hin). lia.
Qed.

Lemma encoded_ids_below_cap_witness :
  (0 < 3)%nat /\ (0 < 5)%nat /\
  exists tokenizer data,
    vectorize 3 5 ["b a a c"; "c d"; ""]%string = Ok (tokenizer, data) /\
    Forall (Forall (fun id => (0 <= id < 3)%nat)) data /\
    Forall (Forall (fun id => (1 <= id < 3)%nat))
           (Keras.texts_to_sequences tokenizer ["b a a c"; "c d"; ""]%string) /\
    (forall w i text,
        Keras.get (Keras.word_index tokenizer) w = Some i ->
        (3 <= i)%nat -> i ∉ Keras.text_to_sequence tokenizer text) /\
    data = map (padded 5)
               (Keras.texts_to_sequences tokenizer ["b a a c"; "c d"; ""]%string).
Proof.
  split; [lia|]. split; [lia|].
  apply (encoded_ids_below_cap 3 5 ["b a a c"; "c d"; ""]%string); lia.
Defined.

(** The encoding of the witness corpus, computed: "b" is ranked third and is
    left out under a cap of 3, "d" is ranked fourth. *)
Example vectorize_example :
  snd <$> (match vectorize 3 5 ["b a a c"; "c d"; ""]%string with
           | Ok r => Some r | Raise _ => None end)
  = Some [[0; 0; 1; 1; 2]; [0; 0; 0; 0; 2]; [0; 0; 0; 0; 0]]%nat.
Proof. reflexivity. Qed.

(** ** Dataset splitter *)

Lemma validate_shuffle_split_ok (n_samples test_size : nat) :
  (0 < test_size < n_samples)%nat ->
  Sklearn.validate_shuffle_split n_samples test_size
  = Ok ((n_samples - test_size)%nat, test_size).
Proof.
  intros Hr. unfold Sklearn.validate_shuffle_split.
  destruct (Nat.leb_spec n_samples test_size); [lia|].
  destruct (Nat.eqb_spec test_size 0); [lia|]. simpl.
  destruct (Nat.eqb_spec (n_samples - test_size) 0); [lia|done].
Qed.

Lemma validate_shuffle_split_small (n_samples test_size : nat) :
  (n_samples <= test_size)%nat ->
  Sklearn.validate_shuffle_split n_samples test_size = Raise ValueError.
Proof.
  intros Hr. unfold Sklearn.validate_shuffle_split.
  by destruct (Nat.leb_spec n_samples test_size); [|lia].
Qed.

Lemma validate_shuffle_split_inv (n_samples test_size : nat) (r : nat * nat) :
  Sklearn.validate_shuffle_split n_samples test_size = Ok r ->
  (0 < test_size < n_samples)%nat /\ r = ((n_samples - test_size)%nat, test_size).
Proof.
  unfold Sklearn.validate_shuffle_split.
  destruct (Nat.leb_spec n_samples test_size); [done|].
  destruct (Nat.eqb_spec test_size 0); [done|]. simpl.
  destruct (Nat.eqb_spec (n_samples - test_size) 0); [done|].
  intros [= <-]. split; [lia|done].
Qed.

(** Indexing by a list of positions succeeds exactly when it yields, item
    by item, what stands at those positions. *)
Lemma safe_indexing_Ok {A : Type} (a : list A) (idx : list nat) (r : list A) :
  Sklearn.safe_indexing a idx = Ok r <->
  Forall2 (fun i x => a !! i = Some x) idx r.
Proof.
  unfold Sklearn.safe_indexing. rewrite <- mapM_Some.
  destruct (mapM _ idx); split; intros Heq; by simplify_eq.
Qed.

Lemma safe_indexing_in_range {A : Type} (a : list A) (idx : list nat) :
  Forall (fun i => (i < length a)%nat) idx ->
  exists r, Sklearn.safe_indexing a idx = Ok r.
Proof.
  intros Hall.
  assert (Hs : is_Some (mapM (fun i => a !! i) idx)).
  { apply mapM_is_Some. eapply Forall_impl; [exact Hall|].
    intros i Hi. by apply lookup_lt_is_Some. }
  destruct Hs as [r Hr]. exists r. unfold Sklearn.safe_indexing. by rewrite Hr.
Qed.

Lemma safe_indexing_seq {A : Type} (a : list A) (start n : nat) :
  (start + n <= length a)%nat ->
  Sklearn.safe_indexing a (seq start n) = Ok (take n (drop start a)).
Proof.
  intros Hle. apply safe_indexing_Ok.
  revert start Hle. induction n as [|n IH]; intros start Hle; simpl.
  - constructor.
  - destruct (lookup_lt_is_Some_2 a start ltac:(lia)) as [x Hx].
    rewrite (drop_S _ _ _ Hx). simpl. constructor; [done|].
    apply IH. lia.
Qed.

Section Splitter.
Context `{Sklearn.RandomState} {A B : Type}.
Implicit Types (X : list A) (y : list B).

Lemma permutation_length (g : Sklearn.rng_state) (n : nat) :
  length (Sklearn.permutation g n) = n.
Proof.
  rewrite (Permutation_length (Sklearn.permutation_perm g n)).
  apply length_seq.
Qed.

Lemma permutation_in_range (g : Sklearn.rng_state) (n : nat) :
  Forall (fun i => (i < n)%nat) (Sklearn.permutation g n).
Proof.
  apply Forall_forall. intros i Hi.
  rewrite (Sklearn.permutation_perm g n) in Hi.
  apply elem_of_seq in Hi. lia.
Qed.

(** The shuffled split: the first [test_size] positions of the seeded
    permutation select the test set, the remaining ones the training
    set. *)
Lemma train_test_split_shuffled ambient X y test_size seed :
  length X = length y -> (0 < test_size < length X)%nat ->
  let perm := Sklearn.permutation (Sklearn.seeded seed) (length X) in
  exists xtr xte ytr yte,
    Sklearn.train_test_split ambient X y test_size true (Some seed)
    = Ok (xtr, xte, ytr, yte) /\
    Forall2 (fun i x => X !! i = Some x) (drop test_size perm) xtr /\
    Forall2 (fun i x => X !! i = Some x) (take test_size perm) xte /\
    Forall2 (fun i l => y !! i = Some l) (drop test_size perm) ytr /\
    Forall2 (fun i l => y !! i = Some l) (take test_size perm) yte.
Proof.
  intros Hlen Hts perm.
  pose proof (permutation_length (Sklearn.seeded seed) (length X)) as Hpl.
  pose proof (permutation_in_range (Sklearn.seeded seed) (length X)) as Hpr.
  fold perm in Hpl, Hpr.
  assert (Htrain : take (length X - test_size) (drop test_size perm)
                   = drop test_size perm).
  { apply take_ge. rewrite length_drop. lia. }
  destruct (safe_indexing_in_range X (drop test_size perm)) as [xtr Hxtr];
    [by apply Forall_drop|].
  destruct (safe_indexing_in_range X (take test_size perm)) as [xte Hxte];
    [by apply Forall_take|].
  destruct (safe_indexing_in_range y (drop test_size perm)) as [ytr Hytr];
    [rewrite <- Hlen; by apply Forall_drop|].
  destruct (safe_indexing_in_range y (take test_size perm)) as [yte Hyte];
    [rewrite <- Hlen; by apply Forall_take|].
  exists xtr, xte, ytr, yte. split.
  - unfold Sklearn.train_test_split, Sklearn.split_indices.
    rewrite Hlen, Nat.eqb_refl. simpl. rewrite <- Hlen.
    rewrite validate_shuffle_split_ok by done. simpl.
    fold perm. rewrite Htrain, Hxtr, Hxte. simpl. by rewrite Hytr, Hyte.
  - by rewrite <- !safe_indexing_Ok.
Qed.

(** The split without shuffling: the tail of [test_size] items is the
    test set, everything before it the training set. *)
Lemma train_test_split_unshuffled ambient X y test_size random_state :
  length X = length y -> (0 < test_size < length X)%nat ->
  Sklearn.train_test_split ambient X y test_size false random_state
  = Ok (take (length X - test_size) X, drop (length X - test_size) X,
        take (length X - test_size) y, drop (length X - test_size) y).
Proof.
  intros Hlen Hts.
  unfold Sklearn.train_test_split, Sklearn.split_indices.
  rewrite Hlen, Nat.eqb_refl. simpl. rewrite <- Hlen.
  rewrite validate_shuffle_split_ok by done. simpl.
  rewrite !safe_indexing_seq by lia. simpl.
  rewrite !drop_0.
  rewrite (take_ge (drop _ X)) by (rewrite length_drop; lia).
  by rewrite (take_ge (drop _ y)) by (rewrite length_drop; lia).
Qed.

(** A split that succeeds was given arrays of equal length and a test
    size that is positive and smaller than the number of samples. *)
Lemma train_test_split_inv ambient X y test_size shuffle random_state r :
  Sklearn.train_test_split ambient X y test_size shuffle random_state = Ok r ->
  length X = length y /\ (0 < test_size < length X)%nat.
Proof.
  unfold Sklearn.train_test_split, Sklearn.split_indices.
  destruct (Nat.eqb_spec (length X) (length y)) as [Hlen|]; [|done]. simpl.
  destruct (Sklearn.validate_shuffle_split _ _) as [p|] eqn:Hv; [|done].
  apply validate_shuffle_split_inv in Hv as [Hr _]. done.
Qed.

Lemma train_test_split_small ambient X y test_size shuffle random_state :
  (length X <= test_size)%nat ->
  exists e,
    Sklearn.train_test_split ambient X y test_size shuffle random_state
    = Raise e.
Proof.
  intros Hsmall.
  destruct (Sklearn.train_test_split ambient X y test_size shuffle random_state)
    as [r|e] eqn:Hs; [|by exists e].
  apply train_test_split_inv in Hs. lia.
Qed.

(** What cell 13 returns when both splits go through, in terms of the
    seeded permutation [perm] of the positions: the test set is read at
    the first [test_set] positions of [perm]; the rest of [perm], in that
    order, is cut into the training set and a tail of [validation_set]
    items, the validation set. *)
Lemma split_dataset_spec ambient validation_set test_set X y :
  length X = length y ->
  (0 < validation_set)%nat -> (0 < test_set)%nat ->
  (validation_set + test_set < length X)%nat ->
  let perm := Sklearn.permutation (Sklearn.seeded 42) (length X) in
  let rest := drop test_set perm in
  let n_train := (length X - test_set - validation_set)%nat in
  exists s x_train1 y_train1,
    split_dataset ambient validation_set test_set X y = Ok s /\
    Sklearn.train_test_split ambient X y test_set true (Some 42%nat)
    = Ok (x_train1, x_test s, y_train1, y_test s) /\
    length x_train1 = (length X - test_set)%nat /\
    length y_train1 = (length X - test_set)%nat /\
    x_train s = take n_train x_train1 /\ x_val s = drop n_train x_train1 /\
    y_train s = take n_train y_train1 /\ y_val s = drop n_train y_train1 /\
    Forall2 (fun i x => X !! i = Some x) (take n_train rest) (x_train s) /\
    Forall2 (fun i x => X !! i = Some x) (drop n_train rest) (x_val s) /\
    Forall2 (fun i x => X !! i = Some x) (take test_set perm) (x_test s) /\
    Forall2 (fun i l => y !! i = Some l) (take n_train rest) (y_train s) /\
    Forall2 (fun i l => y !! i = Some l) (drop n_train rest) (y_val s) /\
    Forall2 (fun i l => y !! i = Some l) (take test_set perm) (y_test s).
Proof.
  intros Hlen Hv Ht Hn perm rest n_train.
  destruct (train_test_split_shuffled ambient X y test_set 42 Hlen ltac:(lia))
    as (xtr & xte & ytr & yte & Hs1 & Hxtr & Hxte & Hytr & Hyte).
  fold perm in Hxtr, Hxte, Hytr, Hyte. fold rest in Hxtr, Hytr.
  pose proof (permutation_length (Sklearn.seeded 42) (length X)) as Hpl.
  fold perm in Hpl.
  assert (Hrest : length rest = (length X - test_set)%nat).
  { unfold rest. rewrite length_drop. lia. }
  assert (Hlx : length xtr = (length X - test_set)%nat).
  { by rewrite <- (Forall2_length _ _ _ Hxtr). }
  assert (Hly : length ytr = (length X - test_set)%nat).
  { by rewrite <- (Forall2_length _ _ _ Hytr). }
  pose proof (train_test_split_unshuffled ambient xtr ytr validation_set None
                ltac:(lia) ltac:(lia)) as Hs2.
  rewrite Hlx in Hs2. fold n_train in Hs2.
  exists {| x_train := take n_train xtr; y_train := take n_train ytr;
            x_val := drop n_train xtr; y_val := drop n_train ytr;
            x_test := xte; y_test := yte |}, xtr, ytr.
  simpl. split.
  { unfold split_dataset. rewrite Hs1. simpl. by rewrite Hs2. }
  repeat split; try done;
    first [by apply Forall2_take | by apply Forall2_drop].
Qed.

End Splitter.

(** C7 (as amended): for every dataset with as many labels as documents and
    more than [validation_set + test_set] documents, the splitter returns
    train, validation and test sets read at three lists of positions that
    together rearrange the positions of the dataset, so no document is in two
    of the sets and the three counts add up to the number of documents; on a
    dataset with no more than [validation_set + test_set] documents the
    splitter raises and returns no split. *)
Theorem split_dataset_partitions `{Sklearn.RandomState} {A B : Type}
        (ambient : Sklearn.rng_state) (validation_set test_set : nat)
        (data : list A) (labels : list B) :
  length data = length labels ->
  (0 < validation_set)%nat -> (0 < test_set)%nat ->
  ((validation_set + test_set < length data)%nat ->
   exists s train val test,
     split_dataset ambient validation_set test_set data labels = Ok s /\
     train ++ val ++ test ≡ₚ seq 0 (length data) /\
     NoDup (train ++ val ++ test) /\
     Forall2 (fun i x => data !! i = Some x) train (x_train s) /\
     Forall2 (fun i x => data !! i = Some x) val (x_val s) /\
     Forall2 (fun i x => data !! i = Some x) test (x_test s) /\
     Forall2 (fun i l => labels !! i = Some l) train (y_train s) /\
     Forall2 (fun i l => labels !! i = Some l) val (y_val s) /\
     Forall2 (fun i l => labels !! i = Some l) test (y_test s) /\
     (length (x_train s) + length (x_val s) + length (x_test s))%nat
     = length data /\
     length (x_val s) = validation_set /\ length (x_test s) = test_set) /\
  ((length data <= validation_set + test_set)%nat ->
   exists e, split_dataset ambient validation_set test_set data labels = Raise e).
Proof.
  intros Hlen Hv Ht. split; intros Hn.
  - destruct (split_dataset_spec ambient validation_set test_set data labels
                Hlen Hv Ht Hn)
      as (s & xtr & ytr & Hs & _ & Hlx & _ & _ & _ & _ & _
          & Hxt & Hxv & Hxe & Hyt & Hyv & Hye).
    set (perm := Sklearn.permutation (Sklearn.seeded 42) (length data)) in *.
    set (rest := drop test_set perm) in *.
    set (n_train := (length data - test_set - validation_set)%nat) in *.
    assert (Hperm : take n_train rest ++ drop n_train rest ++ take test_set perm
                    ≡ₚ seq 0 (length data)).
    { rewrite app_assoc, take_drop. unfold rest.
      rewrite (Permutation_app_comm (drop _ _)), take_drop.
      apply Sklearn.permutation_perm. }
    pose proof (permutation_length (Sklearn.seeded 42) (length data)) as Hpl.
    fold perm in Hpl.
    exists s, (take n_train rest), (drop n_train rest), (take test_set perm).
    split; [done|]. split; [done|]. split.
    { rewrite Hperm. apply NoDup_seq. }
    do 6 (split; [done|]).
    rewrite <- (Forall2_length _ _ _ Hxt), <- (Forall2_length _ _ _ Hxv),
      <- (Forall2_length _ _ _ Hxe).
    unfold rest. rewrite length_take, !length_drop, length_take. lia.
  - unfold split_dataset.
    destruct (Nat.le_gt_cases (length data) test_set) as [Hsmall|Hbig].
    + destruct (train_test_split_small ambient data labels test_set true
                  (Some 42%nat) Hsmall) as [e ->].
      by exists e.
    + destruct (train_test_split_shuffled ambient data labels test_set 42 Hlen
                  ltac:(lia))
        as (xtr & xte & ytr & yte & -> & Hxtr & _).
      cbn [rbind].
      apply Forall2_length in Hxtr.
      rewrite length_drop, permutation_length in Hxtr.
      destruct (train_test_split_small ambient xtr ytr validation_set false None
                  ltac:(lia)) as [e ->].
      by exists e.
Qed.

Lemma split_dataset_partitions_witness :
  let data := ["d0"; "d1"; "d2"; "d3"; "d4"]%string in
  let labels := [0; 0; 1; 1; 2]%nat in
  (exists s train val test,
      @split_dataset Instances.reversing _ _ 7%nat 1%nat 2%nat data labels
      = Ok s /\
      train ++ val ++ test ≡ₚ seq 0 5 /\
      NoDup (train ++ val ++ test) /\
      Forall2 (fun i x => data !! i = Some x) train (x_train s) /\
      Forall2 (fun i x => data !! i = Some x) val (x_val s) /\
      Forall2 (fun i x => data !! i = Some x) test (x_test s) /\
      Forall2 (fun i l => labels !! i = Some l) train (y_train s) /\
      Forall2 (fun i l => labels !! i = Some l) val (y_val s) /\
      Forall2 (fun i l => labels !! i = Some l) test (y_test s) /\
      (length (x_train s) + length (x_val s) + length (x_test s))%nat = 5%nat /\
      length (x_val s) = 1%nat /\ length (x_test s) = 2%nat) /\
  (exists e,
      @split_dataset Instances.reversing _ _ 7%nat 2%nat 3%nat data labels
      = Raise e).
Proof.
  intros data labels. split.
  - apply (@split_dataset_partitions Instances.reversing _ _ 7%nat 1%nat 2%nat
             data labels eq_refl); simpl; lia.
  - apply (@split_dataset_partitions Instances.reversing _ _ 7%nat 2%nat 3%nat
             data labels eq_refl); simpl; lia.
Defined.

(** The split of the witness, computed: the reversed positions are
    [4;3;2;1;0]; the first two give the test set, the last of the remaining
    three the validation set. *)
Example split_dataset_example :
  @split_dataset Instances.reversing _ _ 7%nat 1%nat 2%nat
    ["d0"; "d1"; "d2"; "d3"; "d4"]%string [0; 0; 1; 1; 2]%nat
  = Ok {| x_train := ["d2"; "d1"]%string; y_train := [1; 0]%nat;
          x_val := ["d0"]%string; y_val := [0]%nat;
          x_test := ["d4"; "d3"]%string; y_test := [2; 1]%nat |}.
Proof. reflexivity. Qed.

(** C7, the claim as written, fails: on a dataset of three documents the
    notebook's splitter raises (the test size 4000 is not smaller than the
    number of samples) and returns no split at all. *)
Lemma split_dataset_small_dataset_raises :
  (forall (R : Sklearn.RandomState) (ambient : Sklearn.rng_state),
      split_dataset ambient VALIDATION_SET TEST_SET
                    ["d0"; "d1"; "d2"]%string [0; 1; 2]%nat
      = Raise ValueError) /\
  length ["d0"; "d1"; "d2"]%string = 3%nat.
Proof. split; [|reflexivity]. intros R ambient. reflexivity. Qed.

(** The ambient generator is not read by a split that is seeded, nor by one
    that does not shuffle. *)
Lemma train_test_split_ambient `{Sklearn.RandomState} {A B : Type}
      (ambient ambient' : Sklearn.rng_state) (X : list A) (y : list B)
      (test_size : nat) (shuffle : bool) (random_state : option nat) :
  shuffle = false \/ is_Some random_state ->
  Sklearn.train_test_split ambient X y test_size shuffle random_state
  = Sklearn.train_test_split ambient' X y test_size shuffle random_state.
Proof. by intros [->|[seed ->]]; [|destruct shuffle]. Qed.

(** C8: the splitter's result does not depend on the ambient random
    generator, so two runs on the same input with the same seed return the
    same partitions; when it returns, the test set is read at the first
    [test_set] positions of the permutation drawn from the generator seeded
    with 42, and the validation set is the contiguous tail of
    [validation_set] items of the remaining training data, in their order,
    the training set being everything before that tail. *)
Theorem split_dataset_deterministic `{Sklearn.RandomState} {A B : Type}
        (ambient ambient' : Sklearn.rng_state) (validation_set test_set : nat)
        (data : list A) (labels : list B) :
  split_dataset ambient validation_set test_set data labels
  = split_dataset ambient' validation_set test_set data labels /\
  forall s,
    split_dataset ambient validation_set test_set data labels = Ok s ->
    let perm := Sklearn.permutation (Sklearn.seeded 42) (length data) in
    exists x_train1 y_train1,
      Sklearn.train_test_split ambient data labels test_set true (Some 42%nat)
      = Ok (x_train1, x_test s, y_train1, y_test s) /\
      Forall2 (fun i x => data !! i = Some x) (take test_set perm) (x_test s) /\
      Forall2 (fun i l => labels !! i = Some l) (take test_set perm) (y_test s) /\
      Forall2 (fun i x => data !! i = Some x) (drop test_set perm) x_train1 /\
      Forall2 (fun i l => labels !! i = Some l) (drop test_set perm) y_train1 /\
      x_train s ++ x_val s = x_train1 /\ y_train s ++ y_val s = y_train1 /\
      x_val s = drop (length x_train1 - validation_set) x_train1 /\
      y_val s = drop (length y_train1 - validation_set) y_train1 /\
      length (x_val s) = validation_set /\ length (y_val s) = validation_set.
Proof.
  split.
  { unfold split_dataset.
    rewrite (train_test_split_ambient ambient ambient') by (right; eauto).
    destruct (Sklearn.train_test_split ambient' _ _ _ _ _)
      as [[[[xtr xte] ytr] yte]|]; simpl; [|done].
    by rewrite (train_test_split_ambient ambient ambient') by (left; eauto). }
  intros s Hs perm.
  assert (Hpre : length data = length labels /\ (0 < validation_set)%nat /\
                 (0 < test_set)%nat /\
                 (validation_set + test_set < length data)%nat).
  { unfold split_dataset in Hs.
    destruct (Sklearn.train_test_split ambient data labels _ _ _)
      as [[[[xtr xte] ytr] yte]|] eqn:H1; simpl in Hs; [|done].
    destruct (Sklearn.train_test_split ambient xtr ytr _ _ _)
      as [r|] eqn:H2; simpl in Hs; [|done].
    pose proof (train_test_split_inv _ _ _ _ _ _ _ H1) as [Hlen Ht].
    pose proof (train_test_split_inv _ _ _ _ _ _ _ H2) as [_ Hv].
    destruct (train_test_split_shuffled ambient data labels test_set 42 Hlen Ht)
      as (xtr' & xte' & ytr' & yte' & H1' & Hxtr & _).
    rewrite H1 in H1'. simplify_eq.
    apply Forall2_length in Hxtr.
    rewrite length_drop, permutation_length in Hxtr. lia. }
  destruct Hpre as (Hlen & Hv & Ht & Hn).
  destruct (split_dataset_spec ambient validation_set test_set data labels
              Hlen Hv Ht Hn)
    as (s' & xtr & ytr & Hs' & H1 & Hlx & Hly & Hxt & Hxv & Hyt & Hyv
        & _ & _ & Hxe & _ & _ & Hye).
  rewrite Hs in Hs'. injection Hs' as <-.
  destruct (train_test_split_shuffled ambient data labels test_set 42 Hlen
              ltac:(lia))
    as (xtr' & xte' & ytr' & yte' & H1' & Hxtr & _ & Hytr & _).
  rewrite H1 in H1'. simplify_eq.
  exists xtr', ytr'. fold perm in Hxtr, Hytr.
  split; [done|]. do 4 (split; [done|]).
  rewrite Hxt, Hxv, Hyt, Hyv, !take_drop, !length_drop, Hlx, Hly.
  replace (length data - test_set - (length data - test_set - validation_set))%nat
    with validation_set by lia.
  repeat split; try done; f_equal; lia.
Qed.

Lemma split_dataset_deterministic_witness :
  let data := ["d0"; "d1"; "d2"; "d3"; "d4"]%string in
  let labels := [0; 0; 1; 1; 2]%nat in
  let s := {| x_train := ["d2"; "d1"]%string; y_train := [1; 0]%nat;
              x_val := ["d0"]%string; y_val := [0]%nat;
              x_test := ["d4"; "d3"]%string; y_test := [2; 1]%nat |} in
  @split_dataset Instances.reversing _ _ 1%nat 1%nat 2%nat data labels
  = @split_dataset Instances.reversing _ _ 2%nat 1%nat 2%nat data labels /\
  @split_dataset Instances.reversing _ _ 1%nat 1%nat 2%nat data labels = Ok s /\
  exists x_train1 y_train1,
    @Sklearn.train_test_split Instances.reversing _ _ 1%nat data labels 2 true
                              (Some 42%nat)
    = Ok (x_train1, x_test s, y_train1, y_test s) /\
    x_train s ++ x_val s = x_train1 /\ y_train s ++ y_val s = y_train1 /\
    x_val s = drop (length x_train1 - 1) x_train1 /\
    y_val s = drop (length y_train1 - 1) y_train1.
Proof.
  intros data labels s.
  pose proof (@split_dataset_deterministic Instances.reversing _ _
                1%nat 2%nat 1%nat 2%nat data labels) as [Hsame Hshape].
  split; [exact Hsame|]. split; [reflexivity|].
  destruct (Hshape s eq_refl)
    as (x_train1 & y_train1 & H1 & _ & _ & _ & _ & Hx & Hy & Hxv & Hyv & _).
  exists x_train1, y_train1. repeat split; assumption.
Defined.

(** ** Vocabulary *)

Lemma get_elem_of (d : list (string * nat)) (w : string) (i : nat) :
  Keras.get d w = Some i -> (w, i) ∈ d.
Proof.
  induction d as [|[k v] d IH]; simpl; [done|].
  destruct (String.eqb_spec k w) as [->|_].
  - intros [= ->]. left.
  - intros Hg. right. by apply IH.
Qed.

(** On a dict (no key twice) [get] finds every item. *)
Lemma get_of_elem (d : list (string * nat)) (w : string) (i : nat) :
  NoDup d.*1 -> (w, i) ∈ d -> Keras.get d w = Some i.
Proof.
  induction d as [|[k v] d IH]; simpl; intros Hnd Hin.
  - by apply elem_of_nil in Hin.
  - apply NoDup_cons in Hnd as [Hk Hnd].
    apply elem_of_cons in Hin as [[= <- <-]|Hin].
    + by rewrite String.eqb_refl.
    + destruct (String.eqb_spec k w) as [->|_]; [|by apply IH].
      exfalso. apply Hk. apply list_elem_of_fmap. by exists (w, i).
Qed.

Lemma bump_keys (w : string) (counts : list (string * nat)) :
  (Keras.bump w counts).*1
  = if decide (w ∈ counts.*1) then counts.*1 else counts.*1 ++ [w].
Proof.
  induction counts as [|[k c] counts IH]; [done|].
  cbn [Keras.bump]. destruct (String.eqb_spec k w) as [->|Hne].
  - rewrite decide_True; [done|]. rewrite fmap_cons. left.
  - rewrite !fmap_cons, IH. cbn [fst].
    destruct (decide (w ∈ counts.*1)) as [Hin|Hin].
    + rewrite decide_True; [done|]. by right.
    + rewrite decide_False; [done|].
      intros [?|?]%elem_of_cons; [congruence|done].
Qed.

Lemma bump_NoDup (w : string) (counts : list (string * nat)) :
  NoDup counts.*1 -> NoDup (Keras.bump w counts).*1.
Proof.
  intros Hnd. rewrite bump_keys. destruct (decide (w ∈ counts.*1)); [done|].
  apply NoDup_app. split; [done|]. split; [|apply NoDup_singleton].
  intros x Hx Hw. apply elem_of_cons in Hw as [->|Hw]; [done|].
  by apply elem_of_nil in Hw.
Qed.

Lemma insert_by_count_perm (x : string * nat) (l : list (string * nat)) :
  Keras.insert_by_count x l ≡ₚ x :: l.
Proof.
  induction l as [|y l IH]; simpl; [done|].
  destruct (snd x <? snd y)%nat; [|done].
  rewrite IH. apply Permutation_swap.
Qed.

Lemma sort_by_count_perm (l : list (string * nat)) : Keras.sort_by_count l ≡ₚ l.
Proof.
  induction l as [|x l IH]; simpl; [done|].
  by rewrite insert_by_count_perm, IH.
Qed.

(** The word index built by [fit_on_texts] on a fresh tokenizer is a dict
    (no word twice) that numbers its words 1, 2, ... in order. *)
Lemma fit_on_texts_word_index (num_words : option nat) (texts : list string) :
  exists voc,
    NoDup voc /\
    Keras.word_index (Keras.fit_on_texts (Keras.new num_words) texts)
    = zip voc (seq 1 (length voc)).
Proof.
  unfold Keras.fit_on_texts. simpl.
  set (counts := foldl _ [] texts).
  exists (map fst (Keras.sort_by_count counts)). split; [|done].
  change (NoDup (Keras.sort_by_count counts).*1).
  rewrite sort_by_count_perm. unfold counts. clear counts.
  assert (Hgen : forall init, NoDup init.*1 ->
            NoDup (foldl (fun counts text =>
                            foldl (fun counts w => Keras.bump w counts) counts
                                  (Keras.text_to_word_sequence text))
                         init texts).*1).
  { induction texts as [|text texts IH]; intros init Hinit; simpl; [done|].
    apply IH. generalize (Keras.text_to_word_sequence text). intros ws.
    revert init Hinit. induction ws as [|w ws IHw]; intros init Hinit; simpl;
      [done|].
    apply IHw. by apply bump_NoDup. }
  apply Hgen. constructor.
Qed.

Lemma zip_seq_keys (voc : list string) (a : nat) :
  (zip voc (seq a (length voc))).*1 = voc /\
  (zip voc (seq a (length voc))).*2 = seq a (length voc).
Proof.
  split; [apply fst_zip|apply snd_zip]; by rewrite length_seq.
Qed.

(** ** Embedding matrix *)

Section EmbeddingMatrixFacts.
Context `{FloatOps}.
Variables (max_num_words embedding_dim : nat).
Variable embeddings_index : gmap string (list float32).

Lemma stored_row_same {A : Type} (v : list A) :
  length v = embedding_dim -> stored_row embedding_dim v = v.
Proof. destruct v as [|x [|y v]]; [done| |done]. by intros <-. Qed.

Lemma stored_row_map {A B : Type} (f : A -> B) (v : list A) :
  map f (stored_row embedding_dim v) = stored_row embedding_dim (map f v).
Proof.
  destruct v as [|x [|y v]]; [done| |done]. simpl. apply (fmap_replicate f).
Qed.

Lemma stored_row_length {A : Type} (v : list A) :
  length v = embedding_dim \/ length v = 1%nat ->
  length (stored_row embedding_dim v) = embedding_dim.
Proof.
  destruct v as [|x [|y v]]; simpl; intros [Hl|Hl]; try done;
    by rewrite length_replicate.
Qed.

(** [matrix[i] = vector] on an existing row of the embedding dimension,
    for a vector of that dimension or with a single item. *)
Lemma set_row_stored (matrix : list (list float)) (i : nat)
      (row vector : list float) :
  matrix !! i = Some row -> length row = embedding_dim ->
  length vector = embedding_dim \/ length vector = 1%nat ->
  set_row matrix i vector = Ok (<[i := stored_row embedding_dim vector]> matrix).
Proof.
  intros Hrow Hrl Hv. unfold set_row. rewrite Hrow, Hrl.
  destruct (Nat.eqb_spec (length vector) embedding_dim) as [Hl|Hl].
  - by rewrite stored_row_same.
  - destruct Hv as [Hv|Hv]; [done|].
    by destruct vector as [|x [|y vector]].
Qed.

(** The loop of cell 17 over items with pairwise different row numbers,
    from any matrix whose rows have the embedding dimension, when every
    vector it has to store has the embedding dimension or a single item:
    it does not raise, it overwrites row [i] with the stored form of the
    vector of [w] for every item [(w, i)] below the cap whose word has a
    vector, it leaves every other row alone, and it adds one to the counter
    for every item below the cap whose word has none. *)
Lemma embedding_loop_spec (items : list (string * nat)) :
  forall (matrix : list (list float)) (n : nat),
    NoDup items.*2 ->
    (forall w i, (w, i) ∈ items -> (i < max_num_words)%nat ->
                 (i < length matrix)%nat) ->
    Forall (fun row => length row = embedding_dim) matrix ->
    (forall w i v, (w, i) ∈ items -> (i < max_num_words)%nat ->
                   embeddings_index !! w = Some v ->
                   length v = embedding_dim \/ length v = 1%nat) ->
    exists matrix',
      for_each (embedding_step max_num_words embeddings_index) items (matrix, n)
      = Ok (matrix', (n + length (List.filter (not_found max_num_words embeddings_index) items))%nat) /\
      length matrix' = length matrix /\
      (forall w i, (w, i) ∈ items -> (i < max_num_words)%nat ->
         matrix' !! i = match embeddings_index !! w with
                        | Some v => Some (stored_row embedding_dim (map widen v))
                        | None => matrix !! i
                        end) /\
      (forall j, j ∉ items.*2 -> matrix' !! j = matrix !! j).
Proof.
  induction items as [|[w i] items IH]; intros matrix n Hnd Hrange Hdim Hstor.
  { exists matrix. simpl. rewrite Nat.add_0_r.
    split; [done|]. split; [done|]. split; [|done].
    intros w i Hin. by apply elem_of_nil in Hin. }
  rewrite fmap_cons in Hnd. cbn [snd] in Hnd.
  apply NoDup_cons in Hnd as [Hi Hnd].
  assert (Hrest : forall matrix1 : list (list float),
             length matrix1 = length matrix ->
             forall w' i', (w', i') ∈ items -> (i' < max_num_words)%nat ->
                           (i' < length matrix1)%nat).
  { intros matrix1 Hl w' i' Hin Hlt. rewrite Hl.
    eapply Hrange; [by right|done]. }
  assert (Hstor' : forall w' i' v, (w', i') ∈ items -> (i' < max_num_words)%nat ->
                     embeddings_index !! w' = Some v ->
                     length v = embedding_dim \/ length v = 1%nat).
  { intros w' i' v Hin. apply Hstor. by right. }
  assert (Hother : forall w' i', (w', i') ∈ items -> i' <> i).
  { intros w' i' Hin ->. apply Hi, list_elem_of_fmap. by exists (w', i). }
  cbn [for_each embedding_step List.filter]. unfold not_found at 1. cbn [fst snd].
  destruct (Nat.leb_spec max_num_words i) as [Hcap|Hcap].
  - (* the word is ranked beyond the cap: skipped *)
    destruct (Nat.ltb_spec i max_num_words) as [|_]; [lia|]. cbn [andb rbind].
    destruct (IH matrix n Hnd (Hrest matrix eq_refl) Hdim Hstor')
      as (matrix' & Hrun & Hlen & Hset & Hkeep).
    exists matrix'. split; [done|]. split; [done|]. split.
    + intros w' i' [[= -> ->]|Hin]%elem_of_cons Hlt; [lia|by apply Hset].
    + intros j Hj. apply Hkeep. intros Hin. apply Hj. rewrite fmap_cons. by right.
  - destruct (Nat.ltb_spec i max_num_words) as [_|]; [|lia]. cbn [andb].
    destruct (embeddings_index !! w) as [v|] eqn:Hw.
    + (* the word has a vector: the row is overwritten *)
      rewrite bool_decide_eq_false_2 by done.
      assert (Hil : (i < length matrix)%nat) by (eapply Hrange; [left|done]).
      destruct (lookup_lt_is_Some_2 matrix i Hil) as [row Hrow].
      assert (Hrl : length row = embedding_dim).
      { rewrite Forall_forall in Hdim. eapply Hdim, list_elem_of_lookup_2, Hrow. }
      assert (Hvl : length (map widen v) = embedding_dim
                    \/ length (map widen v) = 1%nat).
      { rewrite length_map. eapply Hstor; [left|done|done]. }
      rewrite (set_row_stored matrix i row _ Hrow Hrl Hvl). cbn [rbind].
      set (matrix1 := <[i := stored_row embedding_dim (map widen v)]> matrix).
      assert (Hl1 : length matrix1 = length matrix) by apply length_insert.
      destruct (IH matrix1 n Hnd (Hrest matrix1 Hl1))
        as (matrix' & Hrun & Hlen & Hset & Hkeep).
      { apply Forall_insert; [done|]. by apply stored_row_length. }
      { exact Hstor'. }
      exists matrix'. split; [done|]. split; [congruence|]. split.
      * intros w' i' [[= -> ->]|Hin]%elem_of_cons Hlt.
        -- rewrite Hw, (Hkeep _ Hi). by apply list_lookup_insert_eq.
        -- rewrite (Hset _ _ Hin Hlt).
           destruct (embeddings_index !! w'); [done|].
           apply list_lookup_insert_ne. apply not_eq_sym. by eapply Hother.
      * intros j Hj. rewrite fmap_cons in Hj. cbn [snd] in Hj.
        apply not_elem_of_cons in Hj as [Hji Hj].
        rewrite (Hkeep _ Hj). by apply list_lookup_insert_ne.
    + (* the word has no vector: the counter goes up *)
      rewrite bool_decide_eq_true_2 by done. cbn [length rbind].
      destruct (IH matrix (n + 1)%nat Hnd (Hrest matrix eq_refl) Hdim Hstor')
        as (matrix' & Hrun & Hlen & Hset & Hkeep).
      exists matrix'. split.
      { rewrite Hrun. do 2 f_equal. lia. }
      split; [done|]. split.
      * intros w' i' [[= -> ->]|Hin]%elem_of_cons Hlt; [|by apply Hset].
        by rewrite Hw, (Hkeep _ Hi).
      * intros j Hj. apply Hkeep. intros Hin. apply Hj. rewrite fmap_cons. by right.
Qed.

End EmbeddingMatrixFacts.


Section EmbeddingMatrixShape.
Context `{FloatOps}.
Variables (max_num_words embedding_dim : nat).
Variable embeddings_index : gmap string (list float32).

Lemma set_row_Ok (matrix matrix' : list (list float)) (i : nat)
      (vector : list float) :
  set_row matrix i vector = Ok matrix' ->
  length matrix' = length matrix /\
  (Forall (fun row => length row = embedding_dim) matrix ->
   Forall (fun row => length row = embedding_dim) matrix').
Proof.
  unfold set_row. destruct (matrix !! i) as [row|] eqn:Hrow; [|done].
  assert (Hdim : Forall (fun row => length row = embedding_dim) matrix ->
                 length row = embedding_dim).
  { intros Hall. rewrite Forall_forall in Hall.
    eapply Hall, list_elem_of_lookup_2, Hrow. }
  destruct (Nat.eqb_spec (length vector) (length row)) as [Hlen|Hlen].
  - intros [= <-]. split; [apply length_insert|].
    intros Hall. apply Forall_insert; [done|]. rewrite Hlen. by apply Hdim.
  - destruct vector as [|v [|v' vector]]; [done| |done].
    intros [= <-]. split; [apply length_insert|].
    intros Hall. apply Forall_insert; [done|].
    rewrite length_replicate. by apply Hdim.
Qed.

(** A run of the loop of cell 17 that does not raise keeps the number of
    rows and the row length, and counts at most one per item. *)
Lemma embedding_loop_Ok (items : list (string * nat)) :
  forall matrix n matrix' n',
    for_each (embedding_step max_num_words embeddings_index) items (matrix, n)
    = Ok (matrix', n') ->
    length matrix' = length matrix /\
    (Forall (fun row => length row = embedding_dim) matrix ->
     Forall (fun row => length row = embedding_dim) matrix') /\
    (n <= n' <= n + length items)%nat.
Proof.
  induction items as [|[w i] items IH]; intros matrix n matrix' n' Hrun.
  - simpl in Hrun. injection Hrun as <- <-. simpl. split; [done|]. split; [done|lia].
  - cbn [for_each] in Hrun.
    destruct (embedding_step max_num_words embeddings_index (matrix, n) (w, i))
      as [[matrix1 n1]|] eqn:Hstep; [|done].
    cbn [rbind] in Hrun. apply IH in Hrun as (Hlen & Hdim & Hn).
    cbn [embedding_step] in Hstep.
    destruct (max_num_words <=? i)%nat.
    { injection Hstep as <- <-. cbn [length]. split; [done|]. split; [done|lia]. }
    destruct (embeddings_index !! w) as [v|].
    + destruct (set_row matrix i (map widen v)) as [m|] eqn:Hset; [|done].
      cbn [rbind] in Hstep. injection Hstep as <- <-.
      apply set_row_Ok in Hset as [Hlen1 Hdim1].
      cbn [length]. split; [congruence|]. split; [auto|lia].
    + injection Hstep as <- <-. cbn [length]. split; [done|]. split; [done|lia].
Qed.

(** The loop over items whose ids below the cap are rows of the matrix
    either raises [ValueError], or goes through on items that can all be
    stored. *)
Lemma embedding_loop_unstorable (items : list (string * nat)) :
  forall matrix n,
    (forall w i, (w, i) ∈ items -> (i < max_num_words)%nat ->
                 (i < length matrix)%nat) ->
    Forall (fun row => length row = embedding_dim) matrix ->
    for_each (embedding_step max_num_words embeddings_index) items (matrix, n)
    = Raise ValueError \/
    (Forall (fun item =>
               ~ unstorable max_num_words embedding_dim embeddings_index item)
            items /\
     exists r, for_each (embedding_step max_num_words embeddings_index) items
                        (matrix, n) = Ok r).
Proof.
  induction items as [|[w i] items IH]; intros matrix n Hrange Hdim.
  { right. split; [constructor|]. by eexists. }
  assert (Hrest : forall matrix1 : list (list float),
             length matrix1 = length matrix ->
             forall w' i', (w', i') ∈ items -> (i' < max_num_words)%nat ->
                           (i' < length matrix1)%nat).
  { intros matrix1 Hl w' i' Hin Hlt. rewrite Hl. eapply Hrange; [by right|done]. }
  cbn [for_each embedding_step].
  destruct (Nat.leb_spec max_num_words i) as [Hcap|Hcap].
  - cbn [rbind].
    destruct (IH matrix n (Hrest matrix eq_refl) Hdim) as [Hraise|[Hgood Hok]];
      [by left|right].
    split; [|done]. constructor; [|done].
    intros [Hlt _]. simpl in Hlt. lia.
  - destruct (embeddings_index !! w) as [v|] eqn:Hw.
    + assert (Hil : (i < length matrix)%nat) by (eapply Hrange; [left|done]).
      destruct (lookup_lt_is_Some_2 matrix i Hil) as [row Hrow].
      assert (Hrl : length row = embedding_dim).
      { rewrite Forall_forall in Hdim. eapply Hdim, list_elem_of_lookup_2, Hrow. }
      destruct (set_row matrix i (map widen v)) as [matrix1|e] eqn:Hset.
      * cbn [rbind]. pose proof (set_row_Ok _ _ _ _ Hset) as [Hl1 Hd1].
        destruct (IH matrix1 n (Hrest matrix1 Hl1) (Hd1 Hdim))
          as [Hraise|[Hgood Hok]]; [by left|right].
        split; [|done]. constructor; [|done].
        intros (_ & v' & Hv' & Hne & Hne1). simpl in Hv'.
        rewrite Hw in Hv'. injection Hv' as <-.
        unfold set_row in Hset. rewrite Hrow, length_map, Hrl in Hset.
        destruct (Nat.eqb_spec (length v) embedding_dim); [done|].
        destruct v as [|x [|y v]]; simpl in *; [done|lia|done].
      * left. cbn [rbind]. f_equal.
        unfold set_row in Hset. rewrite Hrow in Hset.
        destruct (_ =? _)%nat; [done|].
        by destruct (map widen v) as [|x [|y l]]; [injection Hset as <-| |injection Hset as <-].
    + cbn [rbind].
      destruct (IH matrix (n + 1)%nat (Hrest matrix eq_refl) Hdim)
        as [Hraise|[Hgood Hok]]; [by left|right].
      split; [|done]. constructor; [|done].
      intros (_ & v' & Hv' & _). simpl in Hv'. congruence.
Qed.

End EmbeddingMatrixShape.

(** C6 (as amended): on the word index of the fitted tokenizer, when every
    token below the cap that is in the embedding table has a vector of
    either [embedding_dim] coefficients or a single coefficient, cell 17
    succeeds with a matrix of [min(max_vocab, vocab_size + 1)] rows; every
    id below that number is 0 or the id of a token; the row of a token
    absent from the table, and row 0, are exactly all-zero; the row of a
    token present with [embedding_dim] coefficients is its source vector,
    value for value; the row of a token present with a single coefficient
    holds [embedding_dim] copies of it; and the not-found counter is the
    number of tokens below the cap that are absent from the table.  When
    some token below the cap has a vector of any other length, cell 17
    raises [ValueError] and builds no matrix. *)
Theorem embedding_matrix_rows `{FloatOps} (max_vocab embedding_dim : nat)
        (texts : list string) (embeddings_index : gmap string (list float32)) :
  let word_index :=
    Keras.word_index (Keras.fit_on_texts (Keras.new (Some max_vocab)) texts) in
  let num_words := (max_vocab `min` (length word_index + 1))%nat in
  let zero_row := replicate embedding_dim (narrow (of_nat 0)) in
  ((forall w i v, Keras.get word_index w = Some i -> (i < max_vocab)%nat ->
                  embeddings_index !! w = Some v ->
                  length v = embedding_dim \/ length v = 1%nat) ->
   exists embedding_matrix n_not_found,
     build_embedding_matrix max_vocab embedding_dim word_index embeddings_index
     = Ok (embedding_matrix, n_not_found) /\
     length embedding_matrix = num_words /\
     (forall i, (i < num_words)%nat ->
                i = 0%nat \/ exists w, Keras.get word_index w = Some i) /\
     ((0 < num_words)%nat -> embedding_matrix !! 0%nat = Some zero_row) /\
     (forall w i, Keras.get word_index w = Some i -> (i < num_words)%nat ->
        match embeddings_index !! w with
        | None => embedding_matrix !! i = Some zero_row
        | Some v =>
            (length v = embedding_dim -> embedding_matrix !! i = Some v) /\
            (forall x, v = [x] ->
                       embedding_matrix !! i = Some (replicate embedding_dim x))
        end) /\
     n_not_found
     = length (List.filter (not_found max_vocab embeddings_index) word_index)) /\
  (forall w i v, Keras.get word_index w = Some i -> (i < max_vocab)%nat ->
                 embeddings_index !! w = Some v ->
                 length v <> embedding_dim -> length v <> 1%nat ->
                 build_embedding_matrix max_vocab embedding_dim word_index
                                        embeddings_index
                 = Raise ValueError).
Proof.
  intros word_index num_words zero_row.
  destruct (fit_on_texts_word_index (Some max_vocab) texts) as (voc & Hvoc & Hwi).
  fold word_index in Hwi.
  destruct (zip_seq_keys voc 1) as [Hkeys Hids]. rewrite <- Hwi in Hkeys, Hids.
  assert (Hlen : length word_index = length voc).
  { by rewrite <- (length_fmap fst), Hkeys. }
  assert (Hid : forall w i, (w, i) ∈ word_index -> (1 <= i <= length voc)%nat).
  { intros w i Hin.
    assert (Hi : i ∈ word_index.*2) by (apply list_elem_of_fmap; by exists (w, i)).
    rewrite Hids in Hi. apply elem_of_seq in Hi. lia. }
  set (zeros := replicate num_words (replicate embedding_dim (of_nat 0))).
  assert (Hrows : forall w i, (w, i) ∈ word_index -> (i < max_vocab)%nat ->
                              (i < length zeros)%nat).
  { intros w i Hin Hlt. apply Hid in Hin. unfold zeros, num_words.
    rewrite length_replicate. lia. }
  assert (Hzdim : Forall (fun row => length row = embedding_dim) zeros).
  { apply Forall_replicate, length_replicate. }
  split.
  - intros Hstor.
    destruct (embedding_loop_spec max_vocab embedding_dim embeddings_index
                word_index zeros 0%nat)
      as (matrix' & Hrun & Hlen' & Hset & Hkeep); [|exact Hrows|exact Hzdim| |].
    { rewrite Hids. apply NoDup_seq. }
    { intros w i v Hin. apply Hstor. apply get_of_elem; [by rewrite Hkeys|done]. }
    assert (Hzero : forall i, (i < num_words)%nat ->
                              map narrow <$> zeros !! i = Some zero_row).
    { intros i Hi. unfold zeros. rewrite lookup_replicate_2 by done. simpl.
      f_equal. apply (fmap_replicate narrow). }
    exists (map (map narrow) matrix'),
           (length (List.filter (not_found max_vocab embeddings_index) word_index)).
    split.
    { unfold build_embedding_matrix. fold num_words zeros. by rewrite Hrun. }
    split.
    { rewrite length_map, Hlen'. apply length_replicate. }
    split.
    { intros i Hi. destruct i as [|i]; [by left|]. right.
      assert (Hin : S i ∈ word_index.*2).
      { rewrite Hids. apply elem_of_seq. unfold num_words in Hi. lia. }
      apply list_elem_of_fmap in Hin as ([w j] & Hj & Hin). simpl in Hj. subst j.
      exists w. apply get_of_elem; [by rewrite Hkeys|done]. }
    split.
    { intros Hpos. rewrite list_lookup_fmap, Hkeep; [by apply Hzero|].
      rewrite Hids. intros Hin%elem_of_seq. lia. }
    split; [|done].
    intros w i Hget Hi. apply get_elem_of in Hget.
    rewrite list_lookup_fmap, (Hset _ _ Hget) by (unfold num_words in Hi; lia).
    destruct (embeddings_index !! w) as [v|]; [|by apply Hzero].
    assert (Hback : map narrow (map widen v) = v).
    { rewrite <- list_fmap_compose. rewrite <- (list_fmap_id v) at 2.
      apply list_fmap_ext. intros _ x _. apply narrow_widen. }
    cbn [fmap option_fmap option_map].
    rewrite (stored_row_map embedding_dim narrow), Hback. split.
    + intros Hv. by rewrite stored_row_same.
    + by intros x ->.
  - intros w i v Hg Hi Hv Hdim H1.
    unfold build_embedding_matrix. fold num_words zeros.
    destruct (embedding_loop_unstorable max_vocab embedding_dim embeddings_index
                word_index zeros 0%nat Hrows Hzdim) as [Hraise|[Hgood _]].
    + by rewrite Hraise.
    + exfalso. rewrite Forall_forall in Hgood.
      apply (Hgood (w, i)); [by apply get_elem_of|].
      split; [done|]. by exists v.
Qed.

Lemma embedding_matrix_rows_witness :
  let embeddings_index : gmap string (list (@float32 Instances.Q_floats)) :=
    <["a"%string := [1 # 10; 2 # 10; 3 # 10]%Q]> (<["c"%string := [7%Q]]> ∅) in
  let word_index :=
    Keras.word_index
      (Keras.fit_on_texts (Keras.new (Some 4%nat)) ["b a a c"; "c d"]%string) in
  exists embedding_matrix n_not_found,
    @build_embedding_matrix Instances.Q_floats 4 3 word_index embeddings_index
    = Ok (embedding_matrix, n_not_found) /\
    length embedding_matrix = 4%nat /\
    embedding_matrix !! 1%nat = Some [1 # 10; 2 # 10; 3 # 10]%Q /\
    embedding_matrix !! 2%nat = Some [7; 7; 7]%Q /\
    embedding_matrix !! 3%nat = Some [0; 0; 0]%Q /\
    n_not_found = 1%nat.
Proof.
  intros embeddings_index word_index.
  destruct (@embedding_matrix_rows Instances.Q_floats 4 3
              ["b a a c"; "c d"]%string embeddings_index) as [Hbuilt _].
  destruct Hbuilt as (m & n & Hrun & Hlen & _ & _ & Hrows & Hn).
  { intros w i v _ _.
    apply (bool_decide_unpack
             (map_Forall (fun _ v => length v = 3%nat \/ length v = 1%nat)
                         embeddings_index)).
    vm_compute. exact I. }
  exists m, n. split; [exact Hrun|]. split; [exact Hlen|].
  split; [exact (proj1 (Hrows "a"%string 1%nat eq_refl ltac:(vm_compute; lia))
                       eq_refl)|].
  split; [exact (proj2 (Hrows "c"%string 2%nat eq_refl ltac:(vm_compute; lia))
                       7%Q eq_refl)|].
  split; [exact (Hrows "b"%string 3%nat eq_refl ltac:(vm_compute; lia))|].
  exact Hn.
Defined.

(** C6, the claim as written, fails: the loader of cell 5 stores a line
    with a single coefficient, and for a token present in the table with
    such a vector the matrix is built with that coefficient copied to the
    three cells of its row, which is not the token's source vector. *)
Lemma embedding_matrix_broadcasts_short_vector :
  (forall F : FloatOps,
      let x : float32 := of_nat32 1 in
      build_embedding_matrix 10 3 [("a"%string, 1%nat)]
                             (<["a"%string := [x]]> ∅)
      = Ok ([replicate 3 (narrow (of_nat 0)); [x; x; x]], 0%nat)) /\
  Keras.word_index (Keras.fit_on_texts (Keras.new (Some 10%nat)) ["a"%string])
  = [("a"%string, 1%nat)].
Proof.
  split; [|reflexivity]. intros F x.
  unfold build_embedding_matrix. cbn [length Nat.add Nat.min replicate for_each].
  unfold embedding_step. cbn [Nat.leb]. rewrite lookup_insert_eq.
  cbn [map set_row lookup list_lookup length Nat.eqb replicate rbind list_insert insert map].
  by rewrite narrow_widen.
Qed.

(** ** Data loaders *)

Lemma chunks_concat {A : Type} (fuel size : nat) (l : list A) :
  (0 < size)%nat -> (length l <= fuel)%nat ->
  concat (Torch.chunks fuel size l) = l.
Proof.
  intros Hsize. revert l. induction fuel as [|fuel IH]; intros l Hfuel.
  - destruct l; [done|simpl in Hfuel; lia].
  - destruct l as [|x l]; [done|].
    cbn [Torch.chunks concat]. rewrite IH; [apply take_drop|].
    rewrite length_drop. simpl in *. lia.
Qed.

Lemma chunks_length {A : Type} (fuel size : nat) (l : list A) :
  (0 < size)%nat -> (length l <= fuel)%nat ->
  length (Torch.chunks fuel size l) = ((length l + size - 1) / size)%nat.
Proof.
  intros Hsize. revert l. induction fuel as [|fuel IH]; intros l Hfuel.
  - destruct l; [|simpl in Hfuel; lia]. simpl.
    symmetry. apply Nat.div_small. lia.
  - destruct l as [|x l].
    { simpl. symmetry. apply Nat.div_small. lia. }
    cbn [Torch.chunks length]. rewrite IH by (rewrite length_drop; simpl in *; lia).
    rewrite length_drop. cbn [length].
    destruct (Nat.le_gt_cases size (S (length l))) as [Hge|Hlt].
    + replace (S (length l) + size - 1)%nat
        with ((S (length l) - size + size - 1) + 1 * size)%nat by lia.
      rewrite Nat.div_add by lia. lia.
    + replace (S (length l) - size)%nat with 0%nat by lia.
      rewrite (Nat.div_small (0 + size - 1)) by lia.
      apply (Nat.div_unique _ _ 1 (length l)); lia.
Qed.

(** The batches of a loader with a positive batch size are its dataset cut
    in order, and [len] is their number. *)
Lemma batches_concat (loader : Torch.DataLoader) :
  (0 < Torch.batch_size loader)%nat ->
  concat (Torch.batches loader) = Torch.dataset loader /\
  length (Torch.batches loader) = Torch.len loader.
Proof.
  intros Hsize. split.
  - by apply chunks_concat.
  - by apply chunks_length.
Qed.

Lemma len_positive (loader : Torch.DataLoader) :
  (0 < Torch.batch_size loader)%nat -> Torch.dataset loader <> [] ->
  (0 < Torch.len loader)%nat.
Proof.
  intros Hsize Hne. unfold Torch.len.
  destruct (Torch.dataset loader) as [|x l]; [done|]. cbn [length].
  apply Nat.div_str_pos. lia.
Qed.

(** ** Evaluator *)

Section EvaluatorFacts.
Context `{FloatOps}.
Variable net : Net.

Lemma predict_length (samples : list (list nat * nat)) :
  length (predict net samples) = length samples.
Proof. unfold predict, batch_output. by rewrite !length_map. Qed.

Lemma predict_app (s1 s2 : list (list nat * nat)) :
  predict net (s1 ++ s2) = predict net s1 ++ predict net s2.
Proof. unfold predict, batch_output. by rewrite !map_app. Qed.

Lemma count_equal_app (p1 p2 t1 t2 : list nat) :
  length p1 = length t1 ->
  count_equal (p1 ++ p2) (t1 ++ t2)
  = (count_equal p1 t1 + count_equal p2 t2)%nat.
Proof.
  intros Hlen. unfold count_equal.
  by rewrite zip_with_app, List.filter_app, length_app.
Qed.

(** The loop of [evaluate] over batches whose labels are all classes: it
    does not raise; the loss variable ends as the running sum of the
    per-batch losses, in batch order; the other two variables end as the
    predictions for all samples in order and the number of samples whose
    prediction equals the label. *)
Lemma eval_loop_spec (batches : list (list (list nat * nat))) :
  forall st,
    Forall (fun t => (t < N_CLASSES)%nat) (map snd (concat batches)) ->
    exists losses,
      batch_losses net batches losses /\
      for_each (eval_step net) batches st
      = Ok {| loss := foldl fadd (loss st) losses;
              correct := (correct st
                          + count_equal (predict net (concat batches))
                                        (map snd (concat batches)))%nat;
              pred_vector := pred_vector st ++ predict net (concat batches) |}.
Proof.
  induction batches as [|batch batches IH]; intros st Hrange.
  { exists []. split; [constructor|]. cbn [for_each concat foldl].
    unfold predict, batch_output, count_equal. simpl.
    rewrite Nat.add_0_r, app_nil_r. by destruct st. }
  cbn [concat] in Hrange. rewrite map_app in Hrange.
  apply Forall_app in Hrange as [Hbatch Hrest].
  destruct (criterion_defined net (batch_output net batch) (map snd batch) Hbatch)
    as [l Hl].
  cbn [for_each]. unfold eval_step at 1. fold (batch_output net batch).
  rewrite Hl. cbn [rbind]. fold (predict net batch).
  destruct (IH {| loss := fadd (loss st) l;
                  correct := (correct st
                              + count_equal (predict net batch) (map snd batch))%nat;
                  pred_vector := pred_vector st ++ predict net batch |} Hrest)
    as (losses & Hlosses & Hrun).
  exists (l :: losses). split; [by constructor|].
  rewrite Hrun. cbn [loss correct pred_vector concat foldl].
  rewrite predict_app, map_app, count_equal_app, <- app_assoc, Nat.add_assoc;
    [done|].
  by rewrite predict_length, length_map.
Qed.

(** [evaluate] on a non-empty set of samples whose labels are classes,
    with a non-empty validation loader: the function returns, and its
    report is made of the loop's results. *)
Lemma evaluate_spec (validation_loader loader : Torch.DataLoader) :
  (0 < Torch.batch_size validation_loader)%nat ->
  Torch.dataset validation_loader <> [] ->
  (0 < Torch.batch_size loader)%nat ->
  Torch.dataset loader <> [] ->
  Forall (fun t => (t < N_CLASSES)%nat) (Torch.targets loader) ->
  exists r losses,
    evaluate net validation_loader loader = Ok r /\
    batch_losses net (Torch.batches loader) losses /\
    mean_loss r = fdiv (foldl fadd (of_nat 0) losses)
                       (of_nat (Torch.len validation_loader)) /\
    predictions r = predict net (Torch.dataset loader) /\
    n_correct r = count_equal (predictions r) (Torch.targets loader).
Proof.
  intros Hvb Hvd Hb Hd Hrange.
  destruct (batches_concat loader Hb) as [Hcat Hnum].
  destruct (eval_loop_spec (Torch.batches loader)
              {| loss := of_nat 0; correct := 0; pred_vector := [] |})
    as (losses & Hlosses & Hrun).
  { by rewrite Hcat. }
  rewrite Hcat in Hrun. cbn [loss correct pred_vector] in Hrun.
  pose proof (len_positive validation_loader Hvb Hvd) as Hvl.
  pose proof (len_positive loader Hb Hd) as Hl. rewrite <- Hnum in Hl.
  eexists _, losses. split.
  { unfold evaluate. rewrite Hrun. cbn [rbind].
    destruct (Nat.eqb_spec (Torch.len validation_loader) 0) as [|_]; [lia|].
    destruct (Torch.batches loader); [simpl in Hl; lia|]. reflexivity. }
  by cbn [mean_loss predictions n_correct].
Qed.

End EvaluatorFacts.

(** C2: on every loader that can be evaluated (a non-empty dataset with
    labels among the classes, a non-empty validation loader), the reported
    mean loss is the sum of the per-batch losses of the evaluated loader, in
    batch order, divided by the number of batches of the validation loader;
    neither the number of batches of the evaluated loader nor its number of
    samples enters the quotient. *)
Theorem evaluate_mean_loss `{FloatOps} (net : Net)
        (validation_loader loader : Torch.DataLoader) :
  (0 < Torch.batch_size validation_loader)%nat ->
  Torch.dataset validation_loader <> [] ->
  (0 < Torch.batch_size loader)%nat ->
  Torch.dataset loader <> [] ->
  Forall (fun t => (t < N_CLASSES)%nat) (Torch.targets loader) ->
  exists r losses,
    evaluate net validation_loader loader = Ok r /\
    Forall2 (fun batch l =>
               criterion net (map (forward net) (map fst batch)) (map snd batch)
               = Ok l)
            (Torch.batches loader) losses /\
    mean_loss r = fdiv (foldl fadd (of_nat 0) losses)
                       (of_nat (length (Torch.batches validation_loader))).
Proof.
  intros Hvb Hvd Hb Hd Hrange.
  destruct (evaluate_spec net validation_loader loader Hvb Hvd Hb Hd Hrange)
    as (r & losses & Hrun & Hlosses & Hmean & _).
  exists r, losses. split; [done|]. split; [done|].
  by rewrite (proj2 (batches_concat validation_loader Hvb)).
Qed.

Lemma evaluate_mean_loss_witness :
  exists r losses,
    @evaluate Instances.Q_floats Instances.sum_net
      Instances.validation_loader Instances.test_loader = Ok r /\
    Forall2 (fun batch l =>
               criterion Instances.sum_net
                         (map (forward Instances.sum_net) (map fst batch))
                         (map snd batch) = Ok l)
            (Torch.batches Instances.test_loader) losses /\
    mean_loss r
    = @fdiv Instances.Q_floats (foldl fadd (of_nat 0) losses)
            (of_nat (length (Torch.batches Instances.validation_loader))).
Proof.
  apply (@evaluate_mean_loss Instances.Q_floats Instances.sum_net
           Instances.validation_loader Instances.test_loader).
  - simpl. lia.
  - discriminate.
  - simpl. lia.
  - discriminate.
  - vm_compute. repeat constructor.
Defined.

(** The witness computed: three batches with a loss of one each and a
    validation loader of one batch give a mean loss of 3, which is neither
    the sum over the three batches of the evaluated loader (1) nor over its
    five samples (3/5). *)
Example evaluate_mean_loss_example :
  mean_loss <$> (match @evaluate Instances.Q_floats Instances.sum_net
                         Instances.validation_loader Instances.test_loader with
                 | Ok r => Some r | Raise _ => None end) = Some 3%Q /\
  Torch.len Instances.validation_loader = 1%nat /\
  Torch.len Instances.test_loader = 3%nat /\
  length (Torch.dataset Instances.test_loader) = 5%nat.
Proof. repeat split; reflexivity. Qed.

(** ** Confusion matrix *)

Ltac bool_cases :=
  repeat match goal with
         | |- context [(?a =? ?b)%nat] => destruct (Nat.eqb_spec a b)
         | |- context [(?a <=? ?b)%nat] => destruct (Nat.leb_spec a b)
         | |- context [(?a <? ?b)%nat] => destruct (Nat.ltb_spec a b)
         end;
  simpl; try lia.

Lemma count_pair_cons (i j : nat) (p : nat * nat) (pairs : list (nat * nat)) :
  Sklearn.count_pair i j (p :: pairs)
  = (Nat.b2n ((fst p =? i)%nat && (snd p =? j)%nat)
     + Sklearn.count_pair i j pairs)%nat.
Proof.
  unfold Sklearn.count_pair. simpl.
  by destruct ((fst p =? i)%nat && (snd p =? j)%nat).
Qed.

Lemma sum_list_map_add {A : Type} (f g : A -> nat) (l : list A) :
  sum_list (map (fun x => (f x + g x)%nat) l)
  = (sum_list (map f l) + sum_list (map g l))%nat.
Proof. induction l as [|x l IH]; simpl; lia. Qed.

(** Among the columns [start .. start + n - 1] exactly the column [b]
    counts a sample predicted as [b]. *)
Lemma sum_indicator (c : bool) (b start n : nat) :
  sum_list (map (fun j => Nat.b2n (c && (b =? j)%nat)) (seq start n))
  = Nat.b2n (c && (start <=? b)%nat && (b <? start + n)%nat).
Proof.
  revert start. induction n as [|n IH]; intros start.
  - destruct c; bool_cases.
  - cbn [seq map sum_list]. rewrite IH. destruct c; bool_cases.
Qed.

(** A row of counts adds up to the number of pairs with that true label
    and a predicted label among the columns. *)
Lemma row_sum (pairs : list (nat * nat)) (i n : nat) :
  sum_list (map (fun j => Sklearn.count_pair i j pairs) (seq 0 n))
  = length (List.filter (fun p => (fst p =? i)%nat && (snd p <? n)%nat) pairs).
Proof.
  induction pairs as [|p pairs IH].
  - simpl. induction (seq 0 n) as [|j l IHl]; [done|exact IHl].
  - rewrite (map_ext _ (fun j => (Nat.b2n ((fst p =? i)%nat && (snd p =? j)%nat)
                                  + Sklearn.count_pair i j pairs)%nat))
      by (intros j; apply count_pair_cons).
    rewrite sum_list_map_add, IH, sum_indicator. simpl.
    destruct (fst p =? i)%nat; simpl; [|done].
    by destruct (snd p <? n)%nat.
Qed.

(** The diagonal adds up to the number of pairs whose two labels agree and
    are among the labels. *)
Lemma diagonal_sum (pairs : list (nat * nat)) (n : nat) :
  sum_list (map (fun i => Sklearn.count_pair i i pairs) (seq 0 n))
  = length (List.filter (fun p => (fst p =? snd p)%nat && (snd p <? n)%nat) pairs).
Proof.
  induction pairs as [|p pairs IH].
  - simpl. induction (seq 0 n) as [|j l IHl]; [done|exact IHl].
  - rewrite (map_ext _ (fun i => (Nat.b2n ((fst p =? snd p)%nat && (snd p =? i)%nat)
                                  + Sklearn.count_pair i i pairs)%nat)).
    2:{ intros i. rewrite count_pair_cons. f_equal. bool_cases. }
    rewrite sum_list_map_add, IH, sum_indicator. simpl.
    destruct (fst p =? snd p)%nat; simpl; [|done].
    by destruct (snd p <? n)%nat.
Qed.

Lemma filter_fst_zip {A B : Type} (f : A -> bool) (l : list A) (k : list B) :
  length l = length k ->
  length (List.filter (fun p => f (fst p)) (zip l k)) = length (List.filter f l).
Proof.
  revert k. induction l as [|x l IH]; intros [|y k] Hlen; try done.
  simpl. injection Hlen as Hlen. destruct (f x); simpl; by rewrite IH.
Qed.

Lemma filter_agree_swap (l k : list nat) :
  length (List.filter (fun p => (fst p =? snd p)%nat) (zip l k))
  = length (List.filter (fun p => (fst p =? snd p)%nat) (zip k l)).
Proof.
  revert k. induction l as [|x l IH]; intros [|y k]; try done.
  simpl. rewrite (Nat.eqb_sym y x). destruct (x =? y)%nat; simpl; by rewrite IH.
Qed.

Lemma filter_all {A : Type} (f : A -> bool) (l : list A) :
  Forall (fun x => f x = true) l -> List.filter f l = l.
Proof.
  induction 1 as [|x l Hx _ IH]; [done|]. simpl. by rewrite Hx, IH.
Qed.

Lemma Forall_zip {A B : Type} (P : A -> Prop) (Q : B -> Prop)
      (l : list A) (k : list B) :
  Forall P l -> Forall Q k -> Forall (fun p => P (fst p) /\ Q (snd p)) (zip l k).
Proof.
  intros Hl. revert k. induction Hl as [|x l Hx _ IH]; intros k Hk; [constructor|].
  destruct Hk as [|y k Hy Hk]; [constructor|].
  simpl. constructor; [done|by apply IH].
Qed.

(** With both vectors of equal length and all their values among the
    labels, and a non-empty [y_true], the confusion matrix is returned and
    its entry [(i, j)] counts the pairs (true [i], predicted [j]). *)
Lemma confusion_matrix_ok (y_true y_pred : list nat) (n_labels : nat) :
  length y_true = length y_pred -> y_true <> [] ->
  Forall (fun t => (t < n_labels)%nat) y_true ->
  Forall (fun t => (t < n_labels)%nat) y_pred ->
  Sklearn.confusion_matrix y_true y_pred n_labels
  = Ok (map (fun i => map (fun j => Sklearn.count_pair i j (zip y_true y_pred))
                          (seq 0 n_labels))
            (seq 0 n_labels)).
Proof.
  intros Hlen Hne Ht Hp. unfold Sklearn.confusion_matrix.
  rewrite Hlen, Nat.eqb_refl. cbn [negb].
  destruct (forallb _ (seq 0 n_labels)) eqn:Hguard.
  { exfalso. destruct y_true as [|t y_true]; [done|].
    apply Forall_cons in Ht as [Ht _].
    rewrite forallb_forall in Hguard.
    specialize (Hguard t). rewrite in_seq in Hguard.
    specialize (Hguard ltac:(lia)). simpl in Hguard.
    by rewrite Nat.eqb_refl in Hguard. }
  rewrite filter_all; [done|].
  eapply Forall_impl; [apply (Forall_zip _ _ _ _ Ht Hp)|].
  intros [t p] [Hi Hj]. simpl in *. bool_cases.
Qed.

Section ReportFacts.
Context `{FloatOps}.
Variable net : Net.

Lemma argmax_from_lt (best_i : nat) (best : float32) (i : nat)
      (row : list float32) :
  (best_i < i)%nat -> (argmax_from best_i best i row < i + length row)%nat.
Proof.
  revert best_i best i. induction row as [|x row IH]; intros best_i best i Hlt.
  - simpl. lia.
  - simpl. destruct (flt32 best x).
    + specialize (IH i x (S i) ltac:(lia)). lia.
    + specialize (IH best_i best (S i) ltac:(lia)). lia.
Qed.

(** The arg-max of a non-empty row is one of its positions. *)
Lemma argmax_lt (row : list float32) :
  row <> [] -> (argmax row < length row)%nat.
Proof.
  destruct row as [|x row]; [done|]. intros _. simpl.
  pose proof (argmax_from_lt 0 x 1 row ltac:(lia)). lia.
Qed.

(** Every prediction is one of the classes. *)
Lemma predict_range (samples : list (list nat * nat)) :
  Forall (fun p => (p < N_CLASSES)%nat) (predict net samples).
Proof.
  unfold predict, batch_output. apply Forall_fmap, Forall_fmap, Forall_fmap.
  apply Forall_forall. intros [x t] _. simpl.
  rewrite <- (forward_classes net x). apply argmax_lt.
  intros Hnil. pose proof (forward_classes net x) as Hc.
  by rewrite Hnil in Hc.
Qed.

Lemma diagonal_of_counts (f : nat -> nat -> nat) (n : nat) :
  diagonal (map (fun i => map (fun j => f i j) (seq 0 n)) (seq 0 n))
  = map (fun i => f i i) (seq 0 n).
Proof.
  apply list_eq. intros i. unfold diagonal.
  rewrite list_lookup_imap, !list_lookup_fmap.
  destruct (Nat.lt_ge_cases i n) as [Hi|Hi].
  - rewrite lookup_seq_lt by done. simpl.
    by rewrite list_lookup_fmap, lookup_seq_lt.
  - by rewrite lookup_seq_ge.
Qed.

End ReportFacts.

(** C9: for every set that can be evaluated (non-empty, labels among the
    classes, a non-empty validation loader), the report is produced and its
    confusion matrix has one row per true class and one column per
    predicted class, entry (i, j) counting the samples of true class i
    predicted as j; each row sum is the number of samples of that true
    class; the diagonal adds up to the evaluator's count of correct
    predictions; and the per-class accuracy of class i is the diagonal
    entry divided by the row sum. *)
Theorem confusion_matrix_counts `{FloatOps} (net : Net)
        (validation_loader loader : Torch.DataLoader) :
  (0 < Torch.batch_size validation_loader)%nat ->
  Torch.dataset validation_loader <> [] ->
  (0 < Torch.batch_size loader)%nat ->
  Torch.dataset loader <> [] ->
  Forall (fun t => (t < N_CLASSES)%nat) (Torch.targets loader) ->
  exists r cm acc,
    report net validation_loader loader = Ok (r, cm, acc) /\
    evaluate net validation_loader loader = Ok r /\
    length cm = N_CLASSES /\ length acc = N_CLASSES /\
    (forall i row, cm !! i = Some row ->
       length row = N_CLASSES /\
       sum_list row
       = length (List.filter (fun t => (t =? i)%nat) (Torch.targets loader)) /\
       (forall j c, row !! j = Some c ->
          c = length (List.filter
                        (fun p => (fst p =? i)%nat && (snd p =? j)%nat)
                        (zip (Torch.targets loader) (predictions r)))) /\
       (forall d, row !! i = Some d ->
          acc !! i = Some (fdiv (of_nat d) (of_nat (sum_list row))))) /\
    sum_list (diagonal cm) = n_correct r.
Proof.
  intros Hvb Hvd Hb Hd Hrange.
  destruct (evaluate_spec net validation_loader loader Hvb Hvd Hb Hd Hrange)
    as (r & losses & Hrun & _ & _ & Hpred & Hcorrect).
  set (y_true := Torch.targets loader) in *.
  set (pairs := zip y_true (predictions r)).
  set (cm := map (fun i => map (fun j => Sklearn.count_pair i j pairs)
                               (seq 0 N_CLASSES)) (seq 0 N_CLASSES)).
  assert (Hplen : length y_true = length (predictions r)).
  { rewrite Hpred, predict_length. unfold y_true, Torch.targets.
    by rewrite length_map. }
  assert (Hprange : Forall (fun p => (p < N_CLASSES)%nat) (predictions r)).
  { rewrite Hpred. apply predict_range. }
  assert (Hcm : Sklearn.confusion_matrix y_true (predictions r) N_CLASSES = Ok cm).
  { apply confusion_matrix_ok; [done| |done|done].
    unfold y_true, Torch.targets. by destruct (Torch.dataset loader). }
  assert (Hrow : forall i row, cm !! i = Some row ->
             (i < N_CLASSES)%nat /\
             row = map (fun j => Sklearn.count_pair i j pairs) (seq 0 N_CLASSES)).
  { intros i row Hi. unfold cm in Hi. rewrite list_lookup_fmap in Hi.
    destruct (seq 0 N_CLASSES !! i) as [i'|] eqn:Hs; [|done].
    apply lookup_seq in Hs as [-> Hlt]. simpl in Hi. by injection Hi as <-. }
  assert (Hsum : forall i, (i < N_CLASSES)%nat ->
             sum_list (map (fun j => Sklearn.count_pair i j pairs) (seq 0 N_CLASSES))
             = length (List.filter (fun t => (t =? i)%nat) y_true)).
  { intros i Hi. rewrite row_sum.
    rewrite <- (filter_fst_zip (fun t => (t =? i)%nat) y_true (predictions r) Hplen).
    f_equal. apply List.filter_ext_in. intros [t p] Hin.
    apply list_elem_of_In, elem_of_zip_r in Hin. simpl in *.
    rewrite Forall_forall in Hprange. specialize (Hprange _ Hin).
    destruct (Nat.ltb_spec p N_CLASSES); [|lia]. by rewrite andb_true_r. }
  exists r, cm, (per_class_accuracy cm).
  split. { unfold report. rewrite Hrun. cbn [rbind]. fold y_true. by rewrite Hcm. }
  split; [done|].
  split. { unfold cm. by rewrite length_map, length_seq. }
  split.
  { unfold per_class_accuracy, diagonal.
    rewrite length_zip_with, length_imap, length_map. unfold cm.
    rewrite length_map, length_seq. lia. }
  split.
  - intros i row Hi. destruct (Hrow i row Hi) as [Hlt Erow].
    split; [by rewrite Erow, length_map, length_seq|].
    split; [rewrite Erow; by apply Hsum|]. split.
    + intros j c Hj. rewrite Erow, list_lookup_fmap in Hj.
      destruct (seq 0 N_CLASSES !! j) as [j'|] eqn:Hs; [|done].
      apply lookup_seq in Hs as [-> _]. simpl in Hj. by injection Hj as <-.
    + intros d Hd'. unfold per_class_accuracy, diagonal.
      rewrite lookup_zip_with, list_lookup_imap, list_lookup_fmap, Hi. simpl.
      by rewrite Hd'.
  - unfold cm. rewrite diagonal_of_counts, diagonal_sum, Hcorrect.
    unfold count_equal. fold y_true. rewrite (filter_agree_swap (predictions r)).
    fold pairs. f_equal. apply List.filter_ext_in. intros [t p] Hin.
    apply list_elem_of_In, elem_of_zip_r in Hin. simpl in *.
    rewrite Forall_forall in Hprange. specialize (Hprange _ Hin).
    destruct (Nat.ltb_spec p N_CLASSES); [|lia]. by rewrite andb_true_r.
Qed.

Lemma confusion_matrix_counts_witness :
  exists r cm acc,
    @report Instances.Q_floats Instances.sum_net
      Instances.validation_loader Instances.test_loader = Ok (r, cm, acc) /\
    cm !! 1%nat = Some (1 :: replicate 19 0)%nat /\
    sum_list (diagonal cm) = 3%nat /\ n_correct r = 3%nat.
Proof.
  destruct (@confusion_matrix_counts Instances.Q_floats Instances.sum_net
              Instances.validation_loader Instances.test_loader)
    as (r & cm & acc & Hrun & _ & _ & _ & _ & Hdiag);
    [simpl; lia|discriminate|simpl; lia|discriminate
    |vm_compute; repeat constructor|].
  exists r, cm, acc. split; [exact Hrun|].
  vm_compute in Hrun. injection Hrun as <- <- <-.
  split; [reflexivity|]. split; reflexivity.
Defined.

(* ===================================================================== *)
(** * Further properties of the modelled cells *)
(* ===================================================================== *)

(** ** Header stripping *)

Lemma prefix_self_app (sub r : string) : String.prefix sub (sub +:+ r) = true.
Proof.
  induction sub as [|c sub IH]; [by destruct r|]. simpl.
  by destruct (Ascii.ascii_dec c c).
Qed.

(** When the first separator is not at the start, [strip_header] returns
    the text from that separator on. *)
Lemma strip_header_pos (t : string) :
  (0 < PyStr.find t PyStr.blank_line)%Z ->
  exists header rest,
    t = header +:+ rest /\ Corpus.strip_header t = rest /\
    String.prefix PyStr.blank_line rest = true /\
    Z.of_nat (String.length header) = PyStr.find t PyStr.blank_line.
Proof.
  intros Hpos.
  destruct (find_from_found PyStr.blank_line t 0 _ eq_refl
              ltac:(unfold PyStr.find in Hpos; lia))
    as (h & rest & Ht & Hlen & Hpre & _).
  exists h, rest. split; [done|].
  split; [|split; [done|unfold PyStr.find; lia]].
  unfold Corpus.strip_header.
  destruct (Z.ltb_spec 0 (PyStr.find t PyStr.blank_line)) as [_|]; [|lia].
  unfold PyStr.slice_from. fold (PyStr.find t PyStr.blank_line) in Hlen.
  destruct (Z.ltb_spec (PyStr.find t PyStr.blank_line) 0) as [|_]; [lia|].
  rewrite Ht at 2 3. rewrite string_length_app.
  replace (Z.to_nat _) with (String.length h) by lia.
  apply drop_chars_app.
Qed.

(** What [strip_header] returns: the text itself, or the text from its
    first separator on. *)
Lemma strip_header_cases (t : string) :
  Corpus.strip_header t = t \/
  exists header rest,
    t = header +:+ rest /\ Corpus.strip_header t = rest /\
    String.prefix PyStr.blank_line rest = true.
Proof.
  destruct (Z.ltb_spec 0 (PyStr.find t PyStr.blank_line)) as [Hpos|Hle].
  - right. destruct (strip_header_pos t Hpos) as (h & rest & Ht & Hs & Hpre & _).
    by exists h, rest.
  - left. unfold Corpus.strip_header.
    by destruct (Z.ltb_spec 0 (PyStr.find t PyStr.blank_line)); [lia|].
Qed.

(** X1: header stripping is idempotent: a text that went through the
    header skip of cell 7 is left unchanged by a second pass, whatever the
    text. *)
Theorem strip_header_idempotent (t : string) :
  Corpus.strip_header (Corpus.strip_header t) = Corpus.strip_header t.
Proof.
  destruct (strip_header_cases t) as [Heq|(h & rest & _ & Heq & Hpre)].
  - by rewrite !Heq.
  - rewrite Heq. unfold Corpus.strip_header, PyStr.find.
    destruct rest as [|c rest]; [done|]. by rewrite find_from_cons, Hpre.
Qed.

(** X2: header stripping only ever removes a prefix: the text is always
    some header followed by the result, and when the text holds no
    blank-line separator at all the result is the text itself. *)
Theorem strip_header_suffix (t : string) :
  (exists header, t = header +:+ Corpus.strip_header t) /\
  (PyStr.find t PyStr.blank_line = (-1)%Z -> Corpus.strip_header t = t) /\
  (String.length (Corpus.strip_header t) <= String.length t)%nat.
Proof.
  assert (Hsuf : exists header, t = header +:+ Corpus.strip_header t).
  { destruct (strip_header_cases t) as [->|(h & rest & Ht & -> & _)].
    - by exists EmptyString.
    - by exists h. }
  split; [done|]. split.
  - intros Hf. unfold Corpus.strip_header. by rewrite Hf.
  - destruct Hsuf as [h Hh]. rewrite Hh at 2. rewrite string_length_app. lia.
Qed.

(** ** Corpus loader *)

Lemma insert_sorted_perm (x : string) (l : list string) :
  PyStr.insert_sorted x l ≡ₚ x :: l.
Proof.
  induction l as [|y l IH]; simpl; [done|].
  destruct (String.leb x y); [done|]. rewrite IH. apply Permutation_swap.
Qed.

Lemma sorted_perm (l : list string) : PyStr.sorted l ≡ₚ l.
Proof.
  induction l as [|x l IH]; simpl; [done|]. by rewrite insert_sorted_perm, IH.
Qed.

Lemma filter_length_perm {A : Type} (f : A -> bool) (l l' : list A) :
  l ≡ₚ l' -> length (List.filter f l) = length (List.filter f l').
Proof.
  induction 1 as [|x l l' _ IH|x y l|l l' l'' _ IH1 _ IH2]; simpl.
  - done.
  - destruct (f x); simpl; by rewrite IH.
  - by destruct (f x), (f y).
  - by rewrite IH1.
Qed.

Lemma lookup_file_is_Some (files : list (string * string)) (fname : string) :
  fname ∈ map fst files -> is_Some (Corpus.lookup_file files fname).
Proof.
  unfold Corpus.lookup_file.
  induction files as [|[k c] files IH]; simpl; intros Hin.
  - by apply elem_of_nil in Hin.
  - destruct (String.eqb_spec k fname) as [->|Hne]; [by eexists|].
    apply IH. apply elem_of_cons in Hin as [?|?]; [congruence|done].
Qed.

(** The inner loop of cell 7 on one class directory: it leaves the label
    index alone and appends one text and one copy of the label for every
    file with a purely numeric name. *)
Lemma load_dir_spec (label_id : nat) (files : list (string * string))
      (st : Corpus.state) :
  let k := length (List.filter PyStr.isdigit (map fst files)) in
  let st' := Corpus.load_dir label_id files st in
  Corpus.labels_index st' = Corpus.labels_index st /\
  Corpus.labels st' = Corpus.labels st ++ replicate k label_id /\
  length (Corpus.texts st') = (length (Corpus.texts st) + k)%nat.
Proof.
  intros k st'. subst k st'. unfold Corpus.load_dir.
  rewrite <- (filter_length_perm _ _ _ (sorted_perm (map fst files))).
  assert (Hin : forall f, f ∈ PyStr.sorted (map fst files) -> f ∈ map fst files).
  { intros f Hf. by rewrite sorted_perm in Hf. }
  revert st Hin.
  induction (PyStr.sorted (map fst files)) as [|f l IH]; intros st Hin.
  - simpl. by rewrite app_nil_r, Nat.add_0_r.
  - cbn [foldl List.filter].
    destruct (PyStr.isdigit f) eqn:Hd.
    + destruct (lookup_file_is_Some files f) as [c Hc]; [apply Hin; left|].
      rewrite Hc.
      match goal with |- context [foldl ?g ?s l] =>
        destruct (IH s) as (Hli & Hl & Ht) end.
      { intros f' Hf'. apply Hin. by right. }
      rewrite Hli, Hl, Ht. cbn [Corpus.labels_index Corpus.labels Corpus.texts].
      rewrite length_app. cbn [length replicate].
      split; [done|]. split; [by rewrite <- app_assoc|lia].
    + apply IH. intros f' Hf'. apply Hin. by right.
Qed.

Lemma load_step_cases (root : list (string * Corpus.entry)) (st : Corpus.state)
      (name : string) :
  match directory_files root name with
  | Some files =>
      load_step root st name
      = Corpus.load_dir (length (Corpus.labels_index st)) files
          {| Corpus.texts := Corpus.texts st;
             Corpus.labels_index :=
               Corpus.labels_index st ++ [(name, length (Corpus.labels_index st))];
             Corpus.labels := Corpus.labels st |} /\
      is_directory root name = true /\
      class_size root name = length (List.filter PyStr.isdigit (map fst files))
  | None => load_step root st name = st /\ is_directory root name = false
  end.
Proof.
  unfold is_directory, class_size, load_step, directory_files.
  by destruct (snd <$> List.find _ root) as [[c|files]|].
Qed.

(** The outer loop of cell 7 from any state over any list of names: the
    directories among the names get the next free ids in order, and each
    contributes as many texts and labels as it has numeric files. *)
Lemma load_loop_spec (root : list (string * Corpus.entry)) (names : list string) :
  forall st : Corpus.state,
    let st' := foldl (load_step root) st names in
    let dirs := List.filter (is_directory root) names in
    let new := zip dirs (seq (length (Corpus.labels_index st)) (length dirs)) in
    let added :=
      List.flat_map (fun p => replicate (class_size root (fst p)) (snd p)) new in
    Corpus.labels_index st' = Corpus.labels_index st ++ new /\
    Corpus.labels st' = Corpus.labels st ++ added /\
    length (Corpus.texts st') = (length (Corpus.texts st) + length added)%nat.
Proof.
  induction names as [|name names IH]; intros st.
  - simpl. by rewrite !app_nil_r, Nat.add_0_r.
  - cbn [foldl List.filter].
    specialize (IH (load_step root st name)). cbn zeta in IH.
    destruct IH as (IHli & IHl & IHt). cbn zeta.
    pose proof (load_step_cases root st name) as Hstep.
    destruct (directory_files root name) as [files|].
    + destruct Hstep as (Hstep & -> & Hsize).
      match type of Hstep with _ = Corpus.load_dir ?n files ?st0 =>
        destruct (load_dir_spec n files st0) as (Hli & Hl & Ht) end.
      cbn zeta in Hli, Hl, Ht. rewrite <- Hstep in Hli, Hl, Ht.
      rewrite Hli in IHli, IHl, IHt. rewrite Hl in IHl. rewrite Ht in IHt.
      cbn [Corpus.labels_index Corpus.labels Corpus.texts] in *.
      rewrite length_app in *. cbn [length] in *.
      rewrite Nat.add_1_r in *.
      cbn [length seq zip_with List.flat_map fst snd].
      rewrite Hsize, IHli, IHl, IHt, <- !app_assoc, !length_app, length_replicate.
      split; [done|]. split; [done|]. lia.
    + destruct Hstep as (Hstep & ->). rewrite Hstep in *. done.
Qed.

Lemma load_unfold (root : list (string * Corpus.entry)) :
  Corpus.load root
  = foldl (load_step root)
          {| Corpus.texts := []; Corpus.labels_index := []; Corpus.labels := [] |}
          (PyStr.sorted (map fst root)).
Proof. reflexivity. Qed.

(** X3: label ids are handed out in sorted directory order: the label index
    built by cell 7 pairs the class directories of the corpus root, in
    sorted order, with the ids 0, 1, 2, ...; entries that are not
    directories get no id. *)
Theorem corpus_label_ids (root : list (string * Corpus.entry)) :
  Corpus.labels_index (Corpus.load root)
  = zip (class_directories root) (seq 0 (length (class_directories root))).
Proof.
  destruct (load_loop_spec root (PyStr.sorted (map fst root))
              {| Corpus.texts := []; Corpus.labels_index := []; Corpus.labels := [] |})
    as (Hli & _).
  rewrite <- load_unfold in Hli. exact Hli.
Qed.

(** X4: the texts and the labels collected by cell 7 are parallel lists of
    the same length, every collected label is one of the ids of the label
    index, and there are at most as many classes as entries in the corpus
    root. *)
Theorem corpus_lists_parallel (root : list (string * Corpus.entry)) :
  let st := Corpus.load root in
  length (Corpus.texts st) = length (Corpus.labels st) /\
  Forall (fun l => (l < length (Corpus.labels_index st))%nat) (Corpus.labels st) /\
  (length (Corpus.labels_index st) <= length root)%nat.
Proof.
  intros st.
  destruct (load_loop_spec root (PyStr.sorted (map fst root))
              {| Corpus.texts := []; Corpus.labels_index := []; Corpus.labels := [] |})
    as (Hli & Hl & Ht).
  rewrite <- load_unfold in Hli, Hl, Ht. fold st in Hli, Hl, Ht.
  cbn [Corpus.texts Corpus.labels_index Corpus.labels length app] in *.
  fold (class_directories root) in *.
  assert (Hn : length (Corpus.labels_index st) = length (class_directories root)).
  { rewrite Hli, length_zip, length_seq. lia. }
  split; [by rewrite Hl, Ht|]. split.
  - rewrite Hl, Hn. apply Forall_forall. intros l Hin.
    apply list_elem_of_In, in_flat_map in Hin as ([name id] & Hp & Hin).
    apply list_elem_of_In, elem_of_replicate in Hin as [-> _].
    apply list_elem_of_In, elem_of_zip_r, elem_of_seq in Hp. simpl. lia.
  - rewrite Hn. unfold class_directories.
    etrans; [apply filter_length_le|].
    by rewrite (Permutation_length (sorted_perm _)), length_map.
Qed.

(** X5: the collected labels are grouped by class: they are, class after
    class in the order of the label index, as many copies of the class's id
    as the class directory holds files with a purely numeric name; files
    with other names contribute nothing. *)
Theorem corpus_class_sizes (root : list (string * Corpus.entry)) :
  let st := Corpus.load root in
  Corpus.labels st
  = List.flat_map (fun p => replicate (class_size root (fst p)) (snd p))
                  (Corpus.labels_index st).
Proof.
  intros st.
  destruct (load_loop_spec root (PyStr.sorted (map fst root))
              {| Corpus.texts := []; Corpus.labels_index := []; Corpus.labels := [] |})
    as (Hli & Hl & _).
  rewrite <- load_unfold in Hli, Hl. fold st in Hli, Hl.
  cbn [Corpus.labels_index Corpus.labels length app] in *.
  by rewrite Hl, Hli.
Qed.

(** ** Class names of the report *)

Lemma sorted_by_id_consecutive (names : list string) (start : nat) :
  sorted_by_id (zip names (seq start (length names)))
  = zip names (seq start (length names)).
Proof.
  revert start. induction names as [|name names IH]; intros start; [done|].
  cbn [length seq zip_with]. unfold sorted_by_id. cbn [foldr].
  fold (sorted_by_id (zip names (seq (S start) (length names)))).
  rewrite IH. destruct names as [|name' names]; [done|].
  cbn [length seq zip_with insert_by_id snd].
  by destruct (Nat.ltb_spec (S start) start); [lia|].
Qed.

(** X6: the class names that label the rows of the report (cell 28) undo
    the label index of cell 7: they are the class directories in sorted
    order, and the name at position [id] is the name the label index maps
    to [id]. *)
Theorem class_names_of_label_index (root : list (string * Corpus.entry)) :
  let labels_index := Corpus.labels_index (Corpus.load root) in
  class_names labels_index = class_directories root /\
  forall name id, (name, id) ∈ labels_index ->
                  class_names labels_index !! id = Some name.
Proof.
  intros labels_index.
  assert (Hli : labels_index
                = zip (class_directories root)
                      (seq 0 (length (class_directories root)))).
  { destruct (load_loop_spec root (PyStr.sorted (map fst root))
                {| Corpus.texts := []; Corpus.labels_index := [];
                   Corpus.labels := [] |}) as (Hli & _).
    rewrite <- load_unfold in Hli. exact Hli. }
  assert (Hnames : class_names labels_index = class_directories root).
  { unfold class_names. rewrite Hli, sorted_by_id_consecutive.
    apply fst_zip. by rewrite length_seq. }
  split; [done|]. intros name id Hin. rewrite Hnames.
  rewrite Hli in Hin. apply list_elem_of_lookup in Hin as [i Hi].
  apply lookup_zip_with_Some in Hi as (x & y & [= -> ->] & Hx & Hy).
  apply lookup_seq in Hy as [-> _]. done.
Qed.

(** ** Embedding loader *)

Section EmbeddingLoaderFacts.
Context `{FloatOps}.

Lemma load_line_Ok (st st' : gmap string (list float32)) (line : string) :
  Embeddings.load_line st line = Ok st' ->
  exists word fields coefs,
    PyStr.split line = word :: fields /\
    mapM parse_float32 fields = Some coefs /\
    st' = <[word := coefs]> st.
Proof.
  unfold Embeddings.load_line, Embeddings.asarray_float32.
  destruct (PyStr.split line) as [|word fields]; [done|].
  destruct (mapM parse_float32 fields) as [coefs|] eqn:Hm; [|done].
  simpl. intros [= <-]. by exists word, fields, coefs.
Qed.

(** Lines with other tokens leave the entry of a word as it was. *)
Lemma load_other_lines (lines : list string) (w : string) :
  forall st tbl,
    for_each Embeddings.load_line lines st = Ok tbl ->
    Forall (fun line => line_token line <> Some w) lines ->
    tbl !! w = st !! w.
Proof.
  induction lines as [|line lines IH]; intros st tbl Hrun Hother.
  - simpl in Hrun. by injection Hrun as <-.
  - cbn [for_each] in Hrun.
    destruct (Embeddings.load_line st line) as [st1|] eqn:Hline; [|done].
    cbn [rbind] in Hrun. apply Forall_cons in Hother as [Hw Hother].
    rewrite (IH _ _ Hrun Hother).
    apply load_line_Ok in Hline as (word & fields & coefs & Hs & _ & ->).
    apply lookup_insert_ne. intros ->. apply Hw. unfold line_token. by rewrite Hs.
Qed.

(** The words of the table are the tokens of the lines. *)
Lemma load_domain (lines : list string) (w : string) :
  forall st tbl,
    for_each Embeddings.load_line lines st = Ok tbl ->
    (is_Some (tbl !! w) <->
     is_Some (st !! w) \/ Exists (fun line => line_token line = Some w) lines).
Proof.
  induction lines as [|line lines IH]; intros st tbl Hrun.
  - simpl in Hrun. injection Hrun as <-. rewrite Exists_nil.
    split; [by left|by intros [?|[]]].
  - cbn [for_each] in Hrun.
    destruct (Embeddings.load_line st line) as [st1|] eqn:Hline; [|done].
    cbn [rbind] in Hrun. rewrite (IH _ _ Hrun), Exists_cons.
    apply load_line_Ok in Hline as (word & fields & coefs & Hs & _ & ->).
    unfold line_token at 2. rewrite Hs. cbn [head].
    destruct (decide (word = w)) as [->|Hne].
    + rewrite lookup_insert_eq. split; [intros _|intros _; left; by eexists].
      right. by left.
    + rewrite lookup_insert_ne by done.
      split; [intros [?|?]; [by left|right; by right]|].
      intros [?|[[= ?]|?]]; [by left|done|by right].
Qed.

End EmbeddingLoaderFacts.

(** X7: in the table of a load that went through, the entry of a token is
    the vector of the last line that starts with that token (a later line
    replaces an earlier one), and the tokens of the table are exactly the
    first fields of the lines. *)
Theorem load_last_line_wins `{FloatOps} (lines : list string)
        (tbl : gmap string (list float32)) :
  Embeddings.load lines = Ok tbl ->
  (forall before line after w fields,
      lines = before ++ line :: after ->
      PyStr.split line = w :: fields ->
      Forall (fun l => line_token l <> Some w) after ->
      exists coefs,
        Forall2 (fun f c => parse_float32 f = Some c) fields coefs /\
        tbl !! w = Some coefs) /\
  (forall w, is_Some (tbl !! w) <->
             Exists (fun line => line_token line = Some w) lines).
Proof.
  intros Hrun. split.
  - intros before line after w fields -> Hs Hafter.
    unfold Embeddings.load in Hrun. rewrite for_each_app in Hrun.
    destruct (for_each Embeddings.load_line before ∅) as [st|]; [|done].
    cbn [rbind for_each] in Hrun.
    destruct (Embeddings.load_line st line) as [st1|] eqn:Hline; [|done].
    cbn [rbind] in Hrun.
    apply load_line_Ok in Hline as (word & fields' & coefs & Hs' & Hm & ->).
    rewrite Hs in Hs'. injection Hs' as <- <-.
    exists coefs. split; [by apply mapM_Some|].
    rewrite (load_other_lines _ _ _ _ Hrun Hafter). apply lookup_insert_eq.
  - intros w. rewrite (load_domain _ _ _ _ Hrun), lookup_empty.
    split; [intros [[? [=]]|?]; done|by right].
Qed.

Lemma load_last_line_wins_witness :
  let lines := ["cat 0.1 0.2"; "dog 1"; "cat 7 8 9"]%string in
  exists tbl,
    @Embeddings.load Instances.Q_floats lines = Ok tbl /\
    tbl !! "cat"%string = Some [7; 8; 9]%Q /\
    (is_Some (tbl !! "cow"%string) <->
     Exists (fun line => line_token line = Some "cow"%string) lines).
Proof.
  intros lines.
  destruct (@Embeddings.load Instances.Q_floats lines) as [tbl|] eqn:Hrun;
    [|vm_compute in Hrun; discriminate].
  exists tbl. split; [reflexivity|].
  destruct (@load_last_line_wins Instances.Q_floats lines tbl Hrun) as [Hlast Hdom].
  split; [|apply Hdom].
  destruct (Hlast ["cat 0.1 0.2"; "dog 1"]%string "cat 7 8 9"%string []
                  "cat"%string ["7"; "8"; "9"]%string eq_refl eq_refl)
    as (coefs & Hall & Hw); [constructor|].
  refine (eq_trans Hw _). f_equal.
  apply mapM_Some in Hall. vm_compute in Hall. by injection Hall as <-.
Defined.

(** ** Vocabulary of the tokenizer *)

Lemma get_is_Some (d : list (string * nat)) (w : string) :
  is_Some (Keras.get d w) <-> w ∈ d.*1.
Proof.
  induction d as [|[k v] d IH]; simpl.
  - split; [by intros [? [=]]|by intros ?%elem_of_nil].
  - destruct (String.eqb_spec k w) as [->|Hne].
    + split; [intros _; left|by eexists].
    + rewrite IH. split; [by right|].
      intros [?|?]%elem_of_cons; [congruence|done].
Qed.

Lemma get_bump (w' w : string) (counts : list (string * nat)) :
  Keras.get (Keras.bump w' counts) w
  = if String.eqb w' w then Some (S (default 0%nat (Keras.get counts w)))
    else Keras.get counts w.
Proof.
  induction counts as [|[k c] counts IH].
  - simpl. by destruct (String.eqb w' w).
  - cbn [Keras.bump]. destruct (String.eqb_spec k w') as [->|Hk].
    + simpl. by destruct (String.eqb_spec w' w).
    + cbn [Keras.get]. rewrite IH.
      destruct (String.eqb_spec k w) as [->|Hkw]; [|done].
      by destruct (String.eqb_spec w' w); [congruence|].
Qed.

Lemma occurrences_cons (w w' : string) (ws : list string) :
  occurrences w (w' :: ws)
  = ((if String.eqb w' w then 1 else 0) + occurrences w ws)%nat.
Proof.
  unfold occurrences. simpl. rewrite (String.eqb_sym w w').
  by destruct (String.eqb w' w).
Qed.

Lemma occurrences_pos (w : string) (ws : list string) :
  (0 < occurrences w ws)%nat <-> w ∈ ws.
Proof.
  induction ws as [|w' ws IH].
  - split; [unfold occurrences; simpl; lia|by intros ?%elem_of_nil].
  - rewrite occurrences_cons, elem_of_cons.
    destruct (String.eqb_spec w' w) as [->|Hne].
    + split; [by left|lia].
    + rewrite <- IH. split; [intros; right; lia|intros [?|?]; [congruence|lia]].
Qed.

(** Counting the words one by one: an entry grows by the number of
    occurrences, and a word that never occurs gets no entry. *)
Lemma get_count_words (ws : list string) (w : string) :
  forall init,
    Keras.get (foldl (fun counts w => Keras.bump w counts) init ws) w
    = match Keras.get init w with
      | Some c => Some (c + occurrences w ws)%nat
      | None => if (occurrences w ws =? 0)%nat then None
                else Some (occurrences w ws)
      end.
Proof.
  induction ws as [|w' ws IH]; intros init.
  - unfold occurrences. simpl. destruct (Keras.get init w); [f_equal; lia|done].
  - cbn [foldl]. rewrite IH, get_bump, occurrences_cons.
    destruct (String.eqb_spec w' w) as [->|Hne].
    + destruct (Keras.get init w); simpl; f_equal; lia.
    + by destruct (Keras.get init w).
Qed.

Lemma fit_on_texts_counts (num_words : option nat) (texts : list string) :
  Keras.word_counts (Keras.fit_on_texts (Keras.new num_words) texts)
  = foldl (fun counts w => Keras.bump w counts) [] (corpus_words texts).
Proof.
  unfold Keras.fit_on_texts, corpus_words. cbn [Keras.word_counts Keras.new].
  generalize (@nil (string * nat)).
  induction texts as [|text texts IH]; intros init; [done|].
  cbn [foldl map concat]. by rewrite foldl_app, IH.
Qed.

(** X8: after [fit_on_texts] on a fresh tokenizer, the count kept for a
    word is the number of times the word occurs in the tokenized texts, and
    a word that occurs nowhere has no count. *)
Theorem word_counts_are_occurrences (num_words : option nat)
        (texts : list string) (w : string) :
  Keras.get (Keras.word_counts (Keras.fit_on_texts (Keras.new num_words) texts)) w
  = if (occurrences w (corpus_words texts) =? 0)%nat then None
    else Some (occurrences w (corpus_words texts)).
Proof. by rewrite fit_on_texts_counts, get_count_words. Qed.

Lemma counts_NoDup (ws : list string) :
  forall init, NoDup init.*1 ->
    NoDup (foldl (fun counts w => Keras.bump w counts) init ws).*1.
Proof.
  induction ws as [|w ws IH]; intros init Hinit; [done|].
  cbn [foldl]. by apply IH, bump_NoDup.
Qed.

Lemma insert_by_count_sorted (x : string * nat) (l : list (string * nat)) :
  StronglySorted by_count_desc l ->
  StronglySorted by_count_desc (Keras.insert_by_count x l).
Proof.
  induction 1 as [|y l Hs IH Hall]; simpl; [repeat constructor|].
  destruct (Nat.ltb_spec (snd x) (snd y)) as [Hlt|Hge].
  - constructor; [done|]. rewrite insert_by_count_perm.
    constructor; [unfold by_count_desc; lia|done].
  - constructor; [by constructor|]. constructor; [done|].
    eapply Forall_impl; [exact Hall|]. unfold by_count_desc. intros; lia.
Qed.

Lemma sort_by_count_sorted (l : list (string * nat)) :
  StronglySorted by_count_desc (Keras.sort_by_count l).
Proof.
  induction l as [|x l IH]; simpl; [constructor|].
  by apply insert_by_count_sorted.
Qed.

Lemma StronglySorted_lookup {A : Type} (R : A -> A -> Prop) (l : list A)
      (i j : nat) (x y : A) :
  StronglySorted R l -> (i < j)%nat -> l !! i = Some x -> l !! j = Some y -> R x y.
Proof.
  intros Hs. revert i j. induction Hs as [|z l _ IH Hall]; intros i j Hij Hi Hj.
  - done.
  - destruct j as [|j]; [lia|]. destruct i as [|i].
    + simpl in Hi, Hj. injection Hi as <-.
      rewrite Forall_forall in Hall. by eapply Hall, list_elem_of_lookup_2.
    + simpl in Hi, Hj. eapply IH; [|done..]. lia.
Qed.

(** The tokenizer fitted on [texts], seen as a ranking: the sorted counts,
    whose position [p] holds the word of index [p + 1] with its number of
    occurrences. *)
Lemma word_index_positions (num_words : option nat) (texts : list string) :
  let tok := Keras.fit_on_texts (Keras.new num_words) texts in
  exists ranked : list (string * nat),
    StronglySorted by_count_desc ranked /\
    NoDup ranked.*1 /\
    Keras.word_index tok = zip ranked.*1 (seq 1 (length ranked)) /\
    (forall w, w ∈ ranked.*1 <-> w ∈ corpus_words texts) /\
    (forall w i, Keras.get (Keras.word_index tok) w = Some i <->
       (1 <= i)%nat /\
       ranked !! (i - 1)%nat = Some (w, occurrences w (corpus_words texts))).
Proof.
  intros tok.
  set (counts := Keras.word_counts tok).
  assert (Hcounts : counts = foldl (fun counts w => Keras.bump w counts) []
                                   (corpus_words texts)).
  { apply fit_on_texts_counts. }
  assert (Hnd : NoDup counts.*1).
  { rewrite Hcounts. apply counts_NoDup. constructor. }
  assert (Hget : forall w c, (w, c) ∈ counts ->
                             c = occurrences w (corpus_words texts)).
  { intros w c Hin. apply (get_of_elem _ _ _ Hnd) in Hin.
    unfold counts, tok in Hin. rewrite fit_on_texts_counts, get_count_words in Hin. cbn [Keras.get] in Hin.
    destruct (occurrences w (corpus_words texts) =? 0)%nat; congruence. }
  exists (Keras.sort_by_count counts).
  assert (Hperm : Keras.sort_by_count counts ≡ₚ counts) by apply sort_by_count_perm.
  assert (Hnd' : NoDup (Keras.sort_by_count counts).*1) by by rewrite Hperm.
  assert (Hwi : Keras.word_index tok
                = zip (Keras.sort_by_count counts).*1
                      (seq 1 (length (Keras.sort_by_count counts)))).
  { unfold tok, Keras.fit_on_texts. cbn [Keras.word_index].
    by rewrite length_map. }
  split; [apply sort_by_count_sorted|]. split; [done|]. split; [done|]. split.
  - intros w. rewrite Hperm, <- get_is_Some. unfold counts, tok.
    rewrite fit_on_texts_counts, get_count_words, <- occurrences_pos. cbn [Keras.get].
    destruct (Nat.eqb_spec (occurrences w (corpus_words texts)) 0) as [->|Hne].
    + split; [by intros [? [=]]|lia].
    + split; [lia|by eexists].
  - intros w i. rewrite Hwi. split.
    + intros Hg. apply get_elem_of, list_elem_of_lookup in Hg as [p Hp].
      apply lookup_zip_with_Some in Hp as (w' & i' & [= <- <-] & Hw & Hi).
      apply lookup_seq in Hi as [-> _]. split; [lia|].
      replace (1 + p - 1)%nat with p by lia.
      rewrite list_lookup_fmap in Hw.
      destruct (Keras.sort_by_count counts !! p) as [[w0 c]|] eqn:Hp; [|done].
      simpl in Hw. injection Hw as ->. f_equal. f_equal.
      apply Hget. rewrite <- Hperm. by eapply list_elem_of_lookup_2.
    + intros [Hi Hp]. apply get_of_elem; [by rewrite fst_zip by (rewrite length_seq, length_map; lia)|].
      apply list_elem_of_lookup. exists (i - 1)%nat.
      apply lookup_zip_with_Some. exists w, i. split; [done|]. split.
      * by rewrite list_lookup_fmap, Hp.
      * apply lookup_seq. split; [lia|]. by eapply lookup_lt_Some.
Qed.

(** X9: the word index ranks by frequency: of two words of the fitted
    vocabulary, the one that occurs more often has the smaller index. *)
Theorem word_index_ranks_by_count (num_words : option nat) (texts : list string)
        (w1 w2 : string) (i1 i2 : nat) :
  let word_index :=
    Keras.word_index (Keras.fit_on_texts (Keras.new num_words) texts) in
  Keras.get word_index w1 = Some i1 ->
  Keras.get word_index w2 = Some i2 ->
  (occurrences w2 (corpus_words texts) < occurrences w1 (corpus_words texts))%nat ->
  (i1 < i2)%nat.
Proof.
  intros word_index H1 H2 Hocc.
  destruct (word_index_positions num_words texts)
    as (ranked & Hsorted & _ & _ & _ & Hpos).
  apply Hpos in H1 as [Hi1 Hp1]. apply Hpos in H2 as [Hi2 Hp2].
  destruct (Nat.lt_trichotomy i1 i2) as [Hlt|[->|Hgt]]; [done| |].
  - rewrite Hp1 in Hp2. injection Hp2 as -> _. lia.
  - pose proof (StronglySorted_lookup _ _ (i2 - 1) (i1 - 1) _ _ Hsorted
                  ltac:(lia) Hp2 Hp1) as Hle.
    unfold by_count_desc in Hle. simpl in Hle. lia.
Qed.

Lemma word_index_ranks_by_count_witness :
  let word_index :=
    Keras.word_index
      (Keras.fit_on_texts (Keras.new (Some 3%nat)) ["b a a c"; "c d"]%string) in
  Keras.get word_index "a"%string = Some 1%nat /\
  Keras.get word_index "d"%string = Some 4%nat /\
  (occurrences "d" (corpus_words ["b a a c"; "c d"]%string)
   < occurrences "a" (corpus_words ["b a a c"; "c d"]%string))%nat /\
  (1 < 4)%nat.
Proof.
  intros word_index. split; [reflexivity|]. split; [reflexivity|].
  split; [vm_compute; lia|].
  apply (word_index_ranks_by_count (Some 3%nat) ["b a a c"; "c d"]%string
           "a"%string "d"%string 1 4); [reflexivity|reflexivity|vm_compute; lia].
Defined.

(** X10: the word index of the fitted tokenizer is a one-to-one numbering
    of the vocabulary: a word has an index exactly when it occurs in the
    tokenized texts, the indices are the numbers from 1 to the size of the
    index, no two words share an index and every number in that range is
    the index of a word. *)
Theorem word_index_numbers_vocabulary (num_words : option nat)
        (texts : list string) :
  let word_index :=
    Keras.word_index (Keras.fit_on_texts (Keras.new num_words) texts) in
  (forall w, is_Some (Keras.get word_index w) <-> w ∈ corpus_words texts) /\
  (forall w i, Keras.get word_index w = Some i ->
               (1 <= i <= length word_index)%nat) /\
  (forall w1 w2 i, Keras.get word_index w1 = Some i ->
                   Keras.get word_index w2 = Some i -> w1 = w2) /\
  (forall i, (1 <= i <= length word_index)%nat ->
             exists w, Keras.get word_index w = Some i).
Proof.
  intros word_index.
  destruct (word_index_positions num_words texts)
    as (ranked & _ & Hnd & Hwi & Hvoc & Hpos).
  fold word_index in Hwi, Hpos.
  assert (Hlen : length word_index = length ranked).
  { rewrite Hwi, length_zip, length_seq, length_map. lia. }
  assert (Hkeys : word_index.*1 = ranked.*1).
  { rewrite Hwi. apply fst_zip. rewrite length_seq, length_map. lia. }
  split; [|split; [|split]].
  - intros w. by rewrite get_is_Some, Hkeys.
  - intros w i [Hi Hp]%Hpos. apply lookup_lt_Some in Hp. lia.
  - intros w1 w2 i [_ Hp1]%Hpos [_ Hp2]%Hpos. congruence.
  - intros i Hi.
    destruct (lookup_lt_is_Some_2 ranked (i - 1)) as [[w c] Hp]; [lia|].
    assert (Hw : is_Some (Keras.get word_index w)).
    { apply get_is_Some. rewrite Hkeys. apply list_elem_of_fmap.
      exists (w, c). split; [done|]. by eapply list_elem_of_lookup_2. }
    destruct Hw as [i' Hi']. exists w.
    pose proof Hi' as [Hpos' Hp']%Hpos.
    assert (Heq : (i' - 1 = i - 1)%nat).
    { apply (NoDup_lookup ranked.*1 _ _ w Hnd).
      - by rewrite list_lookup_fmap, Hp'.
      - by rewrite list_lookup_fmap, Hp. }
    rewrite Hi'. f_equal. lia.
Qed.

Lemma text_words_in_corpus (texts : list string) (text w : string) :
  text ∈ texts -> w ∈ Keras.text_to_word_sequence text -> w ∈ corpus_words texts.
Proof.
  intros Ht Hw. unfold corpus_words. apply list_elem_of_In, in_concat.
  exists (Keras.text_to_word_sequence text).
  split; [apply in_map; by apply list_elem_of_In|by apply list_elem_of_In].
Qed.

(** X11: a text of the fitted corpus is encoded word for word when the
    vocabulary is smaller than the cap: the sequence holds exactly one id
    per word of the text, in order, and each id is the index of the word at
    that position. *)
Theorem text_to_sequence_encodes (max_vocab : nat) (texts : list string)
        (text : string) :
  let tok := Keras.fit_on_texts (Keras.new (Some max_vocab)) texts in
  text ∈ texts ->
  (length (Keras.word_index tok) < max_vocab)%nat ->
  Forall2 (fun w i => Keras.get (Keras.word_index tok) w = Some i)
          (Keras.text_to_word_sequence text)
          (Keras.text_to_sequence tok text).
Proof.
  intros tok Htext Hcap.
  destruct (word_index_positions (Some max_vocab) texts)
    as (ranked & _ & _ & Hwi & Hvoc & Hpos).
  fold tok in Hwi, Hpos.
  assert (Hlen : length (Keras.word_index tok) = length ranked).
  { rewrite Hwi, length_zip, length_seq, length_map. lia. }
  assert (Hkeys : (Keras.word_index tok).*1 = ranked.*1).
  { rewrite Hwi. apply fst_zip. rewrite length_seq, length_map. lia. }
  assert (Hall : Forall (fun w => w ∈ corpus_words texts)
                        (Keras.text_to_word_sequence text)).
  { apply Forall_forall. intros w Hw. by eapply text_words_in_corpus. }
  unfold Keras.text_to_sequence.
  change (Keras.num_words tok) with (Some max_vocab).
  induction Hall as [|w ws Hw _ IH]; [constructor|].
  cbn [List.flat_map].
  assert (Hsome : is_Some (Keras.get (Keras.word_index tok) w)).
  { apply get_is_Some. rewrite Hkeys. by apply Hvoc. }
  destruct Hsome as [i Hi]. rewrite Hi.
  pose proof Hi as [Hi1 Hp]%Hpos. apply lookup_lt_Some in Hp.
  unfold Keras.beyond_cap. destruct max_vocab as [|n]; [lia|].
  destruct (Nat.leb_spec (S n) i) as [|_]; [lia|].
  by constructor.
Qed.

Lemma text_to_sequence_encodes_witness :
  let tok :=
    Keras.fit_on_texts (Keras.new (Some 10%nat)) ["b a a c"; "c d"]%string in
  "b a a c"%string ∈ ["b a a c"; "c d"]%string /\
  (length (Keras.word_index tok) < 10)%nat /\
  Forall2 (fun w i => Keras.get (Keras.word_index tok) w = Some i)
          ["b"; "a"; "a"; "c"]%string [3; 1; 1; 2]%nat.
Proof.
  intros tok. split; [by left|]. split; [vm_compute; lia|].
  apply (text_to_sequence_encodes 10 ["b a a c"; "c d"]%string "b a a c"%string);
    [by left|vm_compute; lia].
Defined.

(** What the encoding loop keeps: every id of a sequence is the index of
    a word of the text that the test on the cap let through. *)
Lemma text_to_sequence_known (tok : Keras.Tokenizer) (text : string) :
  Forall (fun i => exists w, w ∈ Keras.text_to_word_sequence text /\
                             Keras.get (Keras.word_index tok) w = Some i /\
                             Keras.beyond_cap (Keras.num_words tok) i = false)
         (Keras.text_to_sequence tok text) /\
  (length (Keras.text_to_sequence tok text)
   <= length (Keras.text_to_word_sequence text))%nat.
Proof.
  unfold Keras.text_to_sequence.
  induction (Keras.text_to_word_sequence text) as [|w ws [IH1 IH2]].
  - split; [constructor|done].
  - cbn [List.flat_map]. rewrite length_app. cbn [length].
    assert (Hrest : Forall (fun i => exists w0, w0 ∈ w :: ws /\
                       Keras.get (Keras.word_index tok) w0 = Some i /\
                       Keras.beyond_cap (Keras.num_words tok) i = false)
                      (List.flat_map
                         (fun w => match Keras.get (Keras.word_index tok) w with
                                   | Some i =>
                                       if Keras.beyond_cap (Keras.num_words tok) i
                                       then [] else [i]
                                   | None => []
                                   end) ws)).
    { eapply Forall_impl; [exact IH1|].
      intros i (w0 & Hin & Hg & Hb). exists w0. split; [by right|done]. }
    destruct (Keras.get (Keras.word_index tok) w) as [i|] eqn:Hg;
      [|split; [exact Hrest|simpl; lia]].
    destruct (Keras.beyond_cap (Keras.num_words tok) i) eqn:Hb;
      [split; [exact Hrest|simpl; lia]|].
    split; [|simpl; lia].
    apply Forall_app. split; [|exact Hrest].
    constructor; [|constructor]. exists w. split; [by left|done].
Qed.

Lemma beyond_cap_false (num_words : option nat) (i n : nat) :
  Keras.beyond_cap num_words i = false ->
  num_words = Some n -> (0 < n)%nat -> (i < n)%nat.
Proof.
  intros Hb -> Hn. destruct n as [|n]; [lia|]. cbn [Keras.beyond_cap] in Hb.
  apply Nat.leb_gt in Hb. lia.
Qed.

Lemma text_to_sequence_uncapped (tok : Keras.Tokenizer) (text : string) :
  Keras.num_words tok = None \/ Keras.num_words tok = Some 0%nat ->
  Keras.text_to_sequence tok text
  = omap (Keras.get (Keras.word_index tok)) (Keras.text_to_word_sequence text).
Proof.
  intros Hcap. unfold Keras.text_to_sequence.
  assert (Hb : forall i, Keras.beyond_cap (Keras.num_words tok) i = false).
  { intros i. by destruct Hcap as [-> | ->]. }
  induction (Keras.text_to_word_sequence text) as [|w ws IH]; [done|].
  cbn [List.flat_map omap list_omap]. rewrite IH.
  destruct (Keras.get (Keras.word_index tok) w) as [i|]; [|done].
  by rewrite Hb.
Qed.

(** X12: encoding never invents ids: for any text, known to the tokenizer
    or not, every id of its sequence is the index of a word of that text
    and, when the tokenizer has a positive cap, is below that cap; the
    sequence is at most as long as the text has words; and with no cap or a
    cap of 0, which the library reads as no cap, nothing is cut off: the
    sequence holds the index of every word of the text that has one. *)
Theorem text_to_sequence_only_known_words (tok : Keras.Tokenizer) (text : string) :
  Forall (fun i => exists w, w ∈ Keras.text_to_word_sequence text /\
                             Keras.get (Keras.word_index tok) w = Some i /\
                             forall n, Keras.num_words tok = Some n ->
                                       (0 < n)%nat -> (i < n)%nat)
         (Keras.text_to_sequence tok text) /\
  (length (Keras.text_to_sequence tok text)
   <= length (Keras.text_to_word_sequence text))%nat /\
  (Keras.num_words tok = None \/ Keras.num_words tok = Some 0%nat ->
   Keras.text_to_sequence tok text
   = omap (Keras.get (Keras.word_index tok)) (Keras.text_to_word_sequence text)).
Proof.
  destruct (text_to_sequence_known tok text) as [Hknown Hlen].
  split; [|split; [exact Hlen|apply text_to_sequence_uncapped]].
  eapply Forall_impl; [exact Hknown|].
  intros i (w & Hin & Hg & Hb). exists w. split; [done|]. split; [done|].
  intros n Hn Hpos. by eapply beyond_cap_false.
Qed.

(** ** Embedding matrix: ids and rows *)

Lemma text_to_sequence_bounds (max_vocab : nat) (texts : list string)
      (text : string) :
  let tok := Keras.fit_on_texts (Keras.new (Some max_vocab)) texts in
  (0 < max_vocab)%nat ->
  Forall (fun id => (id < max_vocab `min` (length (Keras.word_index tok) + 1))%nat)
         (Keras.text_to_sequence tok text).
Proof.
  intros tok Hpos.
  destruct (fit_on_texts_word_index (Some max_vocab) texts) as (voc & _ & Hwi).
  fold tok in Hwi.
  assert (Hlen : length (Keras.word_index tok) = length voc).
  { rewrite Hwi, length_zip, length_seq. lia. }
  unfold Keras.text_to_sequence. change (Keras.num_words tok) with (Some max_vocab).
  induction (Keras.text_to_word_sequence text) as [|w ws IH]; [constructor|].
  cbn [List.flat_map]. apply Forall_app. split; [|exact IH].
  destruct (Keras.get (Keras.word_index tok) w) as [i|] eqn:Hg; [|constructor].
  rewrite Hwi in Hg. apply get_zip_seq in Hg.
  unfold Keras.beyond_cap. destruct max_vocab as [|n]; [lia|].
  destruct (Nat.leb_spec (S n) i); [constructor|].
  constructor; [lia|constructor].
Qed.

(** X13: every id of the encoded data is a row of the embedding matrix:
    with a positive cap and sequence length, whatever the embedding table
    and dimension, if cell 17 returns a matrix for the fitted word index
    then each id in each row of the data of cell 11, the padding 0
    included, is the number of one of its rows, so the embedding lookup of
    the network stays in bounds. *)
Theorem encoded_ids_are_matrix_rows `{FloatOps} (max_vocab max_length : nat)
        (texts : list string) :
  (0 < max_vocab)%nat -> (0 < max_length)%nat ->
  exists tokenizer data,
    vectorize max_vocab max_length texts = Ok (tokenizer, data) /\
    forall embedding_dim embeddings_index embedding_matrix n_not_found,
      build_embedding_matrix max_vocab embedding_dim
                             (Keras.word_index tokenizer) embeddings_index
      = Ok (embedding_matrix, n_not_found) ->
      Forall (Forall (fun id => is_Some (embedding_matrix !! id))) data.
Proof.
  intros Hv Hl. unfold vectorize.
  set (tok := Keras.fit_on_texts _ texts).
  exists tok, (map (padded max_length) (Keras.texts_to_sequences tok texts)).
  rewrite pad_sequences_ok by done. split; [done|].
  intros embedding_dim embeddings_index embedding_matrix n_not_found Hrun.
  unfold build_embedding_matrix in Hrun.
  destruct (for_each _ _ _) as [[m n]|] eqn:Hloop; [|done].
  cbn [rbind] in Hrun. injection Hrun as <- <-.
  apply (embedding_loop_Ok max_vocab embedding_dim) in Hloop as (Hlen & _ & _).
  rewrite length_replicate in Hlen.
  apply Forall_fmap, Forall_fmap, Forall_forall. intros text _. simpl.
  apply padded_Forall.
  - apply lookup_lt_is_Some. rewrite length_map, Hlen. lia.
  - eapply Forall_impl; [by apply text_to_sequence_bounds|].
    intros id Hid. apply lookup_lt_is_Some. by rewrite length_map, Hlen.
Qed.

Lemma encoded_ids_are_matrix_rows_witness :
  (0 < 3)%nat /\ (0 < 5)%nat /\
  exists tokenizer data,
    vectorize 3 5 ["b a a c"; "c d"]%string = Ok (tokenizer, data) /\
    forall embedding_dim embeddings_index embedding_matrix n_not_found,
      @build_embedding_matrix Instances.Q_floats 3 embedding_dim
                              (Keras.word_index tokenizer) embeddings_index
      = Ok (embedding_matrix, n_not_found) ->
      Forall (Forall (fun id => is_Some (embedding_matrix !! id))) data.
Proof.
  split; [lia|]. split; [lia|].
  apply (@encoded_ids_are_matrix_rows Instances.Q_floats 3 5
           ["b a a c"; "c d"]%string); lia.
Defined.

(** X14: whenever cell 17 returns, for any word index and table, the
    matrix has [min(max_num_words, len(word_index) + 1)] rows of exactly
    [embedding_dim] values each, and the not-found counter is at most the
    number of words of the index. *)
Theorem embedding_matrix_shape `{FloatOps} (max_num_words embedding_dim : nat)
        (word_index : list (string * nat))
        (embeddings_index : gmap string (list float32))
        (embedding_matrix : list (list float32)) (n_not_found : nat) :
  build_embedding_matrix max_num_words embedding_dim word_index embeddings_index
  = Ok (embedding_matrix, n_not_found) ->
  length embedding_matrix = (max_num_words `min` (length word_index + 1))%nat /\
  Forall (fun row => length row = embedding_dim) embedding_matrix /\
  (n_not_found <= length word_index)%nat.
Proof.
  intros Hrun. unfold build_embedding_matrix in Hrun.
  destruct (for_each _ _ _) as [[m n]|] eqn:Hloop; [|done].
  cbn [rbind] in Hrun. injection Hrun as <- <-.
  apply (embedding_loop_Ok max_num_words embedding_dim) in Hloop
    as (Hlen & Hdim & Hn).
  rewrite length_replicate in Hlen.
  split; [by rewrite length_map|]. split; [|lia].
  apply Forall_fmap. eapply Forall_impl.
  - apply Hdim, Forall_replicate, length_replicate.
  - intros row Hrow. simpl. by rewrite length_map.
Qed.

Lemma embedding_matrix_shape_witness :
  let embeddings_index : gmap string (list (@float32 Instances.Q_floats)) :=
    <["a"%string := [1 # 10; 2 # 10; 3 # 10]%Q]> (<["b"%string := [1]%Q]> ∅) in
  let word_index := [("a", 1); ("c", 2); ("b", 3); ("d", 9)]%nat%string in
  exists embedding_matrix n_not_found,
    @build_embedding_matrix Instances.Q_floats 5 3 word_index embeddings_index
    = Ok (embedding_matrix, n_not_found) /\
    length embedding_matrix = 5%nat /\
    Forall (fun row => length row = 3%nat) embedding_matrix /\
    (n_not_found <= 4)%nat.
Proof.
  intros embeddings_index word_index.
  destruct (@build_embedding_matrix Instances.Q_floats 5 3 word_index
              embeddings_index) as [[m n]|] eqn:Hrun;
    [|vm_compute in Hrun; discriminate].
  exists m, n. split; [reflexivity|].
  apply (@embedding_matrix_shape Instances.Q_floats 5 3 word_index
           embeddings_index m n Hrun).
Defined.

(** X15: a vector of the wrong length is refused: on the word index of the
    fitted tokenizer, if some word below the cap has a vector in the table
    whose length is neither the embedding dimension nor 1, cell 17 raises
    [ValueError] and returns no matrix. *)
Theorem embedding_matrix_wrong_dimension `{FloatOps}
        (max_vocab embedding_dim : nat) (texts : list string)
        (embeddings_index : gmap string (list float32))
        (w : string) (i : nat) (v : list float32) :
  let word_index :=
    Keras.word_index (Keras.fit_on_texts (Keras.new (Some max_vocab)) texts) in
  Keras.get word_index w = Some i -> (i < max_vocab)%nat ->
  embeddings_index !! w = Some v ->
  length v <> embedding_dim -> length v <> 1%nat ->
  build_embedding_matrix max_vocab embedding_dim word_index embeddings_index
  = Raise ValueError.
Proof.
  intros word_index Hg Hi Hv Hdim H1.
  destruct (fit_on_texts_word_index (Some max_vocab) texts) as (voc & Hnd & Hwi).
  fold word_index in Hwi.
  assert (Hlen : length word_index = length voc).
  { rewrite Hwi, length_zip, length_seq. lia. }
  unfold build_embedding_matrix.
  destruct (embedding_loop_unstorable max_vocab embedding_dim embeddings_index
              word_index
              (replicate (max_vocab `min` (length word_index + 1))
                         (replicate embedding_dim (of_nat 0))) 0%nat)
    as [Hraise|[Hgood _]].
  - intros w' i' Hin Hlt. rewrite length_replicate.
    apply (get_of_elem word_index) in Hin as Hg'.
    + rewrite Hwi in Hg'. apply get_zip_seq in Hg'. lia.
    + by rewrite Hwi, fst_zip by (rewrite length_seq; lia).
  - apply Forall_replicate, length_replicate.
  - by rewrite Hraise.
  - exfalso. rewrite Forall_forall in Hgood.
    apply (Hgood (w, i)); [by apply get_elem_of|].
    split; [done|]. by exists v.
Qed.

Lemma embedding_matrix_wrong_dimension_witness :
  let embeddings_index : gmap string (list (@float32 Instances.Q_floats)) :=
    <["a"%string := [1 # 10; 2 # 10]%Q]> ∅ in
  @build_embedding_matrix Instances.Q_floats 3 3
    (Keras.word_index
       (Keras.fit_on_texts (Keras.new (Some 3%nat)) ["b a a c"; "c d"]%string))
    embeddings_index
  = Raise ValueError.
Proof.
  intros embeddings_index.
  apply (@embedding_matrix_wrong_dimension Instances.Q_floats 3 3
           ["b a a c"; "c d"]%string embeddings_index "a"%string 1
           [1 # 10; 2 # 10]%Q);
    [reflexivity|lia|reflexivity|simpl; lia|simpl; lia].
Defined.

(** ** Dataset splitter: documents stay with their labels *)

Lemma select_zip {A B : Type} (X : list A) (y : list B) (idx : list nat)
      (xs : list A) (ys : list B) :
  Forall2 (fun i x => X !! i = Some x) idx xs ->
  Forall2 (fun i l => y !! i = Some l) idx ys ->
  Forall2 (fun i p => zip X y !! i = Some p) idx (zip xs ys).
Proof.
  intros Hx. revert ys. induction Hx as [|i x idx xs Hi _ IH]; intros ys Hy.
  - inversion Hy. constructor.
  - inversion Hy as [|i' l idx' ys' Hl Hy']; subst. simpl. constructor.
    + by rewrite lookup_zip_with, Hi, Hl.
    + by apply IH.
Qed.

Lemma omap_select {A : Type} (l : list A) (idx : list nat) (r : list A) :
  Forall2 (fun i x => l !! i = Some x) idx r -> omap (fun i => l !! i) idx = r.
Proof.
  induction 1 as [|i x idx r Hi _ IH]; [done|].
  simpl. rewrite Hi. simpl. f_equal. exact IH.
Qed.

(** Reading a list at a rearrangement of all its positions gives a
    rearrangement of the list. *)
Lemma select_perm {A : Type} (l : list A) (idx : list nat) (r : list A) :
  idx ≡ₚ seq 0 (length l) ->
  Forall2 (fun i x => l !! i = Some x) idx r -> r ≡ₚ l.
Proof.
  intros Hperm Hsel.
  assert (Hall : Forall2 (fun i x => l !! i = Some x) (seq 0 (length l)) l).
  { pose proof (safe_indexing_seq l 0 (length l) ltac:(lia)) as Hs.
    apply safe_indexing_Ok in Hs. by rewrite drop_0, firstn_all in Hs. }
  rewrite <- (omap_select _ _ _ Hsel).
  etrans; [apply (omap_Permutation _ _ _ Hperm)|].
  by rewrite (omap_select _ _ _ Hall).
Qed.

(** X16: the split keeps every document with its label and loses or
    repeats none: on a dataset large enough to be split, the
    (document, label) pairs of the train, validation and test sets together
    are a rearrangement of the pairs of the dataset, and in each set there
    are as many labels as documents. *)
Theorem split_dataset_keeps_pairs `{Sklearn.RandomState} {A B : Type}
        (ambient : Sklearn.rng_state) (validation_set test_set : nat)
        (data : list A) (labels : list B) :
  length data = length labels ->
  (0 < validation_set)%nat -> (0 < test_set)%nat ->
  (validation_set + test_set < length data)%nat ->
  exists s,
    split_dataset ambient validation_set test_set data labels = Ok s /\
    zip (x_train s) (y_train s) ++ zip (x_val s) (y_val s)
      ++ zip (x_test s) (y_test s) ≡ₚ zip data labels /\
    length (x_train s) = length (y_train s) /\
    length (x_val s) = length (y_val s) /\
    length (x_test s) = length (y_test s).
Proof.
  intros Hlen Hv Ht Hn.
  destruct (split_dataset_spec ambient validation_set test_set data labels
              Hlen Hv Ht Hn)
    as (s & xtr & ytr & Hs & _ & _ & _ & _ & _ & _ & _
        & Hxt & Hxv & Hxe & Hyt & Hyv & Hye).
  set (perm := Sklearn.permutation (Sklearn.seeded 42) (length data)) in *.
  set (rest := drop test_set perm) in *.
  set (n_train := (length data - test_set - validation_set)%nat) in *.
  exists s. split; [done|]. split.
  - apply (select_perm _ (take n_train rest ++ drop n_train rest
                           ++ take test_set perm)).
    + rewrite length_zip, <- Hlen, Nat.min_id, app_assoc, take_drop. unfold rest.
      rewrite (Permutation_app_comm (drop _ _)), take_drop.
      apply Sklearn.permutation_perm.
    + repeat apply Forall2_app; by apply select_zip.
  - rewrite <- (Forall2_length _ _ _ Hxt), <- (Forall2_length _ _ _ Hyt),
      <- (Forall2_length _ _ _ Hxv), <- (Forall2_length _ _ _ Hyv),
      <- (Forall2_length _ _ _ Hxe), <- (Forall2_length _ _ _ Hye). done.
Qed.

Lemma split_dataset_keeps_pairs_witness :
  let data := ["d0"; "d1"; "d2"; "d3"; "d4"]%string in
  let labels := [0; 0; 1; 1; 2]%nat in
  exists s,
    @split_dataset Instances.reversing _ _ 7%nat 1%nat 2%nat data labels = Ok s /\
    zip (x_train s) (y_train s) ++ zip (x_val s) (y_val s)
      ++ zip (x_test s) (y_test s) ≡ₚ zip data labels /\
    length (x_train s) = length (y_train s) /\
    length (x_val s) = length (y_val s) /\
    length (x_test s) = length (y_test s).
Proof.
  intros data labels.
  apply (@split_dataset_keeps_pairs Instances.reversing _ _ 7%nat 1%nat 2%nat
           data labels eq_refl); simpl; lia.
Defined.

(** ** Data loaders: batch sizes *)

Lemma chunks_nil {A : Type} (fuel size : nat) : @Torch.chunks A fuel size [] = [].
Proof. by destruct fuel. Qed.

Lemma chunks_sizes {A : Type} (fuel size : nat) (l : list A) :
  (0 < size)%nat ->
  Forall (fun b => (0 < length b <= size)%nat) (Torch.chunks fuel size l) /\
  forall i b, Torch.chunks fuel size l !! i = Some b ->
              (S i < length (Torch.chunks fuel size l))%nat ->
              length b = size.
Proof.
  intros Hsize. revert l. induction fuel as [|fuel IH]; intros l.
  - split; [constructor|done].
  - destruct l as [|x l]; [split; [constructor|done]|].
    cbn [Torch.chunks]. destruct (IH (drop size (x :: l))) as [IH1 IH2]. split.
    + constructor; [|done]. rewrite length_take. simpl. lia.
    + intros [|i] b Hb Hi.
      * simpl in Hb. injection Hb as <-. cbn [length] in Hi.
        destruct (drop size (x :: l)) as [|y rest] eqn:Hdrop.
        { rewrite chunks_nil in Hi. simpl in Hi. lia. }
        pose proof (f_equal length Hdrop) as Hl.
        rewrite length_drop in Hl. rewrite length_take. simpl in *. lia.
      * simpl in Hb. cbn [length] in Hi. apply (IH2 i b Hb). lia.
Qed.

(** X17: a data loader with a positive batch size cuts its dataset into
    consecutive batches: put back together in order the batches are the
    dataset, no batch is empty or larger than the batch size, every batch
    but the last has exactly the batch size, and [len(loader)] is the
    number of batches. *)
Theorem batches_cut_dataset (loader : Torch.DataLoader) :
  (0 < Torch.batch_size loader)%nat ->
  concat (Torch.batches loader) = Torch.dataset loader /\
  Forall (fun b => (0 < length b <= Torch.batch_size loader)%nat)
         (Torch.batches loader) /\
  (forall i b, Torch.batches loader !! i = Some b ->
               (S i < length (Torch.batches loader))%nat ->
               length b = Torch.batch_size loader) /\
  Torch.len loader = length (Torch.batches loader).
Proof.
  intros Hsize. destruct (batches_concat loader Hsize) as [Hcat Hlen].
  destruct (chunks_sizes (length (Torch.dataset loader)) (Torch.batch_size loader)
              (Torch.dataset loader) Hsize) as [Hall Hfull].
  split; [done|]. split; [done|]. split; [exact Hfull|done].
Qed.

Lemma batches_cut_dataset_witness :
  (0 < Torch.batch_size Instances.test_loader)%nat /\
  map length (Torch.batches Instances.test_loader) = [2; 2; 1]%nat /\
  concat (Torch.batches Instances.test_loader)
  = Torch.dataset Instances.test_loader /\
  Torch.len Instances.test_loader = length (Torch.batches Instances.test_loader).
Proof.
  split; [simpl; lia|]. split; [reflexivity|].
  destruct (batches_cut_dataset Instances.test_loader ltac:(simpl; lia))
    as (Hcat & _ & _ & Hlen).
  split; [exact Hcat|exact Hlen].
Defined.

(** ** Evaluator: batching and failures *)

Section EvaluatorEdges.
Context `{FloatOps}.
Variable net : Net.

Lemma evaluate_accuracy (validation_loader loader : Torch.DataLoader)
      (r : evaluation) :
  evaluate net validation_loader loader = Ok r ->
  accuracy r
  = fdiv32 (fmul32 (of_nat32 100) (of_nat32 (n_correct r)))
           (of_nat32 (length (Torch.dataset loader))).
Proof.
  unfold evaluate. destruct (for_each _ _ _) as [st|]; [|done]. cbn [rbind].
  destruct (_ =? _)%nat; [done|].
  destruct (Torch.batches loader); [done|]. by intros [= <-].
Qed.

Lemma count_equal_le (pred target : list nat) :
  (count_equal pred target <= length target)%nat.
Proof.
  unfold count_equal. etrans; [apply filter_length_le|].
  rewrite length_zip. lia.
Qed.

End EvaluatorEdges.

(** X18: the validation loader enters the loss only: evaluating the same
    loader against two validation loaders gives the same predictions, the
    same count of correct predictions and the same accuracy; the accuracy
    is 100 times the count of correct predictions divided by the number of
    samples of the evaluated set, there is one prediction per sample, and
    the count of correct ones is at most the number of samples. *)
Theorem evaluate_accuracy_ignores_validation_loader `{FloatOps} (net : Net)
        (validation_loader validation_loader' loader : Torch.DataLoader) :
  (0 < Torch.batch_size loader)%nat ->
  Torch.dataset loader <> [] ->
  Forall (fun t => (t < N_CLASSES)%nat) (Torch.targets loader) ->
  (0 < Torch.batch_size validation_loader)%nat ->
  Torch.dataset validation_loader <> [] ->
  (0 < Torch.batch_size validation_loader')%nat ->
  Torch.dataset validation_loader' <> [] ->
  exists r r',
    evaluate net validation_loader loader = Ok r /\
    evaluate net validation_loader' loader = Ok r' /\
    predictions r' = predictions r /\
    n_correct r' = n_correct r /\
    accuracy r' = accuracy r /\
    accuracy r
    = fdiv32 (fmul32 (of_nat32 100) (of_nat32 (n_correct r)))
             (of_nat32 (length (Torch.dataset loader))) /\
    length (predictions r) = length (Torch.dataset loader) /\
    (n_correct r <= length (Torch.dataset loader))%nat.
Proof.
  intros Hb Hd Hrange Hvb Hvd Hvb' Hvd'.
  destruct (evaluate_spec net validation_loader loader Hvb Hvd Hb Hd Hrange)
    as (r & _ & Hrun & _ & _ & Hpred & Hcorrect).
  destruct (evaluate_spec net validation_loader' loader Hvb' Hvd' Hb Hd Hrange)
    as (r' & _ & Hrun' & _ & _ & Hpred' & Hcorrect').
  exists r, r'. split; [done|]. split; [done|].
  assert (Hp : predictions r' = predictions r) by by rewrite Hpred, Hpred'.
  assert (Hc : n_correct r' = n_correct r) by by rewrite Hcorrect, Hcorrect', Hp.
  split; [done|]. split; [done|]. split.
  { rewrite (evaluate_accuracy net _ _ _ Hrun), (evaluate_accuracy net _ _ _ Hrun').
    by rewrite Hc. }
  split; [by apply (evaluate_accuracy net validation_loader)|].
  split; [by rewrite Hpred, predict_length|].
  rewrite Hcorrect. etrans; [apply count_equal_le|].
  unfold Torch.targets. by rewrite length_map.
Qed.

Lemma evaluate_accuracy_ignores_validation_loader_witness :
  exists r r',
    @evaluate Instances.Q_floats Instances.sum_net
      Instances.validation_loader Instances.test_loader = Ok r /\
    @evaluate Instances.Q_floats Instances.sum_net
      Instances.test_loader Instances.test_loader = Ok r' /\
    predictions r' = predictions r /\
    n_correct r' = n_correct r /\
    accuracy r' = accuracy r /\
    accuracy r
    = @fdiv32 Instances.Q_floats
        (fmul32 (of_nat32 100) (of_nat32 (n_correct r)))
        (of_nat32 (length (Torch.dataset Instances.test_loader))) /\
    length (predictions r) = length (Torch.dataset Instances.test_loader) /\
    (n_correct r <= length (Torch.dataset Instances.test_loader))%nat.
Proof.
  apply (@evaluate_accuracy_ignores_validation_loader Instances.Q_floats
           Instances.sum_net Instances.validation_loader Instances.test_loader
           Instances.test_loader);
    [simpl; lia|discriminate|vm_compute; repeat constructor
    |simpl; lia|discriminate|simpl; lia|discriminate].
Defined.

(** X19: the two ways [evaluate] fails on empty data: evaluating a loader
    with no sample raises [AttributeError] (the count of correct
    predictions is still the integer 0) when the validation loader has a
    batch; and with a validation loader without samples the division of
    the loss raises [ZeroDivisionError], on any evaluated loader whose
    labels are classes, the validation loader itself included. *)
Theorem evaluate_fails_on_empty_data `{FloatOps} (net : Net)
        (validation_loader loader : Torch.DataLoader) :
  (Torch.dataset loader = [] -> (0 < Torch.len validation_loader)%nat ->
   evaluate net validation_loader loader = Raise AttributeError) /\
  (Torch.dataset validation_loader = [] ->
   (0 < Torch.batch_size loader)%nat ->
   Forall (fun t => (t < N_CLASSES)%nat) (Torch.targets loader) ->
   evaluate net validation_loader loader = Raise ZeroDivisionError).
Proof.
  split.
  - intros Hd Hv. unfold evaluate, Torch.batches. rewrite Hd. simpl.
    by destruct (Nat.eqb_spec (Torch.len validation_loader) 0); [lia|].
  - intros Hvd Hb Hrange.
    destruct (batches_concat loader Hb) as [Hcat _].
    destruct (eval_loop_spec net (Torch.batches loader)
                {| loss := of_nat 0; correct := 0; pred_vector := [] |})
      as (losses & _ & Hrun).
    { by rewrite Hcat. }
    unfold evaluate. rewrite Hrun. cbn [rbind].
    unfold Torch.len. rewrite Hvd. cbn [length].
    destruct (Torch.batch_size validation_loader) as [|b]; [done|].
    rewrite Nat.div_small by lia. done.
Qed.

Lemma evaluate_fails_on_empty_data_witness :
  @evaluate Instances.Q_floats Instances.sum_net Instances.validation_loader
    {| Torch.dataset := []; Torch.batch_size := 2 |} = Raise AttributeError /\
  @evaluate Instances.Q_floats Instances.sum_net
    {| Torch.dataset := []; Torch.batch_size := 2 |} Instances.test_loader
  = Raise ZeroDivisionError.
Proof.
  split.
  - apply (proj1 (@evaluate_fails_on_empty_data Instances.Q_floats
                    Instances.sum_net Instances.validation_loader
                    {| Torch.dataset := []; Torch.batch_size := 2 |}));
      [reflexivity|vm_compute; lia].
  - apply (proj2 (@evaluate_fails_on_empty_data Instances.Q_floats
                    Instances.sum_net
                    {| Torch.dataset := []; Torch.batch_size := 2 |}
                    Instances.test_loader));
      [reflexivity|simpl; lia|vm_compute; repeat constructor].
Defined.

(** ** Confusion matrix: total *)

Lemma sum_first_indicator (pairs : list (nat * nat)) (g : nat * nat -> bool)
      (n : nat) :
  sum_list (map (fun i => length (List.filter
                                    (fun p => (fst p =? i)%nat && g p) pairs))
                (seq 0 n))
  = length (List.filter (fun p => (fst p <? n)%nat && g p) pairs).
Proof.
  induction pairs as [|p pairs IH].
  - simpl. induction (seq 0 n) as [|j l IHl]; [done|exact IHl].
  - rewrite (map_ext _ (fun i =>
               (Nat.b2n (g p && (fst p =? i)%nat)
                + length (List.filter (fun p => (fst p =? i)%nat && g p) pairs))%nat)).
    2:{ intros i. simpl. destruct (fst p =? i)%nat, (g p); simpl; lia. }
    rewrite sum_list_map_add, IH, sum_indicator. simpl.
    destruct (g p), (fst p <? n)%nat; simpl; lia.
Qed.

(** X20: the confusion matrix of the report accounts for every evaluated
    sample exactly once: under the conditions in which the report is
    produced, all its entries together add up to the number of samples of
    the evaluated set. *)
Theorem confusion_matrix_total `{FloatOps} (net : Net)
        (validation_loader loader : Torch.DataLoader) :
  (0 < Torch.batch_size validation_loader)%nat ->
  Torch.dataset validation_loader <> [] ->
  (0 < Torch.batch_size loader)%nat ->
  Torch.dataset loader <> [] ->
  Forall (fun t => (t < N_CLASSES)%nat) (Torch.targets loader) ->
  exists r cm acc,
    report net validation_loader loader = Ok (r, cm, acc) /\
    sum_list (map sum_list cm) = length (Torch.dataset loader).
Proof.
  intros Hvb Hvd Hb Hd Hrange.
  destruct (evaluate_spec net validation_loader loader Hvb Hvd Hb Hd Hrange)
    as (r & losses & Hrun & _ & _ & Hpred & _).
  set (y_true := Torch.targets loader) in *.
  assert (Hplen : length y_true = length (predictions r)).
  { rewrite Hpred, predict_length. unfold y_true, Torch.targets.
    by rewrite length_map. }
  assert (Hprange : Forall (fun p => (p < N_CLASSES)%nat) (predictions r)).
  { rewrite Hpred. apply predict_range. }
  pose proof (confusion_matrix_ok y_true (predictions r) N_CLASSES Hplen) as Hcm.
  specialize (Hcm ltac:(unfold y_true, Torch.targets;
                        by destruct (Torch.dataset loader)) Hrange Hprange).
  eexists r, _, _. split.
  { unfold report. rewrite Hrun. cbn [rbind]. fold y_true. by rewrite Hcm. }
  rewrite map_map.
  rewrite (map_ext _ (fun i => length (List.filter
             (fun p => (fst p =? i)%nat && (snd p <? N_CLASSES)%nat)
             (zip y_true (predictions r))))) by (intros i; apply row_sum).
  rewrite sum_first_indicator, filter_all.
  - rewrite length_zip, <- Hplen, Nat.min_id. unfold y_true, Torch.targets.
    by rewrite length_map.
  - eapply Forall_impl; [apply (Forall_zip _ _ _ _ Hrange Hprange)|].
    intros [t p] [Ht Hp]. simpl in *.
    destruct (Nat.ltb_spec t N_CLASSES); [|lia].
    by destruct (Nat.ltb_spec p N_CLASSES); [|lia].
Qed.

Lemma confusion_matrix_total_witness :
  exists r cm acc,
    @report Instances.Q_floats Instances.sum_net
      Instances.validation_loader Instances.test_loader = Ok (r, cm, acc) /\
    sum_list (map sum_list cm) = 5%nat.
Proof.
  apply (@confusion_matrix_total Instances.Q_floats Instances.sum_net
           Instances.validation_loader Instances.test_loader);
    [simpl; lia|discriminate|simpl; lia|discriminate
    |vm_compute; repeat constructor].
Defined.

(** ** Convolutional network: sequence length *)

Lemma conv1d_Some (kernel_size length l : nat) :
  CNN.conv1d kernel_size length = Some l <->
  (kernel_size <= length)%nat /\ l = (length - kernel_size + 1)%nat.
Proof.
  unfold CNN.conv1d. destruct (Nat.ltb_spec length kernel_size).
  - split; [done|lia].
  - split; [by intros [= <-]|by intros [_ ->]].
Qed.

Lemma max_pool1d_Some (kernel_size length l : nat) :
  CNN.max_pool1d kernel_size length = Some l <->
  (kernel_size <= length)%nat /\
  l = ((length - kernel_size) / kernel_size + 1)%nat.
Proof.
  unfold CNN.max_pool1d. destruct (Nat.ltb_spec length kernel_size).
  - split; [done|lia].
  - split; [by intros [= <-]|by intros [_ ->]].
Qed.

Lemma div_bounds (x c : nat) :
  (0 < c)%nat -> (c * (x / c) <= x < c * (x / c) + c)%nat.
Proof.
  intros Hc. pose proof (Nat.div_mod_eq x c).
  pose proof (Nat.mod_upper_bound x c ltac:(lia)). lia.
Qed.

(** Replaces an innermost quotient of the goal by a variable bounded as
    the quotient is. *)
Ltac cut_div :=
  match goal with
  | |- context [(?x / ?c)%nat] =>
      lazymatch x with
      | context [(_ / _)%nat] => fail
      | _ => let q := fresh "q" in
             pose proof (div_bounds x c ltac:(lia));
             set (q := (x / c)%nat) in *; clearbody q
      end
  end.

(** The forward pass goes through exactly for sequences of at least 999
    ids, and then [x.view(-1, 128)] yields [CNN.positions length] rows per
    sample. *)
Lemma forward_rows_Some (batch length rows : nat) :
  CNN.forward_rows batch length = Some rows <->
  (999 <= length)%nat /\ rows = (batch * CNN.positions length)%nat.
Proof.
  unfold CNN.forward_rows, CNN.positions. split.
  - intros Hrun.
    destruct (CNN.conv1d 5 length) as [l1|] eqn:H1; [|done].
    apply conv1d_Some in H1 as [H1 ->]. cbn [mbind option_bind] in Hrun.
    destruct (CNN.max_pool1d 5 _) as [l2|] eqn:H2; [|done].
    apply max_pool1d_Some in H2 as [H2 ->]. cbn [mbind option_bind] in Hrun.
    destruct (CNN.conv1d 5 _) as [l3|] eqn:H3; [|done].
    apply conv1d_Some in H3 as [H3 ->]. cbn [mbind option_bind] in Hrun.
    destruct (CNN.max_pool1d 5 _) as [l4|] eqn:H4; [|done].
    apply max_pool1d_Some in H4 as [H4 ->]. cbn [mbind option_bind] in Hrun.
    destruct (CNN.conv1d 5 _) as [l5|] eqn:H5; [|done].
    apply conv1d_Some in H5 as [H5 ->]. cbn [mbind option_bind] in Hrun.
    destruct (CNN.max_pool1d 35 _) as [l6|] eqn:H6; [|done].
    apply max_pool1d_Some in H6 as [H6 ->]. cbn [mbind option_bind] in Hrun.
    split; [|by injection Hrun as <-].
    clear Hrun. revert H1 H2 H3 H4 H5 H6. repeat cut_div. lia.
  - intros [Hlen ->].
    assert (Hl1 : (5 <= length)%nat) by lia.
    rewrite (proj2 (conv1d_Some 5 length _) (conj Hl1 eq_refl)).
    cbn [mbind option_bind].
    assert (Hl2 : (5 <= length - 5 + 1)%nat) by lia.
    rewrite (proj2 (max_pool1d_Some 5 _ _) (conj Hl2 eq_refl)).
    cbn [mbind option_bind].
    assert (Hl3 : (5 <= (length - 5 + 1 - 5) / 5 + 1)%nat)
      by (repeat cut_div; lia).
    rewrite (proj2 (conv1d_Some 5 _ _) (conj Hl3 eq_refl)).
    cbn [mbind option_bind].
    assert (Hl4 : (5 <= (length - 5 + 1 - 5) / 5 + 1 - 5 + 1)%nat)
      by (repeat cut_div; lia).
    rewrite (proj2 (max_pool1d_Some 5 _ _) (conj Hl4 eq_refl)).
    cbn [mbind option_bind].
    assert (Hl5 : (5 <= ((length - 5 + 1 - 5) / 5 + 1 - 5 + 1 - 5) / 5 + 1)%nat)
      by (repeat cut_div; lia).
    rewrite (proj2 (conv1d_Some 5 _ _) (conj Hl5 eq_refl)).
    cbn [mbind option_bind].
    assert (Hl6 : (35 <= ((length - 5 + 1 - 5) / 5 + 1 - 5 + 1 - 5) / 5 + 1 - 5 + 1)%nat)
      by (repeat cut_div; lia).
    rewrite (proj2 (max_pool1d_Some 35 _ _) (conj Hl6 eq_refl)).
    reflexivity.
Qed.

(** X21: the convolutional network of cell 19 returns one row of scores
    per sample exactly for sequence lengths from 999 to 1873, so it does
    for the padded length 1000 of cell 11: a shorter input makes a layer
    raise, and a longer one leaves several positions per sample, which the
    reshaping before the linear layers turns into extra rows. *)
Theorem forward_rows_one_per_sample (batch length : nat) :
  (0 < batch)%nat ->
  (CNN.forward_rows batch length = Some batch <->
   (999 <= length <= 1873)%nat) /\
  ((length < 999)%nat -> CNN.forward_rows batch length = None) /\
  ((1873 < length)%nat ->
   exists rows, CNN.forward_rows batch length = Some rows /\ (batch < rows)%nat) /\
  CNN.forward_rows batch MAX_SEQUENCE_LENGTH = Some batch.
Proof.
  intros Hb.
  assert (Hone : forall len, (999 <= len)%nat ->
            (CNN.positions len = 1 <-> len <= 1873)%nat /\
            (1 <= CNN.positions len)%nat).
  { intros len Hlen. unfold CNN.positions. repeat cut_div. lia. }
  split; [|split; [|split]].
  - rewrite forward_rows_Some. split.
    + intros [Hlen Hrows]. split; [done|]. apply (Hone _ Hlen). nia.
    + intros [Hlo Hhi]. split; [done|]. apply (Hone _ Hlo) in Hhi.
      rewrite Hhi. lia.
  - intros Hshort.
    destruct (CNN.forward_rows batch length) as [rows|] eqn:Hrun; [|done].
    apply forward_rows_Some in Hrun. lia.
  - intros Hlong. eexists. split; [apply forward_rows_Some; split; [lia|done]|].
    destruct (Hone length ltac:(lia)) as [Hiff Hpos].
    assert (CNN.positions length <> 1%nat) by (intros ?%Hiff; lia).
    nia.
  - apply forward_rows_Some. split; [unfold MAX_SEQUENCE_LENGTH; lia|].
    destruct (Hone MAX_SEQUENCE_LENGTH ltac:(unfold MAX_SEQUENCE_LENGTH; lia))
      as [Hiff _].
    rewrite (proj2 Hiff) by (unfold MAX_SEQUENCE_LENGTH; lia). lia.
Qed.

Lemma forward_rows_one_per_sample_witness :
  (0 < BATCH_SIZE)%nat /\
  CNN.forward_rows BATCH_SIZE MAX_SEQUENCE_LENGTH = Some BATCH_SIZE.
Proof.
  split; [unfold BATCH_SIZE; lia|].
  apply (forward_rows_one_per_sample BATCH_SIZE MAX_SEQUENCE_LENGTH).
  unfold BATCH_SIZE; lia.
Defined.

(** ** Header stripping and tokenization together *)

Lemma text_to_word_sequence_LF (t : string) :
  Keras.text_to_word_sequence (String PyStr.LF t) = Keras.text_to_word_sequence t.
Proof. reflexivity. Qed.

Lemma text_to_word_sequence_separator (body : string) :
  Keras.text_to_word_sequence (PyStr.blank_line +:+ body)
  = Keras.text_to_word_sequence body.
Proof.
  change (PyStr.blank_line +:+ body)
    with (String PyStr.LF (String PyStr.LF body)).
  by rewrite !text_to_word_sequence_LF.
Qed.

(** X22: the blank-line separator that header stripping keeps in front of
    a document does not reach the vocabulary: a document with a header
    block before its first separator is cut, after stripping, into exactly
    the words of its body, the text after that separator. *)
Theorem kept_separator_is_not_tokenized (t : string) :
  (0 < PyStr.find t PyStr.blank_line)%Z ->
  exists header body,
    t = header +:+ PyStr.blank_line +:+ body /\
    Z.of_nat (String.length header) = PyStr.find t PyStr.blank_line /\
    Keras.text_to_word_sequence (Corpus.strip_header t)
    = Keras.text_to_word_sequence body.
Proof.
  intros Hpos.
  destruct (strip_header_pos t Hpos) as (h & rest & Ht & Hs & Hpre & Hlen).
  apply prefix_app in Hpre as [body ->].
  exists h, body. split; [done|]. split; [done|].
  by rewrite Hs, text_to_word_sequence_separator.
Qed.

Lemma kept_separator_is_not_tokenized_witness :
  exists header body,
    example_document = header +:+ PyStr.blank_line +:+ body /\
    Z.of_nat (String.length header)
    = PyStr.find example_document PyStr.blank_line /\
    Keras.text_to_word_sequence (Corpus.strip_header example_document)
    = Keras.text_to_word_sequence body.
Proof.
  apply (kept_separator_is_not_tokenized example_document). reflexivity.
Defined.

(** ** Per-class accuracy of a class without samples *)

Lemma print_accuracies_spec `{FloatOps} (labels : list string) (acc : list float) :
  forall i,
    print_accuracies labels i acc
    = (zip_with (fun name j => (ljust 26 name, j)) (drop i labels) acc,
       if (length acc <=? length labels - i)%nat then Ok tt
       else Raise IndexError).
Proof.
  induction acc as [|j acc IH]; intros i.
  - simpl. by destruct (drop i labels).
  - cbn [print_accuracies]. destruct (labels !! i) as [name|] eqn:Hi.
    + rewrite IH. rewrite (drop_S _ _ _ Hi). cbn [zip_with length].
      apply lookup_lt_Some in Hi. do 2 f_equal.
      destruct (Nat.leb_spec (length acc) (length labels - S i)),
               (Nat.leb_spec (S (length acc)) (length labels - i)); done || lia.
    + apply lookup_ge_None in Hi. rewrite drop_ge by lia.
      cbn [zip_with length].
      by destruct (Nat.leb_spec (S (length acc)) (length labels - i)); [lia|].
Qed.

Lemma count_pair_absent (k j : nat) (y_true y_pred : list nat) :
  k ∉ y_true -> Sklearn.count_pair k j (zip y_true y_pred) = 0%nat.
Proof.
  unfold Sklearn.count_pair. revert y_pred.
  induction y_true as [|t y_true IH]; intros [|p y_pred] Hk; try done.
  apply not_elem_of_cons in Hk as [Hne Hk]. simpl.
  destruct (Nat.eqb_spec t k) as [->|_]; [done|]. simpl. by apply IH.
Qed.

(** X23: the report divides the diagonal by the row sums without a guard:
    for a class that has no sample in the evaluated set the quotient is
    0 / 0 (not a number, in floating point).  With at least 20 class names
    the print loop of cell 28 goes through and prints that quotient beside
    the padded name of the class; with fewer than 20 class names the loop
    raises [IndexError] after one line per name. *)
Theorem per_class_accuracy_of_absent_class `{FloatOps} (net : Net)
        (validation_loader loader : Torch.DataLoader) (labels : list string)
        (k : nat) :
  (0 < Torch.batch_size validation_loader)%nat ->
  Torch.dataset validation_loader <> [] ->
  (0 < Torch.batch_size loader)%nat ->
  Torch.dataset loader <> [] ->
  Forall (fun t => (t < N_CLASSES)%nat) (Torch.targets loader) ->
  (k < N_CLASSES)%nat -> k ∉ Torch.targets loader ->
  exists r cm acc,
    report net validation_loader loader = Ok (r, cm, acc) /\
    length acc = N_CLASSES /\
    acc !! k = Some (fdiv (of_nat 0) (of_nat 0)) /\
    ((N_CLASSES <= length labels)%nat ->
     exists printed name,
       print_accuracies labels 0 acc = (printed, Ok tt) /\
       length printed = N_CLASSES /\
       labels !! k = Some name /\
       printed !! k = Some (ljust 26 name, fdiv (of_nat 0) (of_nat 0))) /\
    ((length labels < N_CLASSES)%nat ->
     exists printed,
       print_accuracies labels 0 acc = (printed, Raise IndexError) /\
       length printed = length labels).
Proof.
  intros Hvb Hvd Hb Hd Hrange Hk Habsent.
  destruct (evaluate_spec net validation_loader loader Hvb Hvd Hb Hd Hrange)
    as (r & losses & Hrun & _ & _ & Hpred & _).
  set (y_true := Torch.targets loader) in *.
  assert (Hplen : length y_true = length (predictions r)).
  { rewrite Hpred, predict_length. unfold y_true, Torch.targets.
    by rewrite length_map. }
  assert (Hprange : Forall (fun p => (p < N_CLASSES)%nat) (predictions r)).
  { rewrite Hpred. apply predict_range. }
  pose proof (confusion_matrix_ok y_true (predictions r) N_CLASSES Hplen) as Hcm.
  specialize (Hcm ltac:(unfold y_true, Torch.targets;
                        by destruct (Torch.dataset loader)) Hrange Hprange).
  set (cm := map (fun i => map (fun j => Sklearn.count_pair i j
                                           (zip y_true (predictions r)))
                               (seq 0 N_CLASSES)) (seq 0 N_CLASSES)) in *.
  assert (Hlen : length (per_class_accuracy cm) = N_CLASSES).
  { unfold per_class_accuracy, diagonal.
    rewrite length_zip_with, length_imap, length_map. unfold cm.
    rewrite length_map, length_seq. lia. }
  assert (Hacc : per_class_accuracy cm !! k = Some (fdiv (of_nat 0) (of_nat 0))).
  { unfold per_class_accuracy, cm.
    rewrite diagonal_of_counts, map_map, lookup_zip_with, !list_lookup_fmap.
    rewrite lookup_seq_lt by done.
    cbn [fmap option_fmap option_map mbind option_bind plus].
    rewrite count_pair_absent by done.
    rewrite (map_ext _ (fun _ => 0%nat)) by (intros j; by apply count_pair_absent).
    assert (Hzero : forall l : list nat,
               sum_list (map (fun _ => 0%nat) l) = 0%nat).
    { intros l. induction l as [|j l IH]; [done|exact IH]. }
    by rewrite Hzero. }
  exists r, cm, (per_class_accuracy cm). split.
  { unfold report. rewrite Hrun. cbn [rbind]. fold y_true. by rewrite Hcm. }
  split; [exact Hlen|]. split; [exact Hacc|].
  rewrite print_accuracies_spec, drop_0, Nat.sub_0_r, Hlen. split.
  - intros Hnames.
    destruct (lookup_lt_is_Some_2 labels k ltac:(lia)) as [name Hname].
    eexists _, name. split.
    { by destruct (Nat.leb_spec N_CLASSES (length labels)); [|lia]. }
    split; [rewrite length_zip_with; lia|]. split; [done|].
    by rewrite lookup_zip_with, Hname, Hacc.
  - intros Hnames. eexists. split.
    { by destruct (Nat.leb_spec N_CLASSES (length labels)); [lia|]. }
    rewrite length_zip_with. lia.
Qed.

Lemma per_class_accuracy_of_absent_class_witness :
  exists r cm acc printed,
    @report Instances.Q_floats Instances.sum_net
      Instances.validation_loader Instances.test_loader = Ok (r, cm, acc) /\
    acc !! 0%nat = Some (@fdiv Instances.Q_floats (of_nat 0) (of_nat 0)) /\
    print_accuracies (replicate 20 "sci.space"%string) 0 acc = (printed, Ok tt) /\
    printed !! 0%nat
    = Some (ljust 26 "sci.space"%string,
            @fdiv Instances.Q_floats (of_nat 0) (of_nat 0)).
Proof.
  destruct (@per_class_accuracy_of_absent_class Instances.Q_floats
              Instances.sum_net Instances.validation_loader
              Instances.test_loader (replicate 20 "sci.space"%string) 0)
    as (r & cm & acc & Hrun & _ & Hacc & Hprint & _);
    [simpl; lia|discriminate|simpl; lia|discriminate
    |vm_compute; repeat constructor|unfold N_CLASSES; lia
    |apply (bool_decide_unpack _); vm_compute; exact I|].
  destruct (Hprint ltac:(vm_compute; lia))
    as (printed & name & Hp & _ & Hname & Hline).
  injection Hname as <-.
  by exists r, cm, acc, printed.
Defined.
